(** * FIVA email extractor: record parser, email correction and report

    A shallow embedding of [src/extractor.py].

    Python [str] values are modelled as lists of characters.  A character
    is a code point of the Latin-1 block (U+0000..U+00FF), which is the
    alphabet of the Portuguese donor listings the program reads (the name
    pattern of the parser lists accented Latin-1 letters explicitly); the
    character tables below follow CPython's Unicode tables on that block.

    The regular expressions of the program are embedded as terms of a
    small regular-expression syntax and run by a backtracking matcher with
    the priorities of Python's [re] module (leftmost match, alternatives
    in order, greedy or lazy repetition). *)

From Stdlib Require Import Ascii String List Bool Arith NArith ZArith Lia.
Import ListNotations.

Local Open Scope char_scope.
Local Open Scope list_scope.

(* ================================================================== *)
(** * Part I. Definitions *)
(* ================================================================== *)

(** ** Characters and strings *)

Definition str := list ascii.

(** A Python string literal. *)
Definition py (s : string) : str := list_ascii_of_string s.

Definition code (c : ascii) : N := N_of_ascii c.

Definition between (lo hi : N) (c : ascii) : bool :=
  ((lo <=? code c) && (code c <=? hi))%N.

Definition chr_eqb (a b : ascii) : bool := Ascii.eqb a b.

Definition chr_is (a : ascii) : ascii -> bool := fun c => chr_eqb c a.

Fixpoint str_eqb (a b : str) : bool :=
  match a, b with
  | [], [] => true
  | x :: a', y :: b' => chr_eqb x y && str_eqb a' b'
  | _, _ => false
  end.

(** [[A-Z]], [[a-z]], [[0-9]] *)
Definition is_AZ : ascii -> bool := between 65 90.
Definition is_az : ascii -> bool := between 97 122.
Definition is_09 : ascii -> bool := between 48 57.

(** [str.isspace] on one character: the characters [str.strip()] removes
    and [\s] matches. *)
Definition is_space (c : ascii) : bool :=
  between 9 13 c || between 28 32 c || chr_is "133" c || chr_is "160" c.

(** [\d]: the decimal digits. *)
Definition is_digit : ascii -> bool := is_09.

(** Letters of the Latin-1 supplement, and its other alphanumerics
    (the ordinal indicators, the micro sign, superscript digits and
    vulgar fractions), all of which [str.isalnum] accepts. *)
Definition is_latin1_alnum (c : ascii) : bool :=
  between 192 214 c || between 216 246 c || between 248 255 c
  || chr_is "170" c || chr_is "181" c || chr_is "186" c
  || chr_is "178" c || chr_is "179" c || chr_is "185" c || between 188 190 c.

(** [\w]: alphanumeric or underscore. *)
Definition is_word (c : ascii) : bool :=
  is_AZ c || is_az c || is_09 c || chr_is "_" c || is_latin1_alnum c.

Definition shift_code (c : ascii) (d : Z) : ascii :=
  ascii_of_N (Z.to_N (Z.of_N (code c) + d)).

(** [str.lower] on one character. *)
Definition lower_chr (c : ascii) : ascii :=
  if is_AZ c || (between 192 222 c && negb (chr_is "215" c))
  then shift_code c 32 else c.

(** [str.upper] on one character.  The sharp s becomes two letters.  The
    upper-case forms of the micro sign and of y with diaeresis lie outside
    Latin-1; they are left as they are, which no keyword test below can
    tell apart, the keywords being plain capital letters. *)
Definition upper_chr (c : ascii) : str :=
  if is_az c || (between 224 254 c && negb (chr_is "247" c))
  then [shift_code c (-32)]
  else if chr_is "223" c then ["S"; "S"]
  else [c].

Definition lower (s : str) : str := map lower_chr s.
Definition upper (s : str) : str := flat_map upper_chr s.

Fixpoint lstrip (s : str) : str :=
  match s with
  | c :: s' => if is_space c then lstrip s' else s
  | [] => []
  end.

Definition rstrip (s : str) : str := rev (lstrip (rev s)).

(** [s.strip()] *)
Definition strip (s : str) : str := rstrip (lstrip s).

(** [s.replace] of every space by the empty string *)
Definition remove_spaces (s : str) : str :=
  filter (fun c => negb (chr_is " " c)) s.

Fixpoint starts_with (p s : str) : bool :=
  match p, s with
  | [], _ => true
  | x :: p', y :: s' => chr_eqb x y && starts_with p' s'
  | _ :: _, [] => false
  end.

(** [needle in hay] *)
Fixpoint contains (needle hay : str) : bool :=
  starts_with needle hay ||
  match hay with
  | [] => false
  | _ :: hay' => contains needle hay'
  end.

(** [text.split('\n')] *)
Fixpoint split_lines_aux (cur : str) (s : str) : list str :=
  match s with
  | [] => [rev cur]
  | c :: s' =>
      if chr_is "010" c then rev cur :: split_lines_aux [] s'
      else split_lines_aux (c :: cur) s'
  end.

Definition split_lines (s : str) : list str := split_lines_aux [] s.

(** [sep.join(parts)] *)
Fixpoint join (sep : str) (parts : list str) : str :=
  match parts with
  | [] => []
  | [p] => p
  | p :: rest => p ++ sep ++ join sep rest
  end.

(** ** Regular expressions *)

Module Re.

(** The fragment of Python's pattern syntax the program uses.  Every
    repetition in its patterns is over a single character class, one
    capturing group is read in each pattern, and its one lookahead holds
    no group. *)
Inductive regex : Type :=
| Eps                                   (* the empty pattern *)
| Bos                                   (* ^ *)
| Eos                                   (* $ *)
| Cls (p : ascii -> bool)               (* a literal or a class [...] *)
| Seq (a b : regex)                     (* a b *)
| Alt (a b : regex)                     (* a|b *)
| Rep (n : nat) (p : ascii -> bool)     (* [...]{n,}  greedy *)
| RepLazy (n : nat) (p : ascii -> bool) (* [...]{n,}? lazy *)
| Grp (a : regex)                       (* ( a ), the pattern's group 1 *)
| Look (a : regex).                     (* (?= a ) *)

(** The matcher's cursor: how many characters lie before it, what is left
    of the subject, and the text of group 1 when it has been set. *)
Record mstate : Type := MState {
  pos : nat;
  rest : str;
  grp : option str
}.

Section Repetition.
Context {R : Type}.
Variable p : ascii -> bool.
Variable k : nat -> str -> option R.

(** Greedy: take one more character when possible, and only when the
    continuation fails further on stop here, if [n] were taken. *)
Fixpoint rep_greedy (n i : nat) (s : str) {struct s} : option R :=
  let stop := if Nat.eqb n 0 then k i s else None in
  match s with
  | c :: s' =>
      if p c then
        match rep_greedy (pred n) (S i) s' with
        | Some x => Some x
        | None => stop
        end
      else stop
  | [] => stop
  end.

(** Lazy: stop as soon as [n] were taken, and take one more character
    only when the continuation fails. *)
Fixpoint rep_lazy (n i : nat) (s : str) {struct s} : option R :=
  let stop := if Nat.eqb n 0 then k i s else None in
  match stop with
  | Some x => Some x
  | None =>
      match s with
      | c :: s' => if p c then rep_lazy (pred n) (S i) s' else None
      | [] => None
      end
  end.
End Repetition.

(** [run r st k]: match [r] at [st] and hand the cursor to [k]; when [k]
    fails, backtrack into [r].  The result is that of the first success
    in Python's priority order. *)
Fixpoint run (R : Type) (r : regex) (st : mstate)
    (k : mstate -> option R) {struct r} : option R :=
  match r with
  | Eps => k st
  | Bos => if Nat.eqb (pos st) 0 then k st else None
  | Eos =>
      match rest st with
      | [] => k st
      | [c] => if chr_is "010" c then k st else None
      | _ => None
      end
  | Cls p =>
      match rest st with
      | c :: s' => if p c then k (MState (S (pos st)) s' (grp st)) else None
      | [] => None
      end
  | Seq a b => run R a st (fun st1 => run R b st1 k)
  | Alt a b =>
      match run R a st k with
      | Some x => Some x
      | None => run R b st k
      end
  | Rep n p =>
      rep_greedy p (fun i s => k (MState i s (grp st))) n (pos st) (rest st)
  | RepLazy n p =>
      rep_lazy p (fun i s => k (MState i s (grp st))) n (pos st) (rest st)
  | Grp a =>
      run R a st (fun st1 =>
        k (MState (pos st1) (rest st1)
             (Some (firstn (pos st1 - pos st) (rest st)))))
  | Look a =>
      match run mstate a st (fun st1 => Some st1) with
      | Some _ => k st
      | None => None
      end
  end.

Arguments run {R} r st k.

(** A match object: [start()], [end()], [group(0)] and [group(1)]. *)
Record rmatch : Type := RMatch {
  m_start : nat;
  m_end : nat;
  m_text : str;
  m_group : option str
}.

(** A match of [r] that starts at offset [i], where [s] is the subject
    from that offset on. *)
Definition match_at (r : regex) (i : nat) (s : str) : option rmatch :=
  run r (MState i s None)
    (fun st => Some (RMatch i (pos st) (firstn (pos st - i) s) (grp st))).

Fixpoint search_from (r : regex) (i : nat) (s : str) : option rmatch :=
  match match_at r i s with
  | Some m => Some m
  | None =>
      match s with
      | [] => None
      | _ :: s' => search_from r (S i) s'
      end
  end.

(** [re.search(r, s)] *)
Definition search (r : regex) (s : str) : option rmatch := search_from r 0 s.

(** [re.match(r, s)] *)
Definition re_match (r : regex) (s : str) : option rmatch := match_at r 0 s.

(** [re.sub(r, repl, s)] for a replacement text without group references:
    every non-overlapping match, leftmost first, is replaced.  [skip]
    counts the characters of the last match still to be passed over. *)
Fixpoint sub_from (r : regex) (repl : str) (i skip : nat) (s : str)
    {struct s} : str :=
  match skip with
  | S n =>
      match s with
      | [] => []
      | _ :: s' => sub_from r repl (S i) n s'
      end
  | O =>
      match match_at r i s with
      | Some m =>
          repl ++
          match m_end m - i, s with
          | _, [] => []
          | O, c :: s' => c :: sub_from r repl (S i) 0 s'
          | S n, _ :: s' => sub_from r repl (S i) n s'
          end
      | None =>
          match s with
          | [] => []
          | c :: s' => c :: sub_from r repl (S i) 0 s'
          end
      end
  end.

Definition sub (r : regex) (repl : str) (s : str) : str :=
  sub_from r repl 0 0 s.

(** Pattern-building shorthands. *)
Definition Lit (c : ascii) : regex := Cls (chr_is c).
(** A literal under [re.IGNORECASE]. *)
Definition LitI (c : ascii) : regex := Cls (fun x => chr_eqb (lower_chr x) c).
Definition Plus (p : ascii -> bool) : regex := Rep 1 p.
Definition Star (p : ascii -> bool) : regex := Rep 0 p.
Fixpoint Times (n : nat) (p : ascii -> bool) : regex :=
  match n with
  | O => Eps
  | S n' => Seq (Cls p) (Times n' p)
  end.
Fixpoint Cat (rs : list regex) : regex :=
  match rs with
  | [] => Eps
  | [r] => r
  | r :: rs' => Seq r (Cat rs')
  end.

End Re.
Import Re.

(** ** Exceptions *)

(** A raised exception: the name of its class and its message,
    [str(e)].  [Exn] is an instance of a class that derives from
    [Exception]; [BaseExn] is an instance of a class that derives from
    [BaseException] only, as [KeyboardInterrupt], [SystemExit] and
    [GeneratorExit] do, which [except Exception] does not catch. *)
Inductive exn : Type :=
| Exn (cls : str) (msg : str)
| BaseExn (cls : str) (msg : str).

Definition exn_str (e : exn) : str :=
  match e with
  | Exn _ msg | BaseExn _ msg => msg
  end.

(** [isinstance(e, Exception)] *)
Definition is_Exception (e : exn) : bool :=
  match e with
  | Exn _ _ => true
  | BaseExn _ _ => false
  end.

Inductive exc (A : Type) : Type :=
| Ok (a : A)
| Raise (e : exn).

Arguments Ok {A} a.
Arguments Raise {A} e.

Definition bind {A B : Type} (m : exc A) (f : A -> exc B) : exc B :=
  match m with
  | Ok a => f a
  | Raise e => Raise e
  end.

Notation "x <- m ;; f" := (bind m (fun x => f))
  (at level 61, m at next level, right associativity).
Notation "' p <- m ;; f" := (bind m (fun x => let p := x in f))
  (at level 61, p pattern, m at next level, right associativity).

(** The built-in errors of the operations below, with a stock message. *)
Definition AttributeError : exn :=
  Exn (py "AttributeError") (py "object has no such attribute").
Definition IndexError : exn :=
  Exn (py "IndexError") (py "list index out of range").
Definition ValueError : exn :=
  Exn (py "ValueError") (py "invalid literal for int() with base 10").

(** The Python values an email argument may be. *)
Inductive pyobj : Type :=
| PStr (s : str)
| PNone
| PInt (z : Z).

(** [isinstance(o, str)] *)
Definition isinstance_str (o : pyobj) : bool :=
  match o with
  | PStr _ => true
  | _ => false
  end.

(** [o.strip()]: only strings have the method. *)
Definition attr_strip (o : pyobj) : exc str :=
  match o with
  | PStr s => Ok (strip s)
  | _ => Raise AttributeError
  end.

(** [m.group(1)] of the result of a search, as a string.  On [None] the
    attribute lookup raises; a group that took no part in the match is
    [None], on which the string operations that follow raise. *)
Definition group1 (m : option rmatch) : exc str :=
  match m with
  | Some m' =>
      match m_group m' with
      | Some g => Ok g
      | None => Raise AttributeError
      end
  | None => Raise AttributeError
  end.

(** [l[0]] *)
Definition index0 {A : Type} (l : list A) : exc A :=
  match l with
  | x :: _ => Ok x
  | [] => Raise IndexError
  end.

Definition digit_val (c : ascii) : Z := Z.of_N (code c) - 48.

Fixpoint int_digits (acc : Z) (s : str) : exc Z :=
  match s with
  | [] => Ok acc
  | c :: s' =>
      if is_digit c then int_digits (10 * acc + digit_val c) s'
      else Raise ValueError
  end.

(** [int(s)] on a text of decimal digits.  Signs, surrounding blanks and
    digit-group underscores, which the one pattern whose capture is
    converted never matches, are not modelled and count as malformed. *)
Definition int_py (s : str) : exc Z :=
  match s with
  | [] => Raise ValueError
  | _ => int_digits 0 s
  end.

(** ** Email correction *)

(** The dictionary of known domains, in insertion order. *)
Definition DOMINIOS_CONHECIDOS : list (str * list str) :=
  [ (py "gmail", [py ".com"; py ".pt"]);
    (py "hotmail", [py ".com"; py ".pt"]);
    (py "outlook", [py ".com"; py ".pt"]);
    (py "sapo", [py ".pt"]);
    (py "live", [py ".com"; py ".pt"]);
    (py "yahoo", [py ".com"; py ".pt"]);
    (py "icloud", [py ".com"]);
    (py "mail", [py ".pt"]);
    (py "iol", [py ".pt"]);
    (py "clix", [py ".pt"]);
    (py "netcabo", [py ".pt"]) ].

(** An entry of the corrections log. *)
Record correction : Type := Correction {
  original : str;
  corrected : str
}.

Record EmailProcessor : Type := MkEmailProcessor {
  common_domains : list (str * list str);
  corrections_log : list correction
}.

(** [EmailProcessor()] *)
Definition EmailProcessor_init : EmailProcessor :=
  MkEmailProcessor DOMINIOS_CONHECIDOS [].

(** [[\w\.-]] *)
Definition is_domain_chr (c : ascii) : bool :=
  is_word c || chr_is "." c || chr_is "-" c.

(** [@[\w\.-]+\.co$] under [re.IGNORECASE] *)
Definition PADRAO_1 : regex :=
  Cat [Lit "@"; Plus is_domain_chr; Lit "."; LitI "c"; LitI "o"; Eos].

(** [@([\w\.-]+)\.(c|)$] under [re.IGNORECASE].  Only group 1 is read. *)
Definition PADRAO_2 : regex :=
  Cat [Lit "@"; Grp (Plus is_domain_chr); Lit "."; Alt (LitI "c") Eps; Eos].

(** [\.(c|)$] under [re.IGNORECASE] *)
Definition SUFIXO : regex :=
  Cat [Lit "."; Alt (LitI "c") Eps; Eos].

(** The loop over [self.common_domains.items()], left by [break] at the
    first known domain found in [domain_part]. *)
Fixpoint known_domain_loop (items : list (str * list str))
    (domain_part corrected0 : str) : exc (str * bool) :=
  match items with
  | [] => Ok (corrected0, false)
  | (known_domain, extensions) :: items' =>
      if contains known_domain domain_part then
        primary_ext <- index0 extensions ;;
        Ok (Re.sub SUFIXO primary_ext corrected0, true)
      else known_domain_loop items' domain_part corrected0
  end.

Definition is_empty (s : str) : bool :=
  match s with
  | [] => true
  | _ => false
  end.

Definition log_append (self : EmailProcessor) (c : correction)
    : EmailProcessor :=
  MkEmailProcessor (common_domains self) (corrections_log self ++ [c]).

(** [EmailProcessor.correct_email]: the returned pair and the processor
    after the call. *)
Definition correct_email (self : EmailProcessor) (email : pyobj)
    : exc ((str * bool) * EmailProcessor) :=
  if negb (isinstance_str email) then Ok (([], false), self) else
  stripped <- attr_strip email ;;
  if is_empty stripped then Ok (([], false), self) else
  stripped' <- attr_strip email ;;
  let original := remove_spaces stripped' in
  ' (corrected, was_changed) <-
    (match search PADRAO_1 original with
     | Some _ => Ok (original ++ py "m", true)
     | None =>
         match search PADRAO_2 original with
         | Some _ =>
             g <- group1 (search PADRAO_2 original) ;;
             let domain_part := lower g in
             ' (corrected, was_changed) <-
               known_domain_loop (common_domains self) domain_part original ;;
             if negb was_changed
             then Ok (Re.sub SUFIXO (py ".com") corrected, true)
             else Ok (corrected, was_changed)
         | None => Ok (original, false)
         end
     end) ;;
  if was_changed
  then Ok ((corrected, was_changed),
           log_append self (Correction original corrected))
  else Ok ((corrected, was_changed), self).

Definition is_local_chr (c : ascii) : bool :=
  is_AZ c || is_az c || is_09 c
  || chr_is "." c || chr_is "_" c || chr_is "%" c || chr_is "+" c
  || chr_is "-" c.

Definition is_host_chr (c : ascii) : bool :=
  is_AZ c || is_az c || is_09 c || chr_is "." c || chr_is "-" c.

Definition is_alpha_chr (c : ascii) : bool := is_AZ c || is_az c.

(** [^[A-Za-z0-9._%+-]+@[A-Za-z0-9.-]+\.[A-Za-z]{2,}$] *)
Definition VALIDO : regex :=
  Cat [Bos; Plus is_local_chr; Lit "@"; Plus is_host_chr; Lit ".";
       Rep 2 is_alpha_chr; Eos].

(** [EmailProcessor.validate_email] *)
Definition validate_email (email : pyobj) : exc bool :=
  if negb (isinstance_str email) then Ok false else
  stripped <- attr_strip email ;;
  let email' := remove_spaces stripped in
  Ok (match re_match VALIDO email' with
      | Some _ => true
      | None => false
      end).

(** ** The record parser *)

Inductive status : Type := APTO | SUSPENSO | ELIMINADO | INDEFINIDO.

Definition status_eqb (a b : status) : bool :=
  match a, b with
  | APTO, APTO | SUSPENSO, SUSPENSO
  | ELIMINADO, ELIMINADO | INDEFINIDO, INDEFINIDO => true
  | _, _ => false
  end.

(** A row of the table.  The columns holding ["Sim"] or ["N\~ao"] are
    booleans here. *)
Record row : Type := Row {
  ID_Dador : str;
  Nome : str;
  Email_Original : str;
  Email_Corrigido : str;
  Email_Foi_Alterado : bool;
  Status : status;
  Tem_Email : bool;
  Ano_Registo : option Z
}.

Definition DataFrame := list row.

(** [df.empty] *)
Definition is_empty_df (df : DataFrame) : bool :=
  match df with
  | [] => true
  | _ => false
  end.

Definition is_PCL (c : ascii) : bool :=
  chr_is "P" c || chr_is "C" c || chr_is "L" c.

Definition is_AZ09 (c : ascii) : bool := is_AZ c || is_09 c.

(** [(S[PCL]\.[A-Z0-9]+\.\d+/\d+)] *)
Definition RE_ID : regex :=
  Grp (Cat [Lit "S"; Cls is_PCL; Lit "."; Plus is_AZ09; Lit ".";
            Plus is_digit; Lit "/"; Plus is_digit]).

(** [[a-zA-Z0-9\.]] *)
Definition is_tld_chr (c : ascii) : bool :=
  is_az c || is_AZ c || is_09 c || chr_is "." c.

(** [[\w\.\-]+@[\w\.\-]+\.[a-zA-Z0-9\.]{1,}] *)
Definition RE_EMAIL : regex :=
  Cat [Plus is_domain_chr; Lit "@"; Plus is_domain_chr; Lit ".";
       Rep 1 is_tld_chr].

(** The capital letters of the name pattern: A-Z and the accented
    capitals it lists (A with grave, acute, circumflex and tilde, C with
    cedilla, E with acute and circumflex, I with acute, O with acute,
    circumflex and tilde, U with acute). *)
Definition is_nome_upper (c : ascii) : bool :=
  is_AZ c
  || existsb (chr_eqb c)
       ["192"; "193"; "194"; "195"; "199"; "201"; "202"; "205";
        "211"; "212"; "213"; "218"].

(** The second class of the name pattern: the capitals, a-z, the same
    accented letters in lower case, and [\s]. *)
Definition is_nome_chr (c : ascii) : bool :=
  is_nome_upper c || is_az c
  || existsb (chr_eqb c)
       ["224"; "225"; "226"; "227"; "231"; "233"; "234"; "237";
        "243"; "244"; "245"; "250"]
  || is_space c.

(** [([A-Z...][A-Z...a-z...\s]+?)(?=\s*\d{2}/\d{2}/\d{4}|\s*\w+@|$)] *)
Definition RE_NOME : regex :=
  Seq (Grp (Seq (Cls is_nome_upper) (RepLazy 1 is_nome_chr)))
      (Look (Alt (Cat [Star is_space; Times 2 is_digit; Lit "/";
                       Times 2 is_digit; Lit "/"; Times 4 is_digit])
            (Alt (Cat [Star is_space; Plus is_word; Lit "@"])
                 Eos))).

(** [/(\d{2})$] *)
Definition RE_ANO : regex :=
  Cat [Lit "/"; Grp (Times 2 is_digit); Eos].

(** The state of the loop of [extrair_emails_pdf]: its two local
    variables and the extractor's email processor. *)
Record pstate : Type := PState {
  status_atual : status;
  dados : list row;
  email_processor : EmailProcessor
}.

(** The body of the loop over the lines of a page. *)
Definition linha_body (st : pstate) (linha : str) : exc pstate :=
  let linha_upper := upper linha in
  let status_atual' :=
    if contains (py "APTOS") linha_upper then APTO
    else if contains (py "SUSPENSOS") linha_upper then SUSPENSO
    else if contains (py "ELIMINADOS") linha_upper then ELIMINADO
    else status_atual st in
  match search RE_ID linha with
  | Some match_id =>
      id_dador <- group1 (Some match_id) ;;
      let status :=
        if contains (py "APTO") linha_upper then APTO
        else if contains (py "SUSPENSO") linha_upper then SUSPENSO
        else if contains (py "ELIMINADO") linha_upper then ELIMINADO
        else status_atual' in
      let email_original :=
        match search RE_EMAIL linha with
        | Some match_email => m_text match_email
        | None => []
        end in
      ' (email_corrigido, foi_corrigido, processor') <-
        correct_email (email_processor st) (PStr email_original) ;;
      tem_email <- validate_email (PStr email_corrigido) ;;
      let resto := strip (skipn (m_end match_id) linha) in
      nome <-
        (match re_match RE_NOME resto with
         | Some match_nome =>
             g <- group1 (Some match_nome) ;; Ok (strip g)
         | None => Ok []
         end) ;;
      ano_registo <-
        (if status_eqb status ELIMINADO then
           match search RE_ANO id_dador with
           | Some match_ano =>
               g <- group1 (Some match_ano) ;;
               ano_2digitos <- int_py g ;;
               Ok (Some (if (ano_2digitos <? 50)%Z
                         then (2000 + ano_2digitos)%Z
                         else (1900 + ano_2digitos)%Z))
           | None => Ok None
           end
         else Ok None) ;;
      Ok (PState status_atual'
            (dados st ++
               [Row id_dador nome email_original email_corrigido
                    foi_corrigido status tem_email ano_registo])
            processor')
  | None => Ok (PState status_atual' (dados st) (email_processor st))
  end.

Fixpoint linhas_loop (st : pstate) (linhas : list str) : exc pstate :=
  match linhas with
  | [] => Ok st
  | linha :: linhas' =>
      st' <- linha_body st linha ;;
      linhas_loop st' linhas'
  end.

(** A page of the opened document: what [extract_text()] does on it,
    raise or return a text or [None]. *)
Definition page := exc (option str).

(** What [pdfplumber] does with the file at [caminho_pdf]: fail to open
    it, or give its pages.  It stands for the path argument. *)
Definition pdf_file := exc (list page).

Fixpoint paginas_loop (st : pstate) (paginas : list page) : exc pstate :=
  match paginas with
  | [] => Ok st
  | pagina :: paginas' =>
      texto <- pagina ;;
      match texto with
      | None | Some [] => paginas_loop st paginas'
      | Some t =>
          st' <- linhas_loop st (split_lines t) ;;
          paginas_loop st' paginas'
      end
  end.

(** The character i with acute accent and a with acute accent. *)
Definition i_acute : ascii := "237".
Definition a_acute : ascii := "225".

Definition erro_processar (e : exn) : exn :=
  Exn (py "Exception") (py "Erro ao processar PDF: " ++ exn_str e).

(** [SimplePDFExtractor.extrair_emails_pdf]: the table, and the email
    processor after the run.  An extractor has one attribute, its email
    processor, which [self] stands for; the caller reads the log of the
    same processor afterwards.  The [except Exception] clause wraps what
    derives from [Exception] and lets any other exception pass. *)
Definition extrair_emails_pdf (self : EmailProcessor) (caminho_pdf : pdf_file)
    : exc (DataFrame * EmailProcessor) :=
  match (pdf <- caminho_pdf ;;
         paginas_loop (PState INDEFINIDO [] self) pdf) with
  | Ok st => Ok (dados st, email_processor st)
  | Raise e =>
      if is_Exception e then Raise (erro_processar e)
      else Raise e
  end.

(** ** The report *)

(** The lines of the report, one constructor for each literal or
    formatted line of [gerar_lista_emails]. *)
Inductive rline : Type :=
| Regua                          (* "=" * 80 *)
| Vazia                          (* the empty line *)
| Titulo                         (* "LISTAGEM DE EMAILS PARA MAILING ..." *)
| GeradoEm (agora : str)         (* f"Gerado em: {now:%d/%m/%Y %H:%M}" *)
| Estatisticas                   (* "... ESTATISTICAS:" *)
| TotalValidos (n : nat)         (* f"   Total de emails validos: {n}" *)
| Corrigidos (n : nat)           (* f"   Emails corrigidos ...: {n}" *)
| Cobertura (validos total : nat)
    (* f"   Cobertura: {c:.1f}%", c = validos / total * 100, 0 if total = 0 *)
| Cabecalho (s : status)         (* f"... {status}S" *)
| FiltroAplicado (ano_corte : Z) (* f"FILTRO APLICADO: ... (>={ano_corte})" *)
| FiltroNota (ano_corte : Z)     (* f"(Dadores eliminados antes de ...)" *)
| Total (n : nat)                (* f"Total: {n} emails" *)
| Emails (linha : str)           (* "; ".join(emails_status) *)
| Nenhum                         (* "Nenhum email valido encontrado ..." *)
| RelatorioCorrecoes             (* "... RELATORIO DE CORRECOES APLICADAS" *)
| Correcao (c : correction).     (* f"   {original} -> {corrected}" *)

(** [series.dropna()] on the year column *)
Fixpoint dropna (l : list (option Z)) : list Z :=
  match l with
  | [] => []
  | Some y :: l' => y :: dropna l'
  | None :: l' => dropna l'
  end.

(** [series.max()] of a series that is not empty *)
Fixpoint series_max (y : Z) (l : list Z) : Z :=
  match l with
  | [] => y
  | z :: l' => series_max (Z.max y z) l'
  end.

(** [series.unique()]: the distinct values in order of appearance;
    [seen] is the table of the values met so far. *)
Fixpoint unique_from (seen : list str) (l : list str) : list str :=
  match l with
  | [] => []
  | x :: l' =>
      if existsb (str_eqb x) seen then unique_from seen l'
      else x :: unique_from (x :: seen) l'
  end.

Definition unique (l : list str) : list str := unique_from [] l.

(** The cut-off year of the ELIMINADO section; [ano_agora] is
    [dt.datetime.now().year]. *)
Definition ano_de_corte (ano_agora : Z) (df : DataFrame) : Z :=
  let ano_atual :=
    match dropna (map Ano_Registo df) with
    | [] => ano_agora
    | y :: l =>
        let ano_max_amostra := series_max y l in
        if (ano_max_amostra >? 2000)%Z then ano_max_amostra else ano_agora
    end in
  (ano_atual - 3)%Z.

(** The values of [emails_status] in one turn of the loop over the
    statuses. *)
Definition emails_status (ano_corte : Z) (df : DataFrame) (s : status)
    : list str :=
  if status_eqb s ELIMINADO then
    let df_filtrado := filter (fun r => status_eqb (Status r) s) df in
    let df_filtrado :=
      filter (fun r =>
                match Ano_Registo r with
                | Some y => (y >=? ano_corte)%Z
                | None => false
                end) df_filtrado in
    unique (map Email_Corrigido (filter Tem_Email df_filtrado))
  else
    unique (map Email_Corrigido
              (filter (fun r => status_eqb (Status r) s && Tem_Email r) df)).

(** The lines one turn of the loop over the statuses appends. *)
Definition secao (ano_corte : Z) (df : DataFrame) (s : status) : list rline :=
  [Regua; Cabecalho s; Regua; Vazia]
  ++ (if status_eqb s ELIMINADO
      then [FiltroAplicado ano_corte; FiltroNota ano_corte; Vazia]
      else [])
  ++ (let emails := emails_status ano_corte df s in
      if Nat.ltb 0 (length emails)
      then [Total (length emails); Vazia; Emails (join (py "; ") emails);
            Vazia]
      else [Nenhum])
  ++ [Vazia].

(** [gerar_lista_emails]: the lines that the function joins with
    newlines.  [ano_agora] and [agora] are the year and the formatted
    time of the clock. *)
Definition gerar_lista_emails (ano_agora : Z) (agora : str)
    (df : DataFrame) (email_processor : EmailProcessor) : list rline :=
  let ano_corte := ano_de_corte ano_agora df in
  let total_emails_validos := length (filter Tem_Email df) in
  let emails_corrigidos := length (filter Email_Foi_Alterado df) in
  [Regua; Titulo; GeradoEm agora; Regua; Vazia]
  ++ [Estatisticas; TotalValidos total_emails_validos;
      Corrigidos emails_corrigidos;
      Cobertura total_emails_validos (length df); Vazia]
  ++ flat_map (secao ano_corte df) [APTO; SUSPENSO; ELIMINADO]
  ++ (if Nat.ltb 0 emails_corrigidos
      then [Regua; RelatorioCorrecoes; Regua; Vazia]
           ++ map Correcao (corrections_log email_processor)
      else []).

Definition erro_sem_dados : exn :=
  Exn (py "Exception")
    (py "Nenhum dado extra" ++ [i_acute]
     ++ py "do do PDF. Verifique se o formato est" ++ [a_acute]
     ++ py " correto.").

(** [processar_pdf_para_emails] *)
Definition processar_pdf_para_emails (ano_agora : Z) (agora : str)
    (caminho_pdf : pdf_file) : exc (list rline) :=
  let email_processor := EmailProcessor_init in
  ' (df, email_processor') <-
    extrair_emails_pdf email_processor caminho_pdf ;;
  if is_empty_df df then Raise erro_sem_dados
  else Ok (gerar_lista_emails ano_agora agora df email_processor').

(* ================================================================== *)
(** * Part II. What the patterns and the claims say *)
(* ================================================================== *)

(** ** The language of a pattern *)

(** [den r st st']: pattern [r] can match from cursor [st] and leave the
    cursor at [st'].  This says which matches exist, not which of them
    the matcher prefers. *)
Fixpoint den (r : regex) (st st' : mstate) : Prop :=
  match r with
  | Eps => st' = st
  | Bos => pos st = 0 /\ st' = st
  | Eos => (rest st = [] \/ rest st = ["010"]) /\ st' = st
  | Cls p =>
      exists c s, rest st = c :: s /\ p c = true /\
                  st' = MState (S (pos st)) s (grp st)
  | Seq a b => exists st1, den a st st1 /\ den b st1 st'
  | Alt a b => den a st st' \/ den b st st'
  | Rep n p | RepLazy n p =>
      exists w s, rest st = w ++ s /\ forallb p w = true /\ n <= length w /\
                  st' = MState (pos st + length w) s (grp st)
  | Grp a =>
      exists st1, den a st st1 /\
                  st' = MState (pos st1) (rest st1)
                          (Some (firstn (pos st1 - pos st) (rest st)))
  | Look a => (exists st1, den a st st1) /\ st' = st
  end.

(** ** Email correction: what the claims speak of *)

(** The trimmed form of an email with its inner spaces removed. *)
Definition normalizado (email : str) : str := remove_spaces (strip email).

(** [a] occurs in [b]. *)
Definition is_substring (a b : str) : Prop := exists u v, b = u ++ a ++ v.

(** The extension the table assigns to a captured domain: the first one
    listed by the first entry, in the order of the table, whose root
    occurs in the domain without regard to case; [.com] when no root
    occurs in it. *)
Definition extensao_esperada (d ext : str) : Prop :=
  (exists before root exts after,
      DOMINIOS_CONHECIDOS = before ++ (root, ext :: exts) :: after /\
      is_substring root (lower d) /\
      forall r e, In (r, e) before -> ~ is_substring r (lower d))
  \/ ((forall r e, In (r, e) DOMINIOS_CONHECIDOS ->
                   ~ is_substring r (lower d)) /\
      ext = py ".com").

(** The last character of a string, if any. *)
Definition last_chr (s : str) : option ascii :=
  match rev s with
  | c :: _ => Some c
  | [] => None
  end.

(** A string that [strip] leaves as it is. *)
Definition trimmed (s : str) : Prop :=
  match s with
  | c :: _ => is_space c = false
  | [] => True
  end /\
  match last_chr s with
  | Some c => is_space c = false
  | None => True
  end.


(** What [normalizado] yields on an email that is not blank: a string
    that is not empty, has no blank at either end and no space inside. *)
Definition normal (o : str) : Prop :=
  o <> [] /\ trimmed o /\ remove_spaces o = o.


(** The malformed end after the last dot: nothing, or a letter c in
    either case. *)
Definition sufixo_c (suf : str) : Prop :=
  suf = [] \/ exists x, suf = [x] /\ lower_chr x = "c".


(** ** The parser: what the claims speak of *)

(** The shape of a donor identifier as the pattern of the parser has
    it: [S], one of [P], [C], [L], a dot, capital letters or digits, a
    dot, digits, a slash, digits. *)
Definition forma_id (w : str) : Prop :=
  exists x a b c,
    w = "S" :: x :: "." :: a ++ "." :: b ++ "/" :: c /\
    is_PCL x = true /\
    a <> [] /\ forallb is_AZ09 a = true /\
    b <> [] /\ forallb is_digit b = true /\
    c <> [] /\ forallb is_digit c = true.

(** An email-shaped text: characters of the local part, [@], characters
    of the domain, a dot, and one or more letters, digits or dots. *)
Definition forma_email (e : str) : Prop :=
  exists l d t,
    e = l ++ "@" :: d ++ "." :: t /\
    l <> [] /\ forallb is_domain_chr l = true /\
    d <> [] /\ forallb is_domain_chr d = true /\
    t <> [] /\ forallb is_tld_chr t = true.

(** [w] occurs in [s] at offset [n]. *)
Definition occurs_at (w s : str) (n : nat) : Prop :=
  exists pre post, s = pre ++ w ++ post /\ length pre = n.

(** The section a header line opens, if the line holds a section
    keyword; the keywords are tried in this order. *)
Definition header_keyword (linha : str) : option status :=
  if contains (py "APTOS") (upper linha) then Some APTO
  else if contains (py "SUSPENSOS") (upper linha) then Some SUSPENSO
  else if contains (py "ELIMINADOS") (upper linha) then Some ELIMINADO
  else None.

(** The status a line names for itself, if it holds a status keyword;
    the keywords are tried in this order. *)
Definition line_keyword (linha : str) : option status :=
  if contains (py "APTO") (upper linha) then Some APTO
  else if contains (py "SUSPENSO") (upper linha) then Some SUSPENSO
  else if contains (py "ELIMINADO") (upper linha) then Some ELIMINADO
  else None.

(** The section in force after a run of lines: that of the most recent
    header line, [INDEFINIDO] when there was none. *)
Definition section_of (before : list str) : status :=
  match find (fun l => match header_keyword l with
                       | Some _ => true
                       | None => false
                       end) (rev before) with
  | Some h =>
      match header_keyword h with
      | Some s => s
      | None => INDEFINIDO
      end
  | None => INDEFINIDO
  end.

(** Whether a line holds a donor identifier. *)
Definition tem_id (linha : str) : bool :=
  match search RE_ID linha with
  | Some _ => true
  | None => false
  end.

(** The lines of a page and of a document, in reading order. *)
Definition page_lines (texto : option str) : list str :=
  match texto with
  | None | Some [] => []
  | Some t => split_lines t
  end.

Definition doc_lines (textos : list (option str)) : list str :=
  flat_map page_lines textos.

(** The identifier ends in a slash and exactly two digits, which read
    as the number [yy]. *)
Definition sufixo_ano (id : str) (yy : Z) : Prop :=
  exists pre a b,
    id = pre ++ ["/"; a; b] /\
    is_digit a = true /\ is_digit b = true /\
    yy = (10 * digit_val a + digit_val b)%Z.

(** The registration year of a row agrees with its status and its
    identifier. *)
Definition ano_coerente (r : row) : Prop :=
  (Ano_Registo r <> None <->
   Status r = ELIMINADO /\ exists yy, sufixo_ano (ID_Dador r) yy) /\
  (forall y, Ano_Registo r = Some y ->
     exists yy, sufixo_ano (ID_Dador r) yy /\
                ((yy < 50)%Z -> y = (2000 + yy)%Z) /\
                ((50 <= yy)%Z -> y = (1900 + yy)%Z)).


(** The section in force after one more line. *)
Definition secao_apos (sa : status) (linha : str) : status :=
  match header_keyword linha with
  | Some s => s
  | None => sa
  end.


(** [[A-Za-z0-9]] *)
Definition is_alnum_chr (c : ascii) : bool := is_AZ c || is_az c || is_09 c.

(** The identifier shape in the words of the specification: one or more
    letters, a dot, an alphanumeric segment, a dot, digits, a slash and
    exactly two digits. *)
Definition forma_id_da_spec (w : str) : Prop :=
  exists p a b y z,
    w = p ++ "." :: a ++ "." :: b ++ ["/"; y; z] /\
    p <> [] /\ forallb is_alpha_chr p = true /\
    a <> [] /\ forallb is_alnum_chr a = true /\
    b <> [] /\ forallb is_digit b = true /\
    is_digit y = true /\ is_digit z = true.

(** The email of a line in the words of the specification: the first
    email-shaped text after the place where the identifier match ends. *)
Definition email_apos_id (linha : str) : str :=
  match search RE_ID linha with
  | Some m =>
      match search RE_EMAIL (skipn (m_end m) linha) with
      | Some me => m_text me
      | None => []
      end
  | None => []
  end.

(** The original emails of the rows parsed from the pages of a
    document, by a fresh processor. *)
Definition emails_originais (textos : list (option str)) : exc (list str) :=
  ' (df, _) <- extrair_emails_pdf EmailProcessor_init (Ok (map Ok textos)) ;;
  Ok (map Email_Original df).

(** The identifiers of the rows parsed from the pages of a document. *)
Definition ids_extraidos (textos : list (option str)) : exc (list str) :=
  ' (df, _) <- extrair_emails_pdf EmailProcessor_init (Ok (map Ok textos)) ;;
  Ok (map ID_Dador df).


(** ** The report: what the claims speak of *)

(** Whether a row counts for the section of status [s]: it has that
    status and a valid email and, for [ELIMINADO] only, a registration
    year that is not below the cut-off year. *)
Definition selecionado (corte : Z) (s : status) (r : row) : bool :=
  status_eqb (Status r) s && Tem_Email r &&
  match s with
  | ELIMINADO =>
      match Ano_Registo r with
      | Some y => (corte <=? y)%Z
      | None => false
      end
  | _ => true
  end.






(** ** Further properties: what they speak of *)

(** The shape [validate_email] accepts: characters of the local part,
    [@], characters of the host, a dot and two or more letters. *)
Definition forma_valida (e : str) : Prop :=
  exists l h t,
    e = l ++ "@" :: h ++ "." :: t /\
    l <> [] /\ forallb is_local_chr l = true /\
    h <> [] /\ forallb is_host_chr h = true /\
    2 <= length t /\ forallb is_alpha_chr t = true.

(** The string ends in [.co], in either case. *)
Definition termina_co (o : str) : Prop :=
  exists u x y, o = u ++ ["."; x; y] /\ lower [x; y] = py "co".

(** No character of the string is a blank. *)
Definition sem_brancos (s : str) : bool :=
  forallb (fun c => negb (is_space c)) s.


(** The identifier and the email the parser reads from a line. *)
Definition id_da_linha (linha : str) : str :=
  match search RE_ID linha with
  | Some m => m_text m
  | None => []
  end.

Definition email_da_linha (linha : str) : str :=
  match search RE_EMAIL linha with
  | Some me => m_text me
  | None => []
  end.

(** The log entry of a row whose email was altered. *)
Definition correcao_da_linha (r : row) : correction :=
  Correction (Email_Original r) (Email_Corrigido r).

(** A name as the parser extracts it: empty, or a capital letter followed
    by letters and blanks of the name pattern, without a blank at either
    end. *)
Definition nome_bem_formado (n : str) : Prop :=
  n = [] \/
  exists c w, n = c :: w /\ is_nome_upper c = true /\
              forallb is_nome_chr w = true /\ trimmed n.

(** The columns of a row agree with one another. *)
Definition linha_coerente (r : row) : Prop :=
  (forall log, correct_email (MkEmailProcessor DOMINIOS_CONHECIDOS log)
                 (PStr (Email_Original r))
               = Ok ((Email_Corrigido r, Email_Foi_Alterado r),
                     MkEmailProcessor DOMINIOS_CONHECIDOS
                       (log ++ if Email_Foi_Alterado r
                               then [correcao_da_linha r] else []))) /\
  validate_email (PStr (Email_Corrigido r)) = Ok (Tem_Email r) /\
  (Email_Original r = [] \/ forma_email (Email_Original r)) /\
  nome_bem_formado (Nome r).


(** ** The report: what the further properties speak of *)

(** The entries of the correction trail of a report. *)
Definition correcoes_do_relatorio (linhas : list rline) : list correction :=
  flat_map (fun l => match l with
                     | Correcao c => [c]
                     | _ => []
                     end) linhas.

(** The numbers the statistics of a report give for the corrected and
    for the valid emails. *)
Definition corrigidos_do_relatorio (linhas : list rline) : list nat :=
  flat_map (fun l => match l with
                     | Corrigidos n => [n]
                     | _ => []
                     end) linhas.

Definition validos_do_relatorio (linhas : list rline) : list nat :=
  flat_map (fun l => match l with
                     | TotalValidos n => [n]
                     | _ => []
                     end) linhas.

(** The counts and the email lines of the sections of a report. *)
Definition totais_do_relatorio (linhas : list rline) : list nat :=
  flat_map (fun l => match l with
                     | Total n => [n]
                     | _ => []
                     end) linhas.

Definition emails_do_relatorio (linhas : list rline) : list str :=
  flat_map (fun l => match l with
                     | Emails e => [e]
                     | _ => []
                     end) linhas.

(** The rows of a table that belong to a section. *)
Definition com_secao (df : DataFrame) : DataFrame :=
  filter (fun r => negb (status_eqb (Status r) INDEFINIDO)) df.


(** What a section with the emails [l] adds to the counts and to the
    email lines of a report. *)
Definition total_da_secao (l : list str) : list nat :=
  match l with
  | [] => []
  | _ => [length l]
  end.

Definition linha_de_emails (l : list str) : list str :=
  match l with
  | [] => []
  | _ => [join (py "; ") l]
  end.

(* ================================================================== *)
(** * Part III. Proofs *)
(* ================================================================== *)

(** ** The program on small inputs *)

Example correct_email_co :
  correct_email EmailProcessor_init (PStr (py "joao@gmail.co"))
  = Ok ((py "joao@gmail.com", true),
        MkEmailProcessor DOMINIOS_CONHECIDOS
          [Correction (py "joao@gmail.co") (py "joao@gmail.com")]).
Proof. vm_compute. reflexivity. Qed.

(** [hotmail] stands before [mail] in the table. *)
Example correct_email_hotmail :
  correct_email EmailProcessor_init (PStr (py " ana@hot mail.c "))
  = Ok ((py "ana@hotmail.com", true),
        MkEmailProcessor DOMINIOS_CONHECIDOS
          [Correction (py "ana@hotmail.c") (py "ana@hotmail.com")]).
Proof. vm_compute. reflexivity. Qed.

Example correct_email_mail :
  correct_email EmailProcessor_init (PStr (py "ana@MAIL."))
  = Ok ((py "ana@MAIL.pt", true),
        MkEmailProcessor DOMINIOS_CONHECIDOS
          [Correction (py "ana@MAIL.") (py "ana@MAIL.pt")]).
Proof. vm_compute. reflexivity. Qed.

Example correct_email_unknown :
  correct_email EmailProcessor_init (PStr (py "ana@empresa.C"))
  = Ok ((py "ana@empresa.com", true),
        MkEmailProcessor DOMINIOS_CONHECIDOS
          [Correction (py "ana@empresa.C") (py "ana@empresa.com")]).
Proof. vm_compute. reflexivity. Qed.

Example correct_email_none :
  correct_email EmailProcessor_init PNone
  = Ok (([], false), EmailProcessor_init).
Proof. reflexivity. Qed.

Example validate_email_ok :
  validate_email (PStr (py "joao@gmail.com")) = Ok true
  /\ validate_email (PStr (py "joao@gmail.c")) = Ok false
  /\ validate_email (PStr (py "jo@ao@gmail.com")) = Ok false
  /\ validate_email (PInt 3) = Ok false.
Proof. repeat split; vm_compute; reflexivity. Qed.

(** The line of the specification's example, in an [APTOS] section. *)
Example extrair_linha_apto :
  extrair_emails_pdf EmailProcessor_init
    (Ok [Ok (Some (py "DADORES APTOS"));
         Ok (Some (py "SP.AB123.45/21 JOAO SILVA 01/01/2021 joao@gmail.co"))])
  = Ok ([Row (py "SP.AB123.45/21") (py "JOAO SILVA") (py "joao@gmail.co")
             (py "joao@gmail.com") true APTO true None],
        MkEmailProcessor DOMINIOS_CONHECIDOS
          [Correction (py "joao@gmail.co") (py "joao@gmail.com")]).
Proof. vm_compute. reflexivity. Qed.

Example extrair_anos :
  (' (df, _) <- extrair_emails_pdf EmailProcessor_init
       (Ok [Ok (Some (py "ELIMINADOS"));
            Ok (Some (py "SL.X.1/08 A"));
            Ok None;
            Ok (Some (py "SC.X.2/87 B
SC.X.3/49 C
SC.X.4/50 D
SC.X.5/123 E
SC.X.6/7 F suspenso"))]) ;;
   Ok (map (fun r => (Status r, Ano_Registo r)) df))
  = Ok [(ELIMINADO, Some 2008%Z); (ELIMINADO, Some 1987%Z);
        (ELIMINADO, Some 2049%Z); (ELIMINADO, Some 1950%Z);
        (ELIMINADO, None); (SUSPENSO, None)].
Proof. vm_compute. reflexivity. Qed.

Example processar_falha :
  processar_pdf_para_emails 2026 (py "03/11/2026 10:00")
    (Ok [Ok (Some (py "APTOS")); Raise (Exn (py "PDFSyntaxError") (py "bad xref"))])
  = Raise (Exn (py "Exception") (py "Erro ao processar PDF: bad xref")).
Proof. vm_compute. reflexivity. Qed.

Example processar_interrompido :
  processar_pdf_para_emails 2026 (py "03/11/2026 10:00")
    (Ok [Ok (Some (py "APTOS")); Raise (BaseExn (py "KeyboardInterrupt") [])])
  = Raise (BaseExn (py "KeyboardInterrupt") []).
Proof. vm_compute. reflexivity. Qed.

(** ** The matcher against the language of a pattern *)

Section RepetitionFacts.
Context {R : Type}.
Variable p : ascii -> bool.
Variable k : nat -> str -> option R.

Lemma rep_greedy_sound : forall s n i x,
  rep_greedy p k n i s = Some x ->
  exists w s', s = w ++ s' /\ forallb p w = true /\ n <= length w /\
               k (i + length w) s' = Some x.
Proof.
  induction s as [|c s IH]; intros n i x H; simpl in H.
  - destruct (Nat.eqb_spec n 0); [|discriminate].
    exists [], []. simpl. rewrite Nat.add_0_r. repeat split; auto; lia.
  - assert (Hstop : (if Nat.eqb n 0 then k i (c :: s) else None) = Some x ->
                    exists w s', c :: s = w ++ s' /\ forallb p w = true /\
                                 n <= length w /\ k (i + length w) s' = Some x).
    { intros Hs. destruct (Nat.eqb_spec n 0); [|discriminate].
      exists [], (c :: s). simpl. rewrite Nat.add_0_r.
      repeat split; auto; lia. }
    destruct (p c) eqn:Hpc; [|auto].
    destruct (rep_greedy p k (pred n) (S i) s) as [y|] eqn:Hrec; [|auto].
    injection H as ->.
    destruct (IH _ _ _ Hrec) as (w & s' & -> & Hw & Hn & Hk).
    exists (c :: w), s'. simpl. rewrite Hpc, Hw.
    replace (i + S (length w)) with (S i + length w) by lia.
    repeat split; auto; lia.
Qed.

Lemma rep_greedy_complete : forall w s' n i,
  forallb p w = true -> n <= length w ->
  k (i + length w) s' <> None ->
  rep_greedy p k n i (w ++ s') <> None.
Proof.
  induction w as [|c w IH]; intros s' n i Hw Hn Hk; simpl in *.
  - assert (n = 0) by lia. subst n. rewrite Nat.add_0_r in Hk.
    destruct s' as [|c s']; simpl; auto.
    destruct (p c); auto.
    destruct (rep_greedy p k 0 (S i) s'); [discriminate|auto].
  - apply andb_prop in Hw. destruct Hw as [Hc Hw]. rewrite Hc.
    assert (Hrec : rep_greedy p k (pred n) (S i) (w ++ s') <> None).
    { apply IH; auto; [lia|].
      replace (S i + length w) with (i + S (length w)) by lia. exact Hk. }
    destruct (rep_greedy p k (pred n) (S i) (w ++ s')); [discriminate|].
    contradiction.
Qed.

Lemma rep_lazy_sound : forall s n i x,
  rep_lazy p k n i s = Some x ->
  exists w s', s = w ++ s' /\ forallb p w = true /\ n <= length w /\
               k (i + length w) s' = Some x.
Proof.
  induction s as [|c s IH]; intros n i x H; simpl in H.
  - destruct (Nat.eqb_spec n 0).
    + destruct (k i []) as [y|] eqn:Hk; [|discriminate].
      injection H as ->. exists [], []. simpl. rewrite Nat.add_0_r.
      repeat split; auto; lia.
    + discriminate.
  - assert (Hmore : (if p c then rep_lazy p k (pred n) (S i) s else None)
                    = Some x ->
                    exists w s', c :: s = w ++ s' /\ forallb p w = true /\
                                 n <= length w /\ k (i + length w) s' = Some x).
    { destruct (p c) eqn:Hpc; [|discriminate]. intros Hrec.
      destruct (IH _ _ _ Hrec) as (w & s' & -> & Hw & Hn & Hk).
      exists (c :: w), s'. simpl. rewrite Hpc, Hw.
      replace (i + S (length w)) with (S i + length w) by lia.
      repeat split; auto; lia. }
    destruct (Nat.eqb_spec n 0); [|auto].
    destruct (k i (c :: s)) as [y|] eqn:Hk; [|auto].
    injection H as ->. exists [], (c :: s). simpl. rewrite Nat.add_0_r.
    repeat split; auto; lia.
Qed.

Lemma rep_lazy_complete : forall w s' n i,
  forallb p w = true -> n <= length w ->
  k (i + length w) s' <> None ->
  rep_lazy p k n i (w ++ s') <> None.
Proof.
  induction w as [|c w IH]; intros s' n i Hw Hn Hk; simpl in *.
  - assert (n = 0) by lia. subst n. rewrite Nat.add_0_r in Hk.
    destruct s' as [|c s']; simpl.
    + destruct (k i []); [discriminate|contradiction].
    + destruct (k i (c :: s')); [discriminate|contradiction].
  - apply andb_prop in Hw. destruct Hw as [Hc Hw]. rewrite Hc.
    assert (Hrec : rep_lazy p k (pred n) (S i) (w ++ s') <> None).
    { apply IH; auto; [lia|].
      replace (S i + length w) with (i + S (length w)) by lia. exact Hk. }
    destruct (Nat.eqb n 0); [|exact Hrec].
    destruct (k i (c :: w ++ s')); [discriminate|exact Hrec].
Qed.

End RepetitionFacts.

(** The greedy repetition stops at the longest run after which the
    continuation succeeds. *)
Section GreedyMax.
Context {R : Type}.
Variable p : ascii -> bool.
Variable k : nat -> str -> option R.

Lemma rep_greedy_max : forall s n i x,
  rep_greedy p k n i s = Some x ->
  exists w s', s = w ++ s' /\ forallb p w = true /\ n <= length w /\
               k (i + length w) s' = Some x /\
               forall w2 s2, s = w2 ++ s2 -> forallb p w2 = true ->
                             length w < length w2 ->
                             k (i + length w2) s2 = None.
Proof.
  induction s as [|c s IH]; intros n i x H.
  - destruct (rep_greedy_sound p k _ _ _ _ H) as (w & s' & E & Hw & Hn & Hk).
    symmetry in E. apply app_eq_nil in E. destruct E as [-> ->].
    exists [], []. repeat split; auto.
    intros w2 s2 E2 _ L. symmetry in E2. apply app_eq_nil in E2.
    destruct E2 as [-> _]. simpl in L. lia.
  - simpl in H.
    assert (Hstop : (if Nat.eqb n 0 then k i (c :: s) else None) = Some x ->
              (forall w2 s2, c :: s = w2 ++ s2 -> forallb p w2 = true ->
                  0 < length w2 -> k (i + length w2) s2 = None) ->
              exists w s', c :: s = w ++ s' /\ forallb p w = true /\
                n <= length w /\ k (i + length w) s' = Some x /\
                forall w2 s2, c :: s = w2 ++ s2 -> forallb p w2 = true ->
                              length w < length w2 ->
                              k (i + length w2) s2 = None).
    { intros Hs Hnone. destruct (Nat.eqb_spec n 0); [|discriminate].
      exists [], (c :: s). simpl. rewrite Nat.add_0_r.
      repeat split; auto. lia. }
    destruct (p c) eqn:Hpc.
    + destruct (rep_greedy p k (pred n) (S i) s) as [y|] eqn:Hrec.
      * injection H as ->.
        destruct (IH _ _ _ Hrec) as (w & s' & -> & Hw & Hn & Hk & Hmax).
        exists (c :: w), s'. simpl. rewrite Hpc, Hw.
        replace (i + S (length w)) with (S i + length w) by lia.
        repeat split; auto; [lia|].
        intros w2 s2 E2 Hw2 L. destruct w2 as [|c2 w2]; [simpl in L; lia|].
        simpl in E2. injection E2 as <- E2. simpl in Hw2, L.
        apply andb_prop in Hw2. destruct Hw2 as [_ Hw2].
        replace (i + length (c :: w2)) with (S i + length w2)
          by (simpl; lia).
        apply Hmax; auto. lia.
      * apply Hstop; [exact H|].
        intros w2 s2 E2 Hw2 L. destruct w2 as [|c2 w2]; [simpl in L; lia|].
        simpl in E2. injection E2 as <- E2. simpl in Hw2.
        apply andb_prop in Hw2. destruct Hw2 as [_ Hw2].
        destruct (k (i + length (c :: w2)) s2) eqn:Hk; [|reflexivity].
        exfalso. destruct (Nat.eqb_spec n 0); [|discriminate]. subst n.
        apply (rep_greedy_complete p k w2 s2 0 (S i)); auto; [lia| |].
        -- replace (S i + length w2) with (i + length (c :: w2))
             by (simpl; lia). rewrite Hk. discriminate.
        -- rewrite <- E2. exact Hrec.
    + apply Hstop; [exact H|].
      intros w2 s2 E2 Hw2 L. destruct w2 as [|c2 w2]; [simpl in L; lia|].
      simpl in E2. injection E2 as <- E2. simpl in Hw2.
      rewrite Hpc in Hw2. discriminate.
Qed.
End GreedyMax.

(** Whatever the matcher finds is a match of the pattern. *)
Lemma run_sound : forall r R st (k : mstate -> option R) x,
  run r st k = Some x ->
  exists st', den r st st' /\ k st' = Some x.
Proof.
  induction r as [| | |p|a IHa b IHb|a IHa b IHb|n p|n p|a IHa|a IHa];
    intros R st k x H; simpl in H.
  - exists st. simpl. auto.
  - destruct (Nat.eqb_spec (pos st) 0); [|discriminate].
    exists st. simpl. auto.
  - destruct (rest st) as [|c [|c' s]] eqn:Hs; try discriminate.
    + exists st. simpl. rewrite Hs. auto.
    + destruct (chr_is "010" c) eqn:Hc; [|discriminate].
      apply Ascii.eqb_eq in Hc. subst c.
      exists st. simpl. rewrite Hs. auto.
  - destruct (rest st) as [|c s] eqn:Hs; [discriminate|].
    destruct (p c) eqn:Hc; [|discriminate].
    eexists. split; [|exact H]. simpl. exists c, s. auto.
  - apply IHa in H. destruct H as (st1 & Ha & H).
    apply IHb in H. destruct H as (st2 & Hb & H).
    exists st2. split; [|exact H]. simpl. eauto.
  - destruct (run a st k) as [y|] eqn:Hra.
    + injection H as ->. apply IHa in Hra. destruct Hra as (st' & Ha & Hk).
      exists st'. simpl. auto.
    + apply IHb in H. destruct H as (st' & Hb & Hk).
      exists st'. simpl. auto.
  - apply rep_greedy_sound in H. destruct H as (w & s' & Hs & Hw & Hn & Hk).
    eexists. split; [|exact Hk]. simpl. exists w, s'. auto.
  - apply rep_lazy_sound in H. destruct H as (w & s' & Hs & Hw & Hn & Hk).
    eexists. split; [|exact Hk]. simpl. exists w, s'. auto.
  - apply IHa in H. destruct H as (st1 & Ha & Hk).
    eexists. split; [|exact Hk]. simpl. eauto.
  - destruct (run a st (fun st1 => Some st1)) as [st1|] eqn:Hra; [|discriminate].
    apply IHa in Hra. destruct Hra as (st' & Ha & _).
    exists st. split; [|exact H]. simpl. eauto.
Qed.

(** Wherever the pattern has a match after which the continuation
    succeeds, the matcher succeeds. *)
Lemma run_complete : forall r R st st' (k : mstate -> option R),
  den r st st' -> k st' <> None -> run r st k <> None.
Proof.
  induction r as [| | |p|a IHa b IHb|a IHa b IHb|n p|n p|a IHa|a IHa];
    intros R st st' k D Hk; simpl in D |- *.
  - subst. exact Hk.
  - destruct D as [D ->]. rewrite D. exact Hk.
  - destruct D as [[D|D] ->]; rewrite D; auto.
  - destruct D as (c & s & Hs & Hc & ->). rewrite Hs, Hc. exact Hk.
  - destruct D as (st1 & Da & Db). eapply IHa; eauto.
  - destruct D as [D|D].
    + pose proof (IHa _ _ _ k D Hk) as Ha.
      destruct (run a st k); [discriminate|contradiction].
    + destruct (run a st k); [discriminate|]. eapply IHb; eauto.
  - destruct D as (w & s & Hs & Hw & Hn & ->). rewrite Hs.
    apply rep_greedy_complete; auto.
  - destruct D as (w & s & Hs & Hw & Hn & ->). rewrite Hs.
    apply rep_lazy_complete; auto.
  - destruct D as (st1 & Da & ->). eapply IHa; eauto.
  - destruct D as [(st1 & Da) ->].
    assert (Ha : run a st (fun st1 => Some st1) <> None).
    { eapply IHa; eauto. discriminate. }
    destruct (run a st (fun st1 => Some st1)); [exact Hk|contradiction].
Qed.

(** A match consumes a prefix of what is left and advances the
    position by its length. *)
Lemma den_consumes : forall r st st',
  den r st st' ->
  exists w, rest st = w ++ rest st' /\ pos st' = pos st + length w.
Proof.
  induction r as [| | |p|a IHa b IHb|a IHa b IHb|n p|n p|a IHa|a IHa];
    intros st st' D; simpl in D.
  - subst. exists []. simpl. auto.
  - destruct D as [_ ->]. exists []. simpl. auto.
  - destruct D as [_ ->]. exists []. simpl. auto.
  - destruct D as (c & s & Hs & _ & ->). exists [c]. simpl.
    split; [exact Hs|lia].
  - destruct D as (st1 & Da & Db).
    destruct (IHa _ _ Da) as (w1 & H1 & P1).
    destruct (IHb _ _ Db) as (w2 & H2 & P2).
    exists (w1 ++ w2). rewrite <- app_assoc, <- H2, length_app.
    split; [exact H1|lia].
  - destruct D as [D|D]; eauto.
  - destruct D as (w & s & Hs & _ & _ & ->). exists w. simpl. auto.
  - destruct D as (w & s & Hs & _ & _ & ->). exists w. simpl. auto.
  - destruct D as (st1 & Da & ->). simpl. eauto.
  - destruct D as [_ ->]. exists []. simpl. auto.
Qed.

Lemma firstn_app_exact : forall (w s : str) i,
  firstn (i + length w - i) (w ++ s) = w.
Proof.
  intros. replace (i + length w - i) with (length w + 0) by lia.
  rewrite firstn_app_2. simpl. apply app_nil_r.
Qed.

(** A match found at an offset: the text it covers, where it ends and
    what its group holds. *)
Lemma match_at_sound : forall r i s m,
  match_at r i s = Some m ->
  exists w s',
    s = w ++ s' /\
    den r (MState i (w ++ s') None) (MState (i + length w) s' (m_group m)) /\
    m_start m = i /\ m_end m = i + length w /\ m_text m = w.
Proof.
  intros r i s m H. unfold match_at in H.
  apply run_sound in H. destruct H as (st' & D & H).
  injection H as <-. simpl.
  destruct (den_consumes _ _ _ D) as (w & Hs & Hp). simpl in Hs, Hp.
  exists w, (rest st'). rewrite Hp. subst s.
  rewrite firstn_app_exact.
  repeat split; auto.
  destruct st' as [p' r' g']. simpl in *. subst p'. exact D.
Qed.

Lemma match_at_complete : forall r i s st',
  den r (MState i s None) st' -> match_at r i s <> None.
Proof.
  intros r i s st' D. unfold match_at.
  eapply run_complete; eauto. discriminate.
Qed.

(** [re.search] returns the match found at the leftmost offset that
    has one. *)
Lemma search_from_sound : forall r s i m,
  search_from r i s = Some m ->
  exists pre suf,
    s = pre ++ suf /\
    match_at r (i + length pre) suf = Some m /\
    forall pre' suf', s = pre' ++ suf' -> length pre' < length pre ->
                      match_at r (i + length pre') suf' = None.
Proof.
  intros r. induction s as [|c s IH]; intros i m H; simpl in H.
  - destruct (match_at r i []) as [m'|] eqn:Hm; [|discriminate].
    injection H as ->. exists [], []. simpl. rewrite Nat.add_0_r.
    repeat split; auto. intros; lia.
  - destruct (match_at r i (c :: s)) as [m'|] eqn:Hm.
    + injection H as ->. exists [], (c :: s). simpl. rewrite Nat.add_0_r.
      repeat split; auto. intros; lia.
    + apply IH in H. destruct H as (pre & suf & -> & Hat & Hmin).
      exists (c :: pre), suf. simpl.
      replace (i + S (length pre)) with (S i + length pre) by lia.
      repeat split; auto.
      intros pre' suf' E L. destruct pre' as [|c' pre'].
      * simpl in E. subst suf'. simpl. rewrite Nat.add_0_r. exact Hm.
      * simpl in E. injection E as <- E. simpl in L.
        simpl length.
        replace (i + S (length pre')) with (S i + length pre') by lia.
        apply Hmin; [exact E|lia].
Qed.

Lemma search_from_none : forall r s i,
  search_from r i s = None ->
  forall pre suf, s = pre ++ suf -> match_at r (i + length pre) suf = None.
Proof.
  intros r. induction s as [|c s IH]; intros i H pre suf E; simpl in H.
  - destruct pre; [|discriminate]. simpl in E. subst suf.
    simpl. rewrite Nat.add_0_r.
    destruct (match_at r i []); [discriminate|reflexivity].
  - destruct (match_at r i (c :: s)) as [m'|] eqn:Hm; [discriminate|].
    destruct pre as [|c' pre].
    + simpl in E. subst suf. simpl. rewrite Nat.add_0_r. exact Hm.
    + simpl in E. injection E as <- E.
      simpl length.
      replace (i + S (length pre)) with (S i + length pre) by lia.
      eapply IH; eauto.
Qed.

Lemma search_from_complete : forall r pre suf i,
  match_at r (i + length pre) suf <> None ->
  search_from r i (pre ++ suf) <> None.
Proof.
  intros r pre suf i H Hn.
  eapply search_from_none in Hn; [|reflexivity]. contradiction.
Qed.

(** The same three facts for [re.search], in terms of the language. *)
Lemma search_sound : forall r s m,
  search r s = Some m ->
  exists pre w post,
    s = pre ++ w ++ post /\
    den r (MState (length pre) (w ++ post) None)
          (MState (length pre + length w) post (m_group m)) /\
    m_start m = length pre /\ m_end m = length pre + length w /\
    m_text m = w /\
    forall pre' suf' st', s = pre' ++ suf' -> length pre' < length pre ->
      ~ den r (MState (length pre') suf' None) st'.
Proof.
  intros r s m H. unfold search in H.
  apply search_from_sound in H. destruct H as (pre & suf & -> & Hat & Hmin).
  simpl in Hat. apply match_at_sound in Hat.
  destruct Hat as (w & post & -> & D & Hs & He & Ht).
  exists pre, w, post. repeat split; auto.
  intros pre' suf' st' E L D'.
  apply match_at_complete in D'. apply D'.
  apply (Hmin pre' suf' E L).
Qed.

Lemma search_none : forall r s,
  search r s = None ->
  forall pre suf st', s = pre ++ suf ->
    ~ den r (MState (length pre) suf None) st'.
Proof.
  intros r s H pre suf st' E D.
  apply match_at_complete in D. apply D.
  apply (search_from_none r s 0 H pre suf E).
Qed.

Lemma search_complete : forall r pre suf st',
  den r (MState (length pre) suf None) st' ->
  search r (pre ++ suf) <> None.
Proof.
  intros r pre suf st' D. unfold search.
  apply search_from_complete. simpl.
  eapply match_at_complete; eauto.
Qed.

(** ** Characters *)

Ltac ascii_cases x := destruct x as [[|] [|] [|] [|] [|] [|] [|] [|]].

Lemma chr_is_true : forall a c, chr_is a c = true <-> c = a.
Proof. intros. unfold chr_is, chr_eqb. apply Ascii.eqb_eq. Qed.

Lemma lower_c : forall x, lower_chr x = "c" -> x = "c" \/ x = "C".
Proof. intros x. ascii_cases x; vm_compute; intros H; auto; discriminate. Qed.

Lemma lower_o : forall x, lower_chr x = "o" -> x = "o" \/ x = "O".
Proof. intros x. ascii_cases x; vm_compute; intros H; auto; discriminate. Qed.

Lemma domain_chr_not_space : forall c,
  is_domain_chr c = true -> is_space c = false.
Proof. intros c. ascii_cases c; vm_compute; intros H; auto; discriminate. Qed.

(** ** The last character *)

Lemma last_chr_cons : forall c s,
  last_chr (c :: s) =
  match last_chr s with Some z => Some z | None => Some c end.
Proof.
  intros c s. unfold last_chr. simpl.
  destruct (rev s) as [|z r]; reflexivity.
Qed.

Lemma last_chr_app : forall a b,
  last_chr (a ++ b) =
  match last_chr b with Some z => Some z | None => last_chr a end.
Proof.
  intros a b. unfold last_chr. rewrite rev_app_distr.
  destruct (rev b) as [|z r]; reflexivity.
Qed.

Lemma last_chr_nil : last_chr [] = None.
Proof. reflexivity. Qed.

Lemma last_chr_none : forall s, last_chr s = None -> s = [].
Proof.
  intros s H. unfold last_chr in H.
  destruct (rev s) eqn:E; [|discriminate].
  apply (f_equal (@rev ascii)) in E. rewrite rev_involutive in E. exact E.
Qed.

Ltac last_simp :=
  repeat (rewrite ?last_chr_app, ?last_chr_cons, ?last_chr_nil; cbn iota).

(** ** The patterns of the email processor *)

(** Take apart a hypothesis that a concrete pattern matches. *)
Ltac den_break :=
  repeat first
    [ match goal with
      | H : exists _, _ |- _ => destruct H as [? H]
      | H : _ /\ _ |- _ => destruct H as [? H]
      | H : ?x = MState _ _ _ |- _ => is_var x; subst x
      | H : chr_is _ _ = true |- _ => apply chr_is_true in H
      | H : chr_eqb _ _ = true |- _ => apply Ascii.eqb_eq in H
      end
    | progress cbn [pos rest grp] in * ];
  subst.

Lemma length_pos_nonnil : forall (w : str), 1 <= length w -> w <> [].
Proof. intros [|c w] H; [simpl in H; lia|discriminate]. Qed.

Lemma nonnil_length_pos : forall (w : str), w <> [] -> 1 <= length w.
Proof. intros [|c w] H; [contradiction|simpl; lia]. Qed.

(** Build a match of a concrete pattern on a subject given in parts. *)
Ltac den_intro :=
  repeat first
    [ progress cbn [den pos rest grp Cat Lit LitI Plus Star Times]
    | match goal with
      | |- exists _, _ => eexists
      | |- _ /\ _ => split
      | |- chr_eqb _ _ = true =>
          apply Ascii.eqb_eq; first [assumption | reflexivity]
      | |- chr_is _ _ = true => reflexivity
      | |- 1 <= length _ => apply nonnil_length_pos; assumption
      | |- _ = _ => first [reflexivity | assumption]
      end ].

Lemma padrao1_den : forall i s st',
  den PADRAO_1 (MState i s None) st' ->
  exists d x y tail,
    s = "@" :: d ++ "." :: x :: y :: tail /\
    d <> [] /\ forallb is_domain_chr d = true /\
    lower_chr x = "c" /\ lower_chr y = "o" /\
    (tail = [] \/ tail = ["010"]).
Proof.
  intros i s st' D. cbn [PADRAO_1 Cat den Lit LitI Plus] in D.
  den_break.
  do 4 eexists. repeat split; eauto using length_pos_nonnil.
Qed.

Lemma padrao1_den_intro : forall i d x y,
  d <> [] -> forallb is_domain_chr d = true ->
  lower_chr x = "c" -> lower_chr y = "o" ->
  exists st', den PADRAO_1 (MState i ("@" :: d ++ ["."; x; y]) None) st'.
Proof.
  intros i d x y Hd Hf Hx Hy. cbn [PADRAO_1 Cat Lit LitI Plus].
  den_intro. left. reflexivity.
Qed.

Lemma padrao2_den : forall i s j s' g,
  den PADRAO_2 (MState i s None) (MState j s' g) ->
  exists d suf tail,
    s = "@" :: d ++ "." :: suf ++ tail /\
    d <> [] /\ forallb is_domain_chr d = true /\
    (suf = [] \/ exists x, suf = [x] /\ lower_chr x = "c") /\
    (tail = [] \/ tail = ["010"]) /\
    g = Some d.
Proof.
  intros i s j s' g D. cbn [PADRAO_2 Cat den Lit LitI Plus] in D.
  den_break.
  match goal with H : _ \/ _ |- _ => destruct H as [H|H] end; den_break.
  - match goal with H : MState _ _ _ = MState _ _ _ |- _ =>
      injection H as ? ? ? end; subst.
    eexists _, [_], _. cbn [app].
    rewrite firstn_app_exact.
    repeat split; eauto using length_pos_nonnil.
  - match goal with H : MState _ _ _ = MState _ _ _ |- _ =>
      injection H as ? ? ? end; subst.
    eexists _, [], _. cbn [app].
    rewrite firstn_app_exact.
    repeat split; eauto using length_pos_nonnil.
Qed.

Lemma padrao2_den_intro : forall i d suf,
  d <> [] -> forallb is_domain_chr d = true ->
  (suf = [] \/ exists x, suf = [x] /\ lower_chr x = "c") ->
  exists st', den PADRAO_2 (MState i ("@" :: d ++ "." :: suf) None) st'.
Proof.
  intros i d suf Hd Hf [->|(x & -> & Hx)]; cbn [PADRAO_2 Cat Lit LitI Plus].
  - eexists. cbn [den]. eexists. split; [den_intro|].
    eexists. split; [den_intro|].
    eexists. split; [den_intro|].
    eexists. split; [right; cbn [den]; reflexivity|].
    den_intro. left. reflexivity.
  - eexists. cbn [den]. eexists. split; [den_intro|].
    eexists. split; [den_intro|].
    eexists. split; [den_intro|].
    eexists. split; [left; den_intro|].
    den_intro. left. reflexivity.
Qed.

(** ** Trimming *)

Lemma lstrip_idem : forall s, lstrip (lstrip s) = lstrip s.
Proof.
  induction s as [|c s IH]; simpl; auto.
  destruct (is_space c) eqn:E; auto. simpl. rewrite E. reflexivity.
Qed.

Lemma lstrip_head : forall s,
  match lstrip s with c :: _ => is_space c = false | [] => True end.
Proof.
  induction s as [|c s IH]; simpl; auto.
  destruct (is_space c) eqn:E; auto.
Qed.

Lemma lstrip_fix : forall c s, is_space c = false -> lstrip (c :: s) = c :: s.
Proof. intros c s H. simpl. rewrite H. reflexivity. Qed.

(** Stripping on the left keeps the last character of what is left. *)
Lemma lstrip_app_keep : forall s x,
  is_space x = false -> exists u, lstrip (s ++ [x]) = u ++ [x].
Proof.
  induction s as [|c s IH]; intros x Hx; simpl.
  - rewrite Hx. exists []. reflexivity.
  - destruct (is_space c); [apply IH; exact Hx|].
    exists (c :: s). reflexivity.
Qed.

Lemma strip_trimmed : forall s, trimmed (strip s).
Proof.
  intros s. unfold trimmed, strip, rstrip, last_chr.
  rewrite rev_involutive. split.
  - pose proof (lstrip_head s) as Hh.
    destruct (lstrip s) as [|x t] eqn:E; [exact I|].
    replace (rev (x :: t)) with (rev t ++ [x]) by reflexivity.
    destruct (lstrip_app_keep (rev t) x Hh) as (u & ->).
    rewrite rev_app_distr. simpl. exact Hh.
  - pose proof (lstrip_head (rev (lstrip s))) as Hh.
    destruct (lstrip (rev (lstrip s))); exact Hh.
Qed.

Lemma trimmed_strip : forall s, trimmed s -> strip s = s.
Proof.
  intros s [Hh Hl]. unfold strip, rstrip.
  assert (E : lstrip s = s).
  { destruct s as [|c t]; [reflexivity|]. apply lstrip_fix. exact Hh. }
  rewrite E. unfold last_chr in Hl.
  destruct (rev s) as [|c t] eqn:Er.
  - simpl. apply (f_equal (@rev ascii)) in Er.
    rewrite rev_involutive in Er. rewrite Er. reflexivity.
  - rewrite (lstrip_fix _ _ Hl). rewrite <- Er. apply rev_involutive.
Qed.

Lemma remove_spaces_idem : forall s,
  remove_spaces (remove_spaces s) = remove_spaces s.
Proof.
  intros s. unfold remove_spaces.
  induction s as [|c s IH]; simpl; auto.
  destruct (negb (chr_is " " c)) eqn:E; simpl; rewrite ?E, IH; reflexivity.
Qed.

Lemma not_space_kept : forall c,
  is_space c = false -> negb (chr_is " " c) = true.
Proof. intros c. ascii_cases c; vm_compute; intros H; auto; discriminate. Qed.

Lemma remove_spaces_trimmed : forall s,
  trimmed s -> trimmed (remove_spaces s).
Proof.
  intros s [Hh Hl]. unfold trimmed, remove_spaces, last_chr in *.
  rewrite <- filter_rev. split.
  - destruct s as [|c t]; [exact I|]. simpl.
    rewrite (not_space_kept _ Hh). exact Hh.
  - destruct (rev s) as [|c t]; [exact I|]. simpl.
    rewrite (not_space_kept _ Hl). exact Hl.
Qed.

Lemma remove_spaces_nonnil : forall s,
  trimmed s -> s <> [] -> remove_spaces s <> [].
Proof.
  intros [|c t] [Hh _] Hne; [contradiction|].
  unfold remove_spaces. simpl. rewrite (not_space_kept _ Hh). discriminate.
Qed.

Lemma normalizado_normal : forall email,
  strip email <> [] -> normal (normalizado email).
Proof.
  intros email Hne. unfold normal, normalizado.
  pose proof (strip_trimmed email) as Ht.
  split; [apply remove_spaces_nonnil; assumption|].
  split; [apply remove_spaces_trimmed; assumption|].
  apply remove_spaces_idem.
Qed.

Lemma normal_fix : forall o,
  normal o -> strip o = o /\ normalizado o = o.
Proof.
  intros o (Hne & Ht & Hr). unfold normalizado.
  rewrite (trimmed_strip _ Ht). auto.
Qed.

Lemma normalizado_nonnil : forall email,
  normalizado email <> [] -> strip email <> [].
Proof.
  intros email H E. apply H. unfold normalizado. rewrite E. reflexivity.
Qed.

(** A string in normal form stays in normal form when a suffix without
    blanks replaces its end. *)
Lemma normal_replace_end : forall t u v,
  t <> [] -> normal (t ++ u) -> v <> [] ->
  forallb (fun c => negb (is_space c)) v = true ->
  normal (t ++ v).
Proof.
  intros t u v Ht (Hne & [Hh Hl] & Hr) Hv Hall.
  assert (Hrv : remove_spaces v = v).
  { unfold remove_spaces. clear Hv. induction v as [|c v IH]; auto.
    simpl in Hall. apply andb_prop in Hall. destruct Hall as [Hc Hall].
    simpl. rewrite negb_true_iff in Hc. rewrite (not_space_kept _ Hc).
    rewrite IH; auto. }
  assert (Hrt : remove_spaces t = t).
  { unfold remove_spaces in *. rewrite filter_app in Hr.
    assert (L : length (filter (fun c => negb (chr_is " " c)) t) = length t).
    { pose proof (filter_length_le (fun c => negb (chr_is " " c)) t) as L1.
      pose proof (filter_length_le (fun c => negb (chr_is " " c)) u) as L2.
      apply (f_equal (@length ascii)) in Hr. rewrite !length_app in Hr. lia. }
    apply filter_length_forallb in L.
    clear - L. induction t as [|c t IH]; auto. simpl in L.
    apply andb_prop in L. destruct L as [Hc L]. simpl. rewrite Hc, IH; auto. }
  split; [|split].
  - destruct t; [contradiction|discriminate].
  - split.
    + destruct t as [|c t]; [contradiction|]. exact Hh.
    + rewrite last_chr_app.
      destruct (last_chr v) as [z|] eqn:Ez.
      * unfold last_chr in Ez. destruct (rev v) as [|z' r] eqn:Er;
          [discriminate|]. injection Ez as ->.
        assert (Hin : In z v).
        { apply in_rev. rewrite Er. left. reflexivity. }
        rewrite forallb_forall in Hall. apply Hall in Hin.
        apply negb_true_iff in Hin. exact Hin.
      * apply last_chr_none in Ez. contradiction.
  - unfold remove_spaces in *. rewrite filter_app, Hrt, Hrv. reflexivity.
Qed.

(** ** Substrings *)

Lemma starts_with_spec : forall p s,
  starts_with p s = true <-> exists v, s = p ++ v.
Proof.
  induction p as [|x p IH]; intros s; simpl.
  - split; eauto.
  - destruct s as [|y s].
    + split; [discriminate|]. intros (v & E). discriminate.
    + rewrite andb_true_iff, IH. unfold chr_eqb. rewrite Ascii.eqb_eq.
      split.
      * intros (-> & v & ->). eauto.
      * intros (v & E). injection E as -> ->. eauto.
Qed.

Lemma contains_spec : forall a b, contains a b = true <-> is_substring a b.
Proof.
  intros a. unfold is_substring.
  induction b as [|y b IH]; simpl.
  - rewrite orb_false_r, starts_with_spec. split.
    + intros (v & E). exists [], v. exact E.
    + intros (u & v & E). destruct u; [|discriminate]. eauto.
  - rewrite orb_true_iff, IH, starts_with_spec. split.
    + intros [(v & E)|(u & v & E)].
      * exists [], v. exact E.
      * exists (y :: u), v. simpl. rewrite E. reflexivity.
    + intros (u & v & E). destruct u as [|x u].
      * left. eauto.
      * right. injection E as -> E. eauto.
Qed.

Lemma contains_false : forall a b, contains a b = false <-> ~ is_substring a b.
Proof.
  intros a b. rewrite <- contains_spec.
  destruct (contains a b); split; intros; auto; try discriminate.
  exfalso; auto.
Qed.

(** ** The two rules on a string *)

Lemma domain_no_at : forall d,
  forallb is_domain_chr d = true -> ~ In "@" d.
Proof.
  intros d H Hin. rewrite forallb_forall in H. apply H in Hin.
  vm_compute in Hin. discriminate.
Qed.

Lemma lower_c_not : forall x,
  lower_chr x = "c" -> x <> "." /\ x <> "010" /\ x <> "@".
Proof.
  intros x H. destruct (lower_c x H) as [-> | ->];
    repeat split; discriminate.
Qed.

(** A string ends in at most one way in [@<domain>.] or [@<domain>.c]. *)
Lemma shape2_unique : forall pre d suf pre' d' suf' tail',
  pre ++ "@" :: d ++ "." :: suf = pre' ++ "@" :: d' ++ "." :: suf' ++ tail' ->
  forallb is_domain_chr d = true -> forallb is_domain_chr d' = true ->
  sufixo_c suf -> sufixo_c suf' -> tail' = [] \/ tail' = ["010"] ->
  pre = pre' /\ d = d' /\ suf = suf' /\ tail' = [].
Proof.
  intros pre d suf pre' d' suf' tail' E Hd Hd' Hs Hs' Ht.
  apply domain_no_at in Hd, Hd'.
  rewrite in_rev in Hd, Hd'.
  apply (f_equal (@rev ascii)) in E.
  destruct Hs as [->|(x & -> & Hx)]; destruct Hs' as [->|(x' & -> & Hx')];
    destruct Ht as [->| ->];
    try (pose proof (lower_c_not _ Hx) as (? & ? & ?));
    try (pose proof (lower_c_not _ Hx') as (? & ? & ?));
    repeat (rewrite ?rev_app_distr in E; simpl in E);
    rewrite <- ?app_assoc in E; simpl in E.
  all: injection E as E; subst; try congruence.
  all: match goal with
       | H : _ ++ "@" :: _ = _ ++ "@" :: _ |- _ =>
           apply app_inj_pivot in H;
           destruct H as [[[? ?]|[? ?]]|[Era Erb]]; try contradiction;
           apply rev_inj in Era, Erb; subst; auto
       end.
Qed.

Lemma padrao1_search_shape : forall o m,
  search PADRAO_1 o = Some m ->
  exists pre d x y tail,
    o = pre ++ "@" :: d ++ "." :: x :: y :: tail /\
    d <> [] /\ forallb is_domain_chr d = true /\
    lower_chr x = "c" /\ lower_chr y = "o" /\
    (tail = [] \/ tail = ["010"]).
Proof.
  intros o m H. apply search_sound in H.
  destruct H as (pre & w & post & -> & D & _).
  apply padrao1_den in D.
  destruct D as (d & x & y & tail & E & Hd & Hf & Hx & Hy & Ht).
  exists pre, d, x, y, tail. rewrite E. auto 10.
Qed.

Lemma padrao1_search_last : forall o m,
  search PADRAO_1 o = Some m ->
  last_chr o = Some "o" \/ last_chr o = Some "O" \/ last_chr o = Some "010".
Proof.
  intros o m H. apply padrao1_search_shape in H.
  destruct H as (pre & d & x & y & tail & -> & _ & _ & _ & Hy & Ht).
  destruct (lower_o _ Hy) as [-> | ->]; destruct Ht as [-> | ->];
    last_simp; auto.
Qed.

Lemma padrao1_search_intro : forall pre d x y,
  d <> [] -> forallb is_domain_chr d = true ->
  lower_chr x = "c" -> lower_chr y = "o" ->
  search PADRAO_1 (pre ++ "@" :: d ++ ["."; x; y]) <> None.
Proof.
  intros pre d x y Hd Hf Hx Hy.
  destruct (padrao1_den_intro (length pre) d x y Hd Hf Hx Hy) as (st' & D).
  eapply search_complete; eauto.
Qed.

Lemma padrao2_search_shape : forall o m,
  search PADRAO_2 o = Some m ->
  exists pre d suf tail,
    o = pre ++ "@" :: d ++ "." :: suf ++ tail /\
    d <> [] /\ forallb is_domain_chr d = true /\
    sufixo_c suf /\ (tail = [] \/ tail = ["010"]) /\
    m_group m = Some d.
Proof.
  intros o m H. apply search_sound in H.
  destruct H as (pre & w & post & -> & D & _).
  apply padrao2_den in D.
  destruct D as (d & suf & tail & E & Hd & Hf & Hs & Ht & Hg).
  exists pre, d, suf, tail. rewrite E. auto 10.
Qed.

Lemma padrao2_search_last : forall o m,
  search PADRAO_2 o = Some m ->
  last_chr o = Some "." \/ last_chr o = Some "c" \/ last_chr o = Some "C"
  \/ last_chr o = Some "010".
Proof.
  intros o m H. apply padrao2_search_shape in H.
  destruct H as (pre & d & suf & tail & -> & _ & _ & Hs & Ht & _).
  destruct Hs as [->|(x & -> & Hx)]; destruct Ht as [-> | ->];
    try (destruct (lower_c _ Hx) as [-> | ->]);
    last_simp; auto.
Qed.

(** On a string that ends in one of the two malformed ways the second
    pattern is found, and its group is the domain before the last dot. *)
Lemma padrao2_search_group : forall pre d suf,
  d <> [] -> forallb is_domain_chr d = true -> sufixo_c suf ->
  exists m, search PADRAO_2 (pre ++ "@" :: d ++ "." :: suf) = Some m /\
            m_group m = Some d.
Proof.
  intros pre d suf Hd Hf Hs.
  destruct (padrao2_den_intro (length pre) d suf Hd Hf Hs) as (st' & D).
  apply search_complete in D.
  destruct (search PADRAO_2 (pre ++ "@" :: d ++ "." :: suf)) as [m|] eqn:E;
    [|contradiction].
  exists m. split; [reflexivity|].
  apply padrao2_search_shape in E.
  destruct E as (pre' & d' & suf' & tail' & E & Hd' & Hf' & Hs' & Ht' & Hg).
  destruct (shape2_unique _ _ _ _ _ _ _ E Hf Hf' Hs Hs' Ht')
    as (_ & -> & _ & _).
  exact Hg.
Qed.

(** ** Replacing the malformed end *)

Lemma sufixo_den : forall i s j s' g,
  den SUFIXO (MState i s None) (MState j s' g) ->
  exists suf, s = "." :: suf ++ s' /\ sufixo_c suf /\
              (s' = [] \/ s' = ["010"]).
Proof.
  intros i s j s' g D. cbn [SUFIXO Cat den Lit LitI] in D.
  den_break.
  match goal with H : _ \/ _ |- _ => destruct H as [H|H] end; den_break;
    match goal with H : MState _ _ _ = MState _ _ _ |- _ =>
      injection H as ? ? ? end; subst.
  - eexists [_]. cbn [app]. repeat split; auto. right. eauto.
  - exists []. cbn [app]. repeat split; auto. left. reflexivity.
Qed.

Lemma sufixo_den_intro : forall i suf,
  sufixo_c suf -> exists st', den SUFIXO (MState i ("." :: suf) None) st'.
Proof.
  intros i suf [->|(x & -> & Hx)]; cbn [SUFIXO Cat Lit LitI].
  - eexists. cbn [den]. eexists. split; [den_intro|].
    eexists. split; [right; cbn [den]; reflexivity|].
    den_intro. left. reflexivity.
  - eexists. cbn [den]. eexists. split; [den_intro|].
    eexists. split; [left; den_intro|].
    den_intro. left. reflexivity.
Qed.

(** The end pattern matches nowhere before the last dot. *)
Lemma match_at_sufixo_none : forall i c t suf,
  sufixo_c suf -> match_at SUFIXO i (c :: t ++ "." :: suf) = None.
Proof.
  intros i c t suf Hs.
  destruct (match_at SUFIXO i (c :: t ++ "." :: suf)) as [m|] eqn:E;
    [|reflexivity].
  exfalso. apply match_at_sound in E.
  destruct E as (w & s' & E & D & _).
  apply sufixo_den in D. destruct D as (suf0 & E0 & Hs0 & Ht).
  rewrite <- E in E0. injection E0 as _ E0.
  assert (L : last_chr (t ++ "." :: suf) = last_chr (suf0 ++ s'))
    by (rewrite E0; reflexivity).
  assert (N : length (t ++ "." :: suf) = length (suf0 ++ s'))
    by (rewrite E0; reflexivity).
  rewrite !length_app in N. simpl in N.
  destruct Hs as [->|(x & -> & Hx)];
    destruct Hs0 as [->|(x0 & -> & Hx0)];
    destruct Ht as [-> | ->];
    try (pose proof (lower_c_not _ Hx) as (? & ? & ?));
    try (pose proof (lower_c_not _ Hx0) as (? & ? & ?));
    revert L; last_simp; simpl in N; intros L;
    try discriminate; try (injection L as L; congruence); try lia.
Qed.

(** At the last dot it matches up to the end of the string. *)
Lemma match_at_sufixo_end : forall i suf,
  sufixo_c suf ->
  exists m, match_at SUFIXO i ("." :: suf) = Some m /\
            m_end m = i + S (length suf).
Proof.
  intros i suf Hs.
  destruct (sufixo_den_intro i suf Hs) as (st' & D).
  apply match_at_complete in D.
  destruct (match_at SUFIXO i ("." :: suf)) as [m|] eqn:E; [|contradiction].
  exists m. split; [reflexivity|].
  apply match_at_sound in E.
  destruct E as (w & s' & E & D' & _ & He & _).
  rewrite He. f_equal.
  apply sufixo_den in D'. destruct D' as (suf0 & E0 & Hs0 & Ht).
  change ("." :: suf0 ++ s') with (("." :: suf0) ++ s') in E0.
  apply app_inv_tail in E0. subst w.
  simpl in E. injection E as E. simpl. f_equal.
  destruct Ht as [-> | ->].
  - rewrite app_nil_r in E. congruence.
  - exfalso.
    destruct Hs as [->|(x & -> & Hx)];
      destruct Hs0 as [->|(x0 & -> & Hx0)];
      try discriminate.
    injection E as ->. vm_compute in Hx. discriminate.
Qed.

Lemma sub_from_sufixo : forall ext t suf i,
  sufixo_c suf ->
  sub_from SUFIXO ext i 0 (t ++ "." :: suf) = t ++ ext.
Proof.
  intros ext t suf i Hs. revert i.
  induction t as [|c t IH]; intros i.
  - destruct (match_at_sufixo_end i suf Hs) as (m & Hm & He).
    cbn [app sub_from]. rewrite Hm, He.
    replace (i + S (length suf) - i) with (S (length suf)) by lia.
    destruct Hs as [->|(x & -> & Hx)];
      cbn; rewrite ?app_nil_r; reflexivity.
  - cbn [app sub_from]. rewrite match_at_sufixo_none by assumption.
    f_equal. apply IH.
Qed.

Lemma sub_sufixo : forall ext t suf,
  sufixo_c suf -> Re.sub SUFIXO ext (t ++ "." :: suf) = t ++ ext.
Proof. intros. unfold Re.sub. apply sub_from_sufixo. assumption. Qed.

(** ** The loop over the known domains *)

Lemma known_domain_loop_spec : forall items dp o,
  (forall r e, In (r, e) items -> e <> []) ->
  (exists before root ext exts after,
     items = before ++ (root, ext :: exts) :: after /\
     contains root dp = true /\
     (forall r e, In (r, e) before -> contains r dp = false) /\
     known_domain_loop items dp o = Ok (Re.sub SUFIXO ext o, true))
  \/ ((forall r e, In (r, e) items -> contains r dp = false) /\
      known_domain_loop items dp o = Ok (o, false)).
Proof.
  induction items as [|[root exts] items IH]; intros dp o Hne.
  - right. split; [intros r e []|reflexivity].
  - cbn [known_domain_loop]. destruct (contains root dp) eqn:Hc.
    + left. destruct exts as [|ext exts].
      * exfalso. apply (Hne root []); [left; reflexivity|reflexivity].
      * exists [], root, ext, exts, items.
        split; [reflexivity|]. split; [exact Hc|].
        split; [intros r e []|reflexivity].
    + assert (Hne' : forall r e, In (r, e) items -> e <> []).
      { intros r e Hin. apply (Hne r e). right. exact Hin. }
      destruct (IH dp o Hne') as
        [(before & root' & ext & exts' & after & E & Hc' & Hb & Hk)|[Hall Hk]].
      * left. exists ((root, exts) :: before), root', ext, exts', after.
        split; [rewrite E; reflexivity|]. split; [exact Hc'|].
        split; [|exact Hk].
        intros r e [Heq|Hin]; [injection Heq as <- <-; exact Hc|eauto].
      * right. split; [|exact Hk].
        intros r e [Heq|Hin]; [injection Heq as <- <-; exact Hc|eauto].
Qed.

Lemma dominios_extensions : forall r e,
  In (r, e) DOMINIOS_CONHECIDOS -> e <> [].
Proof.
  intros r e Hin. simpl in Hin.
  repeat (destruct Hin as [Hin|Hin];
          [injection Hin as <- <-; discriminate|]).
  contradiction.
Qed.

(** ** [correct_email] by cases *)

Lemma correct_email_nonstr : forall self v,
  isinstance_str v = false ->
  correct_email self v = Ok (([], false), self).
Proof. intros self v H. unfold correct_email. rewrite H. reflexivity. Qed.

Lemma correct_email_blank : forall self email,
  strip email = [] ->
  correct_email self (PStr email) = Ok (([], false), self).
Proof.
  intros self email H. unfold correct_email. cbn [isinstance_str negb attr_strip bind].
  rewrite H. reflexivity.
Qed.

Lemma correct_email_unfold : forall self email,
  strip email <> [] ->
  correct_email self (PStr email) =
  let o := normalizado email in
  match search PADRAO_1 o with
  | Some _ =>
      Ok ((o ++ py "m", true),
          log_append self (Correction o (o ++ py "m")))
  | None =>
      match search PADRAO_2 o with
      | Some m =>
          g <- group1 (Some m) ;;
          ' (c, w) <- known_domain_loop (common_domains self) (lower g) o ;;
          let c' := if w then c else Re.sub SUFIXO (py ".com") c in
          Ok ((c', true), log_append self (Correction o c'))
      | None => Ok ((o, false), self)
      end
  end.
Proof.
  intros self email H. unfold correct_email, normalizado.
  cbn [isinstance_str negb attr_strip bind].
  destruct (strip email) as [|c0 s0] eqn:E; [contradiction|].
  cbn [is_empty].
  destruct (search PADRAO_1 (remove_spaces (c0 :: s0))) as [m1|] eqn:E1;
    [reflexivity|].
  destruct (search PADRAO_2 (remove_spaces (c0 :: s0))) as [m2|] eqn:E2;
    [|reflexivity].
  destruct (group1 (Some m2)) as [g|e]; [|reflexivity].
  cbn [bind].
  destruct (known_domain_loop (common_domains self) (lower g)
              (remove_spaces (c0 :: s0))) as [[c w]|e]; [|reflexivity].
  cbn [bind]. destruct w; reflexivity.
Qed.

Lemma shape_nonnil : forall (pre : str) c s, pre ++ c :: s <> [].
Proof. intros [|x pre] c s; discriminate. Qed.

(** On a string ending in [.co] the first rule applies, whatever the
    table of domains holds. *)
Lemma correct_email_rule1 : forall self email pre d x y,
  normalizado email = pre ++ "@" :: d ++ ["."; x; y] ->
  d <> [] -> forallb is_domain_chr d = true ->
  lower_chr x = "c" -> lower_chr y = "o" ->
  correct_email self (PStr email) =
  Ok ((normalizado email ++ py "m", true),
      log_append self
        (Correction (normalizado email) (normalizado email ++ py "m"))).
Proof.
  intros self email pre d x y E Hd Hf Hx Hy.
  assert (Hne : strip email <> []).
  { apply normalizado_nonnil. rewrite E. apply shape_nonnil. }
  rewrite (correct_email_unfold _ _ Hne). cbv zeta.
  pose proof (padrao1_search_intro pre d x y Hd Hf Hx Hy) as Hs.
  rewrite <- E in Hs.
  destruct (search PADRAO_1 (normalizado email)); [reflexivity|contradiction].
Qed.

Lemma padrao1_none_of_last : forall o z,
  last_chr o = Some z -> z <> "o" -> z <> "O" -> z <> "010" ->
  search PADRAO_1 o = None.
Proof.
  intros o z L H1 H2 H3.
  destruct (search PADRAO_1 o) as [m|] eqn:E; [|reflexivity].
  apply padrao1_search_last in E. rewrite L in E.
  destruct E as [E|[E|E]]; injection E as E; congruence.
Qed.

Lemma padrao2_none_of_last : forall o z,
  last_chr o = Some z -> z <> "." -> z <> "c" -> z <> "C" -> z <> "010" ->
  search PADRAO_2 o = None.
Proof.
  intros o z L H1 H2 H3 H4.
  destruct (search PADRAO_2 o) as [m|] eqn:E; [|reflexivity].
  apply padrao2_search_last in E. rewrite L in E.
  destruct E as [E|[E|[E|E]]]; injection E as E; congruence.
Qed.

Lemma shape2_last : forall pre d suf,
  sufixo_c suf ->
  exists z, last_chr (pre ++ "@" :: d ++ "." :: suf) = Some z /\
            (z = "." \/ z = "c" \/ z = "C").
Proof.
  intros pre d suf [->|(x & -> & Hx)].
  - exists ".". last_simp. auto.
  - exists x. last_simp. split; [reflexivity|].
    destruct (lower_c _ Hx); auto.
Qed.

(** On a string ending in [.c] or in a dot the second rule applies and
    puts the extension of the table in place of that end. *)
Lemma correct_email_rule2 : forall log email pre d suf,
  normalizado email = pre ++ "@" :: d ++ "." :: suf ->
  d <> [] -> forallb is_domain_chr d = true -> sufixo_c suf ->
  exists ext,
    extensao_esperada d ext /\
    correct_email (MkEmailProcessor DOMINIOS_CONHECIDOS log) (PStr email) =
    Ok ((pre ++ "@" :: d ++ ext, true),
        MkEmailProcessor DOMINIOS_CONHECIDOS
          (log ++ [Correction (normalizado email) (pre ++ "@" :: d ++ ext)])).
Proof.
  intros log email pre d suf E Hd Hf Hs.
  assert (Hne : strip email <> []).
  { apply normalizado_nonnil. rewrite E. apply shape_nonnil. }
  rewrite (correct_email_unfold _ _ Hne). cbv zeta. rewrite E.
  destruct (shape2_last pre d suf Hs) as (z & Hz & Hzc).
  rewrite (padrao1_none_of_last _ z Hz)
    by (destruct Hzc as [->|[->| ->]]; discriminate).
  destruct (padrao2_search_group pre d suf Hd Hf Hs) as (m & Hm & Hg).
  rewrite Hm. unfold group1. rewrite Hg. cbn [bind common_domains].
  assert (Hsub : forall ext,
            Re.sub SUFIXO ext (pre ++ "@" :: d ++ "." :: suf)
            = pre ++ "@" :: d ++ ext).
  { intros ext.
    replace (pre ++ "@" :: d ++ "." :: suf)
      with ((pre ++ "@" :: d) ++ "." :: suf)
      by (rewrite <- app_assoc; reflexivity).
    rewrite (sub_sufixo _ _ _ Hs), <- app_assoc. reflexivity. }
  destruct (known_domain_loop_spec DOMINIOS_CONHECIDOS (lower d)
              (pre ++ "@" :: d ++ "." :: suf) dominios_extensions)
    as [(before & root & ext & exts & after & Et & Hc & Hb & Hk)|[Hall Hk]];
    rewrite Hk; cbn [bind].
  - exists ext. rewrite Hsub. split; [|reflexivity].
    left. exists before, root, exts, after.
    split; [exact Et|]. split; [apply contains_spec; exact Hc|].
    intros r e Hin. apply contains_false. eauto.
  - exists (py ".com"). rewrite Hsub. split; [|reflexivity].
    right. split; [|reflexivity].
    intros r e Hin. apply contains_false. eauto.
Qed.

Lemma correct_email_fixed : forall self c,
  normal c -> search PADRAO_1 c = None -> search PADRAO_2 c = None ->
  correct_email self (PStr c) = Ok ((c, false), self).
Proof.
  intros self c Hn H1 H2.
  destruct (normal_fix _ Hn) as [Hs Ho].
  assert (Hne : strip c <> []).
  { rewrite Hs. destruct Hn as [Hne _]. exact Hne. }
  rewrite (correct_email_unfold _ _ Hne). cbv zeta.
  rewrite Ho, H1, H2. reflexivity.
Qed.

Lemma extensao_esperada_values : forall d ext,
  extensao_esperada d ext -> ext = py ".com" \/ ext = py ".pt".
Proof.
  intros d ext [(before & root & exts & after & E & _)|[_ ->]]; [|auto].
  assert (Hin : In (root, ext :: exts) DOMINIOS_CONHECIDOS).
  { rewrite E. apply in_or_app. right. left. reflexivity. }
  simpl in Hin.
  repeat (destruct Hin as [Hin|Hin]; [injection Hin as _ <- _; auto|]).
  contradiction.
Qed.

Lemma first_match_unique : forall (A : Type) (P : A -> Prop)
    (b1 b2 a1 a2 : list A) (x1 x2 : A),
  b1 ++ x1 :: a1 = b2 ++ x2 :: a2 ->
  P x1 -> P x2 ->
  (forall y, In y b1 -> ~ P y) -> (forall y, In y b2 -> ~ P y) ->
  x1 = x2.
Proof.
  intros A P. induction b1 as [|y b1 IH]; intros [|y2 b2] a1 a2 x1 x2 E H1 H2 N1 N2;
    simpl in E; injection E as E1 E.
  - exact E1.
  - subst y2. exfalso. apply (N2 x1); [left; reflexivity|exact H1].
  - subst y. exfalso. apply (N1 x2); [left; reflexivity|exact H2].
  - apply (IH b2 a1 a2); auto.
    + intros z Hz. apply N1. right. exact Hz.
    + intros z Hz. apply N2. right. exact Hz.
Qed.

(** The table assigns one extension to a domain. *)
Lemma extensao_esperada_unique : forall d ext ext',
  extensao_esperada d ext -> extensao_esperada d ext' -> ext = ext'.
Proof.
  intros d ext ext'
    [(b1 & r1 & x1 & a1 & E1 & S1 & N1)|[N1 ->]]
    [(b2 & r2 & x2 & a2 & E2 & S2 & N2)|[N2 ->]].
  - rewrite E1 in E2.
    pose proof (first_match_unique _
                  (fun e => is_substring (fst e) (lower d))
                  b1 b2 a1 a2 _ _ E2 S1 S2) as H.
    cbn [fst] in H.
    assert (E : (r1, ext :: x1) = (r2, ext' :: x2)).
    { apply H; intros [r e] Hin; cbn [fst]; eauto. }
    injection E as _ E _. exact E.
  - exfalso. apply (N2 r1 (ext :: x1)); [|exact S1].
    rewrite E1. apply in_or_app. right. left. reflexivity.
  - exfalso. apply (N1 r2 (ext' :: x2)); [|exact S2].
    rewrite E2. apply in_or_app. right. left. reflexivity.
  - reflexivity.
Qed.

(** The group of the second pattern is always set, and the loop over the
    table never indexes an empty list. *)
Lemma correct_email_total : forall log v,
  exists c b entries,
    correct_email (MkEmailProcessor DOMINIOS_CONHECIDOS log) v =
    Ok ((c, b), MkEmailProcessor DOMINIOS_CONHECIDOS (log ++ entries)).
Proof.
  intros log v.
  destruct (isinstance_str v) eqn:Hi.
  2:{ rewrite correct_email_nonstr by assumption.
      exists [], false, []. rewrite app_nil_r. reflexivity. }
  destruct v as [email| |]; try discriminate.
  destruct (strip email) as [|c0 s0] eqn:Es.
  { rewrite correct_email_blank by assumption.
    exists [], false, []. rewrite app_nil_r. reflexivity. }
  assert (Hne : strip email <> []) by (rewrite Es; discriminate).
  rewrite (correct_email_unfold _ _ Hne). cbv zeta.
  destruct (search PADRAO_1 (normalizado email)) as [m1|] eqn:E1.
  { do 3 eexists. reflexivity. }
  destruct (search PADRAO_2 (normalizado email)) as [m2|] eqn:E2.
  2:{ exists (normalizado email), false, []. rewrite app_nil_r. reflexivity. }
  destruct (padrao2_search_shape _ _ E2)
    as (pre & d & suf & tail & _ & _ & _ & _ & _ & Hg).
  unfold group1. rewrite Hg. cbn [bind common_domains].
  destruct (known_domain_loop_spec DOMINIOS_CONHECIDOS (lower d)
              (normalizado email) dominios_extensions)
    as [(before & root & ext & exts & after & Et & Hc & Hb & Hk)|[Hall Hk]];
    rewrite Hk; cbn [bind]; do 3 eexists; reflexivity.
Qed.

(* ------------------------------------------------------------------ *)
(** ** Claims on the email processor *)

(** C1. When the trimmed email with its spaces removed ends, in either
    case, in [@<domain-chars>.c] or in [@<domain-chars>.], the call
    returns that string with the malformed end replaced by the first
    extension of the first entry of the table, in the order of its
    definition, whose root occurs in the captured domain characters
    (compared in lower case), or by [.com] when no root occurs in them,
    and it returns [changed = true]; the correction is logged. *)
Theorem C1_rule_b_table_extension : forall log email pre d suf,
  normalizado email = pre ++ "@" :: d ++ "." :: suf ->
  d <> [] -> forallb is_domain_chr d = true ->
  suf = [] \/ lower suf = py "c" ->
  exists ext,
    extensao_esperada d ext /\
    (forall ext', extensao_esperada d ext' -> ext' = ext) /\
    correct_email (MkEmailProcessor DOMINIOS_CONHECIDOS log) (PStr email) =
    Ok ((pre ++ "@" :: d ++ ext, true),
        MkEmailProcessor DOMINIOS_CONHECIDOS
          (log ++ [Correction (normalizado email) (pre ++ "@" :: d ++ ext)])).
Proof.
  intros log email pre d suf E Hd Hf Hs.
  destruct (correct_email_rule2 log email pre d suf) as (ext & Hext & Hres);
    auto.
  { destruct Hs as [->|Hs]; [left; reflexivity|].
    right. destruct suf as [|x [|y suf]]; try discriminate.
    injection Hs as Hx. eauto. }
  exists ext. split; [exact Hext|]. split; [|exact Hres].
  intros ext' Hext'. apply (extensao_esperada_unique d); assumption.
Qed.

Lemma C1_witness :
  exists ext,
    extensao_esperada (py "x.Hotmail") ext /\
    (forall ext', extensao_esperada (py "x.Hotmail") ext' -> ext' = ext) /\
    correct_email (MkEmailProcessor DOMINIOS_CONHECIDOS [])
      (PStr (py " joao@x.Hot mail.C ")) =
    Ok ((py "joao" ++ "@" :: py "x.Hotmail" ++ ext, true),
        MkEmailProcessor DOMINIOS_CONHECIDOS
          ([] ++ [Correction (normalizado (py " joao@x.Hot mail.C "))
                    (py "joao" ++ "@" :: py "x.Hotmail" ++ ext)])).
Proof.
  apply (C1_rule_b_table_extension [] (py " joao@x.Hot mail.C ")
           (py "joao") (py "x.Hotmail") (py "C")).
  - reflexivity.
  - discriminate.
  - reflexivity.
  - right. reflexivity.
Defined.

(** C2. When the trimmed email with its spaces removed ends, in either
    case, in [@<domain-chars>.co], the call returns that string with one
    [m] appended and [changed = true].  The two rules exclude each
    other: the result is the same whatever the table of domains holds,
    and the pattern of the second rule does not match such a string. *)
Theorem C2_co_appends_m : forall doms log email pre d x y,
  normalizado email = pre ++ "@" :: d ++ ["."; x; y] ->
  d <> [] -> forallb is_domain_chr d = true ->
  lower [x; y] = py "co" ->
  correct_email (MkEmailProcessor doms log) (PStr email) =
    Ok ((normalizado email ++ py "m", true),
        MkEmailProcessor doms
          (log ++ [Correction (normalizado email)
                     (normalizado email ++ py "m")]))
  /\ search PADRAO_2 (normalizado email) = None.
Proof.
  intros doms log email pre d x y E Hd Hf Hxy.
  injection Hxy as Hx Hy. split.
  - apply (correct_email_rule1 (MkEmailProcessor doms log) email pre d x y);
      assumption.
  - apply (padrao2_none_of_last _ y).
    + rewrite E. last_simp. reflexivity.
    + destruct (lower_o _ Hy) as [-> | ->]; discriminate.
    + destruct (lower_o _ Hy) as [-> | ->]; discriminate.
    + destruct (lower_o _ Hy) as [-> | ->]; discriminate.
    + destruct (lower_o _ Hy) as [-> | ->]; discriminate.
Qed.

Lemma C2_witness :
  correct_email (MkEmailProcessor DOMINIOS_CONHECIDOS [])
    (PStr (py " joao@g mail.Co")) =
    Ok ((normalizado (py " joao@g mail.Co") ++ py "m", true),
        MkEmailProcessor DOMINIOS_CONHECIDOS
          ([] ++ [Correction (normalizado (py " joao@g mail.Co"))
                     (normalizado (py " joao@g mail.Co") ++ py "m")]))
  /\ search PADRAO_2 (normalizado (py " joao@g mail.Co")) = None.
Proof.
  apply (C2_co_appends_m DOMINIOS_CONHECIDOS [] (py " joao@g mail.Co")
           (py "joao") (py "gmail") "C" "o").
  - reflexivity.
  - discriminate.
  - reflexivity.
  - reflexivity.
Defined.

Lemma normal_not_newline_end : forall o t,
  normal (t ++ ["010"]) -> o = t ++ ["010"] -> False.
Proof.
  intros o t (_ & [_ Hl] & _) _. revert Hl. last_simp.
  vm_compute. discriminate.
Qed.

(** C9. [correct_email] is idempotent: the string it returns, given to
    it again, comes back unchanged with [changed = false], and nothing
    is logged. *)
Theorem C9_correct_idempotent : forall log log' v c b self',
  correct_email (MkEmailProcessor DOMINIOS_CONHECIDOS log) v
    = Ok ((c, b), self') ->
  correct_email (MkEmailProcessor DOMINIOS_CONHECIDOS log') (PStr c)
    = Ok ((c, false), MkEmailProcessor DOMINIOS_CONHECIDOS log').
Proof.
  intros log log' v c b self' H.
  destruct (isinstance_str v) eqn:Hi.
  2:{ rewrite correct_email_nonstr in H by assumption.
      injection H as <- _ _. apply correct_email_blank. reflexivity. }
  destruct v as [email| |]; try discriminate.
  destruct (strip email) as [|c0 s0] eqn:Es.
  { rewrite correct_email_blank in H by assumption.
    injection H as <- _ _. apply correct_email_blank. reflexivity. }
  assert (Hne : strip email <> []) by (rewrite Es; discriminate).
  pose proof (normalizado_normal email Hne) as Hn.
  pose proof H as H0.
  rewrite (correct_email_unfold _ _ Hne) in H. cbv zeta in H.
  destruct (search PADRAO_1 (normalizado email)) as [m1|] eqn:E1.
  { (* the first rule applied *)
    injection H as <- _ _.
    assert (Hl : last_chr (normalizado email ++ py "m") = Some "m")
      by (unfold py; simpl list_ascii_of_string; last_simp; reflexivity).
    apply correct_email_fixed.
    - apply (normal_replace_end (normalizado email) [] (py "m")).
      + destruct Hn as [Hn _]. exact Hn.
      + rewrite app_nil_r. exact Hn.
      + discriminate.
      + reflexivity.
    - apply (padrao1_none_of_last _ _ Hl); discriminate.
    - apply (padrao2_none_of_last _ _ Hl); discriminate. }
  destruct (search PADRAO_2 (normalizado email)) as [m2|] eqn:E2.
  2:{ (* no rule applied *)
      injection H as <- _ _. apply correct_email_fixed; assumption. }
  (* the second rule applied *)
  clear H.
  destruct (padrao2_search_shape _ _ E2)
    as (pre & d & suf & tail & E & Hd & Hf & Hs & Ht & _).
  assert (tail = []) as ->.
  { destruct Ht as [-> | ->]; [reflexivity|]. exfalso.
    apply (normal_not_newline_end (normalizado email)
             (pre ++ "@" :: d ++ "." :: suf)).
    - rewrite <- app_assoc. simpl. rewrite <- app_assoc in *. simpl.
      rewrite <- E. exact Hn.
    - rewrite E. rewrite <- !app_assoc. simpl. rewrite <- app_assoc.
      reflexivity. }
  rewrite app_nil_r in E.
  destruct (correct_email_rule2 log email pre d suf E Hd Hf Hs)
    as (ext & Hext & Hres).
  rewrite Hres in H0. injection H0 as <- _ _.
  assert (Hn' : normal ((pre ++ "@" :: d) ++ "." :: suf)).
  { rewrite <- app_assoc. simpl. rewrite <- E. exact Hn. }
  replace (pre ++ "@" :: d ++ ext) with ((pre ++ "@" :: d) ++ ext)
    by (rewrite <- app_assoc; reflexivity).
  destruct (extensao_esperada_values _ _ Hext) as [-> | ->].
  - assert (Hl : last_chr ((pre ++ "@" :: d) ++ py ".com") = Some "m")
      by (unfold py; simpl list_ascii_of_string; last_simp; reflexivity).
    apply correct_email_fixed.
    + apply (normal_replace_end _ ("." :: suf)); auto.
      * apply shape_nonnil.
      * discriminate.
    + apply (padrao1_none_of_last _ _ Hl); discriminate.
    + apply (padrao2_none_of_last _ _ Hl); discriminate.
  - assert (Hl : last_chr ((pre ++ "@" :: d) ++ py ".pt") = Some "t")
      by (unfold py; simpl list_ascii_of_string; last_simp; reflexivity).
    apply correct_email_fixed.
    + apply (normal_replace_end _ ("." :: suf)); auto.
      * apply shape_nonnil.
      * discriminate.
    + apply (padrao1_none_of_last _ _ Hl); discriminate.
    + apply (padrao2_none_of_last _ _ Hl); discriminate.
Qed.

Lemma C9_witness :
  correct_email (MkEmailProcessor DOMINIOS_CONHECIDOS [])
    (PStr (py "ana@sapo.pt"))
  = Ok ((py "ana@sapo.pt", false), MkEmailProcessor DOMINIOS_CONHECIDOS []).
Proof.
  apply (C9_correct_idempotent [] [] (PStr (py " ana@sapo.")) (py "ana@sapo.pt")
           true
           (MkEmailProcessor DOMINIOS_CONHECIDOS
              [Correction (py "ana@sapo.") (py "ana@sapo.pt")])).
  vm_compute. reflexivity.
Defined.

(** C10. The pair returned by [correct_email] does not depend on the
    corrections log: from two processors that differ only in their
    logs, the same input yields the same pair (or the same exception),
    and each call only appends to the log of its processor, one entry
    when [changed = true] and none otherwise. *)
Theorem C10_result_independent_of_log : forall doms log1 log2 email,
  match correct_email (MkEmailProcessor doms log1) email with
  | Ok ((c, changed), self1) =>
      exists entries,
        self1 = MkEmailProcessor doms (log1 ++ entries) /\
        length entries = (if changed then 1 else 0) /\
        correct_email (MkEmailProcessor doms log2) email =
        Ok ((c, changed), MkEmailProcessor doms (log2 ++ entries))
  | Raise e => correct_email (MkEmailProcessor doms log2) email = Raise e
  end.
Proof.
  intros doms log1 log2 v.
  destruct (isinstance_str v) eqn:Hi.
  2:{ rewrite !correct_email_nonstr by assumption.
      exists []. rewrite !app_nil_r. auto. }
  destruct v as [email| |]; try discriminate.
  destruct (strip email) as [|c0 s0] eqn:Es.
  { rewrite !correct_email_blank by assumption.
    exists []. rewrite !app_nil_r. auto. }
  assert (Hne : strip email <> []) by (rewrite Es; discriminate).
  rewrite !(correct_email_unfold _ _ Hne). cbv zeta.
  cbn [common_domains].
  destruct (search PADRAO_1 (normalizado email)) as [m1|].
  { eexists [_]. unfold log_append. cbn. auto. }
  destruct (search PADRAO_2 (normalizado email)) as [m2|].
  2:{ exists []. rewrite !app_nil_r. auto. }
  destruct (group1 (Some m2)) as [g|e]; cbn [bind]; [|reflexivity].
  destruct (known_domain_loop doms (lower g) (normalizado email))
    as [[c w]|e]; cbn [bind]; [|reflexivity].
  cbv zeta. eexists [_]. unfold log_append. cbn. auto.
Qed.

(* ------------------------------------------------------------------ *)
(** ** The patterns of the parser *)

Lemma firstn_exact : forall (w s : str) n,
  n = length w -> firstn n (w ++ s) = w.
Proof.
  intros w s n ->. replace (length w) with (length w + 0) by lia.
  rewrite firstn_app_2. simpl. apply app_nil_r.
Qed.

(** The text of a group is what its pattern consumed. *)
Lemma den_grp_text : forall a st st',
  den (Grp a) st st' ->
  exists w g1,
    rest st = w ++ rest st' /\ grp st' = Some w /\
    den a st (MState (pos st') (rest st') g1).
Proof.
  intros a st st' D. cbn [den] in D.
  destruct D as ([p1 r1 g1] & D & ->). cbn [pos rest grp].
  destruct (den_consumes _ _ _ D) as (w & Hw & Hp). cbn [pos rest] in Hw, Hp.
  exists w, g1. rewrite Hw. split; [reflexivity|]. split; [|exact D].
  f_equal. apply firstn_exact. lia.
Qed.

Ltac assoc_eq := repeat (simpl; rewrite <- ?app_assoc); reflexivity.

Lemma re_id_den : forall i s st',
  den RE_ID (MState i s None) st' ->
  exists w, s = w ++ rest st' /\ forma_id w /\ grp st' = Some w.
Proof.
  intros i s st' D. unfold RE_ID in D.
  apply den_grp_text in D. destruct D as (w & g1 & Hw & Hg & D).
  cbn [rest] in Hw.
  cbn [Cat den Lit Plus] in D. den_break.
  match goal with H : MState _ _ _ = MState _ _ _ |- _ =>
    injection H as _ Hr _ end.
  match goal with H : w ++ rest st' = _ |- _ => rename H into E end.
  exists w. split; [reflexivity|]. split; [|exact Hg].
  rewrite Hr in E.
  match type of E with
  | _ = "S" :: ?x :: "." :: ?a ++ "." :: ?b ++ "/" :: ?c ++ ?t =>
      replace ("S" :: x :: "." :: a ++ "." :: b ++ "/" :: c ++ t)
        with (("S" :: x :: "." :: a ++ "." :: b ++ "/" :: c) ++ t) in E
        by assoc_eq;
      apply app_inv_tail in E; subst w;
      exists x, a, b, c
  end.
  repeat split; auto using length_pos_nonnil.
Qed.

Lemma re_id_den_intro : forall i w s,
  forma_id w -> exists st', den RE_ID (MState i (w ++ s) None) st'.
Proof.
  intros i w s (x & a & b & c & -> & Hx & Ha & Hfa & Hb & Hfb & Hc & Hfc).
  replace (("S" :: x :: "." :: a ++ "." :: b ++ "/" :: c) ++ s)
    with ("S" :: x :: "." :: a ++ "." :: b ++ "/" :: c ++ s) by assoc_eq.
  unfold RE_ID. den_intro.
Qed.

Lemma re_email_den : forall i s st',
  den RE_EMAIL (MState i s None) st' ->
  exists w, s = w ++ rest st' /\ forma_email w.
Proof.
  intros i s st' D. cbn [RE_EMAIL Cat den Lit Plus] in D. den_break.
  cbn [rest].
  match goal with
  | |- exists w, ?l ++ "@" :: ?d ++ "." :: ?t ++ ?u = _ /\ _ =>
      exists (l ++ "@" :: d ++ "." :: t); split; [assoc_eq|];
      exists l, d, t
  end.
  repeat split; auto using length_pos_nonnil.
Qed.

Lemma re_email_den_intro : forall i w s,
  forma_email w -> exists st', den RE_EMAIL (MState i (w ++ s) None) st'.
Proof.
  intros i w s (l & d & t & -> & Hl & Hfl & Hd & Hfd & Ht & Hft).
  replace ((l ++ "@" :: d ++ "." :: t) ++ s)
    with (l ++ "@" :: d ++ "." :: t ++ s) by assoc_eq.
  unfold RE_EMAIL. den_intro.
Qed.

(** Searching a pattern whose matches are the texts of a given shape,
    wherever they stand. *)
Section SearchForma.
Variable r : regex.
Variable F : str -> Prop.
Hypothesis r_den : forall i s st',
  den r (MState i s None) st' -> exists w, s = w ++ rest st' /\ F w.
Hypothesis r_intro : forall i w s,
  F w -> exists st', den r (MState i (w ++ s) None) st'.

Lemma search_forma_some : forall s m,
  search r s = Some m ->
  F (m_text m) /\ occurs_at (m_text m) s (m_start m) /\
  m_end m = m_start m + length (m_text m) /\
  forall w n, F w -> occurs_at w s n -> m_start m <= n.
Proof.
  intros s m H. apply search_sound in H.
  destruct H as (pre & w & post & -> & D & Hs & He & Ht & Hmin).
  rewrite Ht, Hs, He. apply r_den in D. cbn [rest] in D.
  destruct D as (w' & E & HF). apply app_inv_tail in E. subst w'.
  split; [exact HF|]. split; [exists pre, post; auto|].
  split; [reflexivity|].
  intros w2 n HF2 (pre2 & post2 & E2 & <-).
  destruct (Nat.le_gt_cases (length pre) (length pre2)) as [L|L]; [exact L|].
  exfalso. destruct (r_intro (length pre2) w2 post2 HF2) as (st' & D2).
  apply (Hmin pre2 (w2 ++ post2) st' E2 L D2).
Qed.

Lemma search_forma_none : forall s,
  search r s = None -> forall w n, F w -> ~ occurs_at w s n.
Proof.
  intros s H w n HF (pre & post & E & <-).
  destruct (r_intro (length pre) w post HF) as (st' & D).
  apply (search_none r s H pre (w ++ post) st' E D).
Qed.

Lemma search_forma_intro : forall s w n,
  F w -> occurs_at w s n -> search r s <> None.
Proof.
  intros s w n HF Ho H. apply (search_forma_none s H w n HF Ho).
Qed.

End SearchForma.

Lemma search_id_group : forall s m,
  search RE_ID s = Some m ->
  m_group m = Some (m_text m) /\ forma_id (m_text m).
Proof.
  intros s m H. apply search_sound in H.
  destruct H as (pre & w & post & -> & D & _ & _ & Ht & _).
  apply re_id_den in D. cbn [rest grp] in D.
  destruct D as (w' & E & HF & Hg). apply app_inv_tail in E. subst w'.
  rewrite Ht. auto.
Qed.

Lemma last_chr_in : forall s z, last_chr s = Some z -> In z s.
Proof.
  intros s z H. unfold last_chr in H.
  destruct (rev s) as [|c r] eqn:E; [discriminate|]. injection H as ->.
  apply in_rev. rewrite E. left. reflexivity.
Qed.

Lemma last_chr_some : forall s, s <> [] -> exists z, last_chr s = Some z.
Proof.
  intros s H. destruct (last_chr s) as [z|] eqn:E; [eauto|].
  apply last_chr_none in E. contradiction.
Qed.

Lemma forma_id_last : forall w,
  forma_id w -> exists z, last_chr w = Some z /\ is_digit z = true.
Proof.
  intros w (x & a & b & c & -> & _ & _ & _ & _ & _ & Hc & Hfc).
  destruct (last_chr_some c Hc) as (z & Hz).
  exists z. split.
  - last_simp. rewrite Hz. reflexivity.
  - apply last_chr_in in Hz. rewrite forallb_forall in Hfc. auto.
Qed.

Lemma re_ano_den : forall i s st',
  den RE_ANO (MState i s None) st' ->
  exists a b,
    s = "/" :: a :: b :: rest st' /\
    is_digit a = true /\ is_digit b = true /\
    (rest st' = [] \/ rest st' = ["010"]) /\
    grp st' = Some [a; b].
Proof.
  intros i s st' D. cbn [RE_ANO Cat den Lit Times] in D. den_break.
  cbn [rest grp].
  do 2 eexists. split; [reflexivity|]. repeat split; auto.
  replace (S (S (S i)) - S i) with 2 by lia. reflexivity.
Qed.

Lemma re_ano_den_intro : forall i a b,
  is_digit a = true -> is_digit b = true ->
  exists st', den RE_ANO (MState i ["/"; a; b] None) st'.
Proof.
  intros i a b Ha Hb. unfold RE_ANO. den_intro. left. reflexivity.
Qed.

Lemma search_ano_some : forall id m,
  search RE_ANO id = Some m ->
  exists pre a b tail,
    id = pre ++ "/" :: a :: b :: tail /\
    is_digit a = true /\ is_digit b = true /\
    (tail = [] \/ tail = ["010"]) /\
    m_group m = Some [a; b].
Proof.
  intros id m H. apply search_sound in H.
  destruct H as (pre & w & post & -> & D & _).
  apply re_ano_den in D. cbn [rest grp] in D.
  destruct D as (a & b & E & Ha & Hb & Ht & Hg).
  exists pre, a, b, post. rewrite E. auto 10.
Qed.

Lemma search_ano_intro : forall pre a b,
  is_digit a = true -> is_digit b = true ->
  search RE_ANO (pre ++ ["/"; a; b]) <> None.
Proof.
  intros pre a b Ha Hb.
  destruct (re_ano_den_intro (length pre) a b Ha Hb) as (st' & D).
  eapply search_complete; eauto.
Qed.

Lemma digit_not_newline : forall z, is_digit z = true -> z <> "010".
Proof. intros z H ->. vm_compute in H. discriminate. Qed.

(** The year pattern on an identifier: it matches exactly when the
    identifier ends in a slash and two digits, and its group holds
    them. *)
Lemma search_ano_on_id : forall id,
  forma_id id ->
  match search RE_ANO id with
  | Some m =>
      exists pre a b,
        id = pre ++ ["/"; a; b] /\ is_digit a = true /\ is_digit b = true /\
        m_group m = Some [a; b]
  | None =>
      forall pre a b,
        id = pre ++ ["/"; a; b] -> is_digit a = true -> is_digit b = true ->
        False
  end.
Proof.
  intros id Hid.
  destruct (search RE_ANO id) as [m|] eqn:E.
  - apply search_ano_some in E.
    destruct E as (pre & a & b & tail & E & Ha & Hb & Ht & Hg).
    destruct Ht as [-> | ->]; [eauto 10|].
    exfalso. destruct (forma_id_last _ Hid) as (z & Hz & Hd).
    rewrite E in Hz. revert Hz. last_simp. intros Hz. injection Hz as <-.
    vm_compute in Hd. discriminate.
  - intros pre a b -> Ha Hb.
    apply (search_ano_intro pre a b Ha Hb). exact E.
Qed.

Lemma int_py_two_digits : forall a b,
  is_digit a = true -> is_digit b = true ->
  int_py [a; b] = Ok (10 * digit_val a + digit_val b)%Z.
Proof.
  intros a b Ha Hb. unfold int_py, int_digits. rewrite Ha, Hb.
  reflexivity.
Qed.

Lemma re_nome_group : forall s m,
  re_match RE_NOME s = Some m -> exists g, m_group m = Some g.
Proof.
  intros s m H. unfold re_match in H. apply match_at_sound in H.
  destruct H as (w & s' & _ & D & _).
  unfold RE_NOME in D. cbn [den] in D.
  destruct D as (st1 & (st0 & D0 & E1) & _ & E2).
  rewrite E1 in E2. injection E2 as _ _ E2. eauto.
Qed.

Lemma status_eqb_eq : forall a b, status_eqb a b = true <-> a = b.
Proof. intros [] []; simpl; split; intros; congruence. Qed.

Lemma validate_email_str : forall s,
  exists b, validate_email (PStr s) = Ok b.
Proof. intros s. unfold validate_email. cbn. eauto. Qed.

(* ------------------------------------------------------------------ *)
(** ** One line of a page *)

Lemma some_inj : forall (A : Type) (a b : A), Some a = Some b -> a = b.
Proof. intros A a b H. congruence. Qed.

Lemma ano_coerente_none : forall r,
  Ano_Registo r = None ->
  (Status r = ELIMINADO -> forall yy, ~ sufixo_ano (ID_Dador r) yy) ->
  ano_coerente r.
Proof.
  intros r Hn Hno. unfold ano_coerente. rewrite Hn. split.
  - split; [intros H; contradiction|].
    intros (Hs & yy & Hy). exfalso. exact (Hno Hs yy Hy).
  - intros y H. discriminate.
Qed.

(** What the body of the loop does with a line, from a processor that
    holds the table of known domains: it never raises, it moves the
    section state by the header keywords of the line, and it appends one
    row when the line holds an identifier and none otherwise. *)
Lemma linha_body_spec : forall sa rows log linha,
  exists st',
    linha_body (PState sa rows (MkEmailProcessor DOMINIOS_CONHECIDOS log))
      linha = Ok st' /\
    status_atual st' = secao_apos sa linha /\
    (exists entries,
        email_processor st'
        = MkEmailProcessor DOMINIOS_CONHECIDOS (log ++ entries)) /\
    match search RE_ID linha with
    | None => dados st' = rows
    | Some m =>
        exists r,
          dados st' = rows ++ [r] /\
          ID_Dador r = m_text m /\
          forma_id (ID_Dador r) /\
          Status r = match line_keyword linha with
                     | Some s => s
                     | None => secao_apos sa linha
                     end /\
          Email_Original r = match search RE_EMAIL linha with
                             | Some me => m_text me
                             | None => []
                             end /\
          ano_coerente r
    end.
Proof.
  intros sa rows log linha. unfold linha_body. cbv zeta.
  cbn [status_atual dados email_processor].
  assert (Hsa : (if contains (py "APTOS") (upper linha) then APTO
                 else if contains (py "SUSPENSOS") (upper linha) then SUSPENSO
                 else if contains (py "ELIMINADOS") (upper linha)
                      then ELIMINADO else sa) = secao_apos sa linha).
  { unfold secao_apos, header_keyword.
    destruct (contains (py "APTOS") (upper linha)); [reflexivity|].
    destruct (contains (py "SUSPENSOS") (upper linha)); [reflexivity|].
    destruct (contains (py "ELIMINADOS") (upper linha)); reflexivity. }
  rewrite Hsa.
  assert (Hst : (if contains (py "APTO") (upper linha) then APTO
                 else if contains (py "SUSPENSO") (upper linha) then SUSPENSO
                 else if contains (py "ELIMINADO") (upper linha)
                      then ELIMINADO else secao_apos sa linha)
                = match line_keyword linha with
                  | Some s => s
                  | None => secao_apos sa linha
                  end).
  { unfold line_keyword.
    destruct (contains (py "APTO") (upper linha)); [reflexivity|].
    destruct (contains (py "SUSPENSO") (upper linha)); [reflexivity|].
    destruct (contains (py "ELIMINADO") (upper linha)); reflexivity. }
  rewrite Hst. clear Hsa Hst.
  set (st := match line_keyword linha with
             | Some s => s
             | None => secao_apos sa linha
             end).
  destruct (search RE_ID linha) as [m|] eqn:Eid.
  2:{ eexists. split; [reflexivity|]. cbn [status_atual dados email_processor].
      split; [reflexivity|]. split; [|reflexivity].
      exists []. rewrite app_nil_r. reflexivity. }
  destruct (search_id_group _ _ Eid) as [Hg Hf].
  unfold group1 at 1. rewrite Hg. cbn [bind].
  set (eo := match search RE_EMAIL linha with
             | Some me => m_text me
             | None => []
             end).
  destruct (correct_email_total log (PStr eo)) as (c & b & entries & Hc).
  rewrite Hc. cbn [bind].
  destruct (validate_email_str c) as (tb & Hv). rewrite Hv. cbn [bind].
  set (nome := match re_match RE_NOME (strip (skipn (m_end m) linha)) with
               | Some match_nome => g <- group1 (Some match_nome) ;; Ok (strip g)
               | None => Ok []
               end).
  assert (Hnome : exists n, nome = Ok n).
  { subst nome.
    destruct (re_match RE_NOME (strip (skipn (m_end m) linha)))
      as [mn|] eqn:En; [|eauto].
    destruct (re_nome_group _ _ En) as (g & Hgn).
    unfold group1. rewrite Hgn. cbn [bind]. eauto. }
  destruct Hnome as (n & ->). cbn [bind].
  pose proof (search_ano_on_id _ Hf) as Hano.
  destruct (status_eqb st ELIMINADO) eqn:Est.
  - apply status_eqb_eq in Est.
    destruct (search RE_ANO (m_text m)) as [ma|] eqn:Ea.
    + destruct Hano as (pre & a & d & Eidt & Ha & Hd & Hga).
      unfold group1. rewrite Hga. cbn [bind].
      rewrite (int_py_two_digits _ _ Ha Hd). cbn [bind].
      eexists. split; [reflexivity|].
      cbn [status_atual dados email_processor].
      split; [reflexivity|]. split; [eauto|].
      eexists. split; [reflexivity|].
      cbn [ID_Dador Status Email_Original].
      repeat (split; [solve [auto]|]).
      assert (Hsuf : sufixo_ano (m_text m) (10 * digit_val a + digit_val d)).
      { exists pre, a, d. auto. }
      unfold ano_coerente. cbn [ID_Dador Status Ano_Registo]. split.
      * split; [intros _; eauto|intros _; discriminate].
      * intros y Hy. apply some_inj in Hy. subst y.
        exists (10 * digit_val a + digit_val d)%Z. split; [exact Hsuf|].
        destruct (Z.ltb_spec (10 * digit_val a + digit_val d) 50);
          cbv iota; split; intros; lia.
    + cbn [bind].
      eexists. split; [reflexivity|].
      cbn [status_atual dados email_processor].
      split; [reflexivity|]. split; [eauto|].
      eexists. split; [reflexivity|].
      cbn [ID_Dador Status Email_Original].
      repeat (split; [solve [auto]|]).
      apply ano_coerente_none; [reflexivity|].
      cbn [ID_Dador]. intros _ yy (pre & a & d & E & Ha & Hd & _).
      exact (Hano pre a d E Ha Hd).
  - cbn [bind].
    eexists. split; [reflexivity|].
    cbn [status_atual dados email_processor].
    split; [reflexivity|]. split; [eauto|].
    eexists. split; [reflexivity|].
    cbn [ID_Dador Status Email_Original].
    repeat (split; [solve [auto]|]).
    apply ano_coerente_none; [reflexivity|].
    cbn [Status]. intros Hs. rewrite <- status_eqb_eq in Hs.
    rewrite Hs in Est. discriminate.
Qed.

(* ------------------------------------------------------------------ *)
(** ** The loops over lines and pages *)

(** What holds of every row the parser builds. *)
Lemma linhas_loop_spec : forall linhas sa rows log,
  exists st',
    linhas_loop (PState sa rows (MkEmailProcessor DOMINIOS_CONHECIDOS log))
      linhas = Ok st' /\
    status_atual st' = fold_left secao_apos linhas sa /\
    (exists entries,
        email_processor st'
        = MkEmailProcessor DOMINIOS_CONHECIDOS (log ++ entries)) /\
    exists new,
      dados st' = rows ++ new /\
      length new = length (filter tem_id linhas) /\
      Forall ano_coerente new.
Proof.
  induction linhas as [|linha linhas IH]; intros sa rows log.
  - eexists. split; [reflexivity|]. cbn.
    split; [reflexivity|]. split; [exists []; rewrite app_nil_r; reflexivity|].
    exists []. rewrite app_nil_r. auto.
  - destruct (linha_body_spec sa rows log linha)
      as ([sa1 rows1 ep1] & Hb & Hsa & (ent1 & Hep) & Hrows).
    cbn [status_atual dados email_processor] in *. subst sa1 ep1.
    destruct (IH (secao_apos sa linha) rows1 (log ++ ent1))
      as (st' & Hl & Hsa' & (ent2 & Hep') & new & Hd & Hlen & Hall).
    exists st'. cbn [linhas_loop]. rewrite Hb. cbn [bind].
    split; [exact Hl|]. split; [exact Hsa'|].
    split; [exists (ent1 ++ ent2); rewrite Hep', app_assoc; reflexivity|].
    cbn [filter]. unfold tem_id at 1.
    destruct (search RE_ID linha) as [m|].
    + destruct Hrows as (r & -> & _ & _ & _ & _ & Hr).
      exists (r :: new). rewrite Hd, <- app_assoc. cbn [app length].
      split; [reflexivity|]. split; [congruence|]. constructor; assumption.
    + subst rows1. exists new. auto.
Qed.

Lemma linhas_loop_app : forall l1 l2 st,
  linhas_loop st (l1 ++ l2) = (st1 <- linhas_loop st l1 ;; linhas_loop st1 l2).
Proof.
  induction l1 as [|x l1 IH]; intros l2 st; cbn [app linhas_loop bind].
  - reflexivity.
  - destruct (linha_body st x) as [st1|e]; cbn [bind]; auto.
Qed.

(** The state is not reset between pages: a document whose pages all
    give their text is parsed as the sequence of all its lines. *)
Lemma paginas_loop_flat : forall textos st,
  paginas_loop st (map Ok textos) = linhas_loop st (doc_lines textos).
Proof.
  induction textos as [|t textos IH]; intros st.
  - reflexivity.
  - cbn [map paginas_loop bind doc_lines flat_map].
    rewrite linhas_loop_app. fold (doc_lines textos).
    destruct t as [[|c t]|]; cbn [page_lines linhas_loop bind]; auto.
    destruct (linhas_loop st (split_lines (c :: t))) as [st1|e];
      cbn [bind]; auto.
Qed.

(** When the loop over the pages ends without an exception, no page
    raised. *)
Lemma paginas_loop_ok : forall paginas st st',
  paginas_loop st paginas = Ok st' ->
  exists textos, paginas = map Ok textos.
Proof.
  induction paginas as [|p paginas IH]; intros st st' H.
  - exists []. reflexivity.
  - cbn [paginas_loop] in H. destruct p as [t|e]; [|discriminate].
    cbn [bind] in H.
    assert (Hrest : exists st1, paginas_loop st1 paginas = Ok st').
    { destruct t as [[|c t]|]; eauto.
      destruct (linhas_loop st (split_lines (c :: t))) as [st1|e];
        [|discriminate]. cbn [bind] in H. eauto. }
    destruct Hrest as (st1 & H1). destruct (IH _ _ H1) as (textos & ->).
    exists (t :: textos). reflexivity.
Qed.

Lemma extrair_flat : forall self textos,
  extrair_emails_pdf self (Ok (map Ok textos)) =
  match linhas_loop (PState INDEFINIDO [] self) (doc_lines textos) with
  | Ok st => Ok (dados st, email_processor st)
  | Raise e =>
      if is_Exception e then Raise (erro_processar e)
      else Raise e
  end.
Proof.
  intros self textos. unfold extrair_emails_pdf. cbn [bind].
  rewrite paginas_loop_flat. reflexivity.
Qed.

(** The section in force after a run of lines is that of the last
    header line among them. *)
Lemma fold_secao : forall before sa,
  fold_left secao_apos before sa =
  match find (fun l => match header_keyword l with
                       | Some _ => true
                       | None => false
                       end) (rev before) with
  | Some h => match header_keyword h with
              | Some s => s
              | None => INDEFINIDO
              end
  | None => sa
  end.
Proof.
  induction before as [|x before IH] using rev_ind; intros sa.
  - reflexivity.
  - rewrite fold_left_app, rev_app_distr. cbn [fold_left rev app find].
    unfold secao_apos at 1.
    destruct (header_keyword x) as [s|] eqn:E.
    + rewrite E. reflexivity.
    + apply IH.
Qed.

Lemma fold_secao_indefinido : forall before,
  fold_left secao_apos before INDEFINIDO = section_of before.
Proof.
  intros before. rewrite fold_secao. unfold section_of.
  destruct (find _ (rev before)); reflexivity.
Qed.

Lemma contains_prefix : forall a c u,
  contains (a ++ c) u = true -> contains a u = true.
Proof.
  intros a c u H. apply contains_spec in H. apply contains_spec.
  destruct H as (x & y & ->). exists x, (c ++ y).
  rewrite <- app_assoc. reflexivity.
Qed.

(** A header line names its own status: each section keyword holds the
    matching status keyword. *)
Lemma line_keyword_none : forall linha,
  line_keyword linha = None -> header_keyword linha = None.
Proof.
  intros linha H. unfold line_keyword in H. unfold header_keyword.
  destruct (contains (py "APTO") (upper linha)) eqn:E1; [discriminate|].
  destruct (contains (py "SUSPENSO") (upper linha)) eqn:E2; [discriminate|].
  destruct (contains (py "ELIMINADO") (upper linha)) eqn:E3; [discriminate|].
  destruct (contains (py "APTOS") (upper linha)) eqn:F1.
  { apply (contains_prefix (py "APTO") (py "S")) in F1. congruence. }
  destruct (contains (py "SUSPENSOS") (upper linha)) eqn:F2.
  { apply (contains_prefix (py "SUSPENSO") (py "S")) in F2. congruence. }
  destruct (contains (py "ELIMINADOS") (upper linha)) eqn:F3.
  { apply (contains_prefix (py "ELIMINADO") (py "S")) in F3. congruence. }
  reflexivity.
Qed.

(* ------------------------------------------------------------------ *)
(** ** Claims on the parser *)

(** C3. The section status starts as [INDEFINIDO] and is carried over
    the lines of all pages in reading order, without being reset at a
    page break.  The record of a line that holds an identifier gets the
    status keyword of the line itself, [APTO], [SUSPENSO], [ELIMINADO]
    being tried in this order, and otherwise the section opened by the
    most recent header line before it, on whatever page that line was,
    or [INDEFINIDO] when there was none. *)
Theorem C3_section_state_carry_over : forall log textos before linha after m,
  doc_lines textos = before ++ linha :: after ->
  search RE_ID linha = Some m ->
  exists rows1 r rows2 self',
    extrair_emails_pdf (MkEmailProcessor DOMINIOS_CONHECIDOS log)
      (Ok (map Ok textos)) = Ok (rows1 ++ r :: rows2, self') /\
    length rows1 = length (filter tem_id before) /\
    ID_Dador r = m_text m /\
    Status r = match line_keyword linha with
               | Some s => s
               | None => section_of before
               end.
Proof.
  intros log textos before linha after m Hdoc Hm.
  rewrite extrair_flat, Hdoc, linhas_loop_app.
  destruct (linhas_loop_spec before INDEFINIDO [] log)
    as ([sa1 rows1 ep1] & H1 & Hsa1 & (ent1 & Hep1) & new1 & Hd1 & Hlen1 & _).
  cbn [status_atual dados email_processor app] in *. subst rows1 ep1.
  rewrite H1. cbn [bind linhas_loop].
  destruct (linha_body_spec sa1 new1 (log ++ ent1) linha)
    as ([sa2 rows2 ep2] & H2 & Hsa2 & (ent2 & Hep2) & Hrows).
  cbn [status_atual dados email_processor] in *. subst sa2 ep2.
  rewrite Hm in Hrows. destruct Hrows as (r & -> & Hid & _ & Hst & _).
  rewrite H2. cbn [bind].
  destruct (linhas_loop_spec after (secao_apos sa1 linha) (new1 ++ [r])
              ((log ++ ent1) ++ ent2))
    as ([sa3 rows3 ep3] & H3 & _ & _ & new3 & Hd3 & _).
  cbn [dados] in Hd3. subst rows3. rewrite H3.
  exists new1, r, new3, ep3. cbn [dados email_processor].
  split; [rewrite <- app_assoc; reflexivity|].
  split; [exact Hlen1|]. split; [exact Hid|].
  rewrite Hst. destruct (line_keyword linha) as [s|] eqn:Ek; [reflexivity|].
  unfold secao_apos. rewrite (line_keyword_none _ Ek).
  rewrite Hsa1. apply fold_secao_indefinido.
Qed.

Lemma C3_witness :
  exists rows1 r rows2 self',
    extrair_emails_pdf (MkEmailProcessor DOMINIOS_CONHECIDOS [])
      (Ok (map Ok [Some (py "Lista de SUSPENSOS"); None;
                   Some (py "SC.B2.7/19 RUI")]))
    = Ok (rows1 ++ r :: rows2, self') /\
    length rows1 = length (filter tem_id [py "Lista de SUSPENSOS"]) /\
    ID_Dador r = m_text (RMatch 0 10 (py "SC.B2.7/19") (Some (py "SC.B2.7/19"))) /\
    Status r = match line_keyword (py "SC.B2.7/19 RUI") with
               | Some s => s
               | None => section_of [py "Lista de SUSPENSOS"]
               end.
Proof.
  apply (C3_section_state_carry_over []
           [Some (py "Lista de SUSPENSOS"); None; Some (py "SC.B2.7/19 RUI")]
           [py "Lista de SUSPENSOS"] (py "SC.B2.7/19 RUI") []
           (RMatch 0 10 (py "SC.B2.7/19") (Some (py "SC.B2.7/19")))).
  - reflexivity.
  - vm_compute. reflexivity.
Defined.

(** C4. A row has a registration year exactly when its status is
    [ELIMINADO] and its identifier ends in a slash and two digits, which
    are then read as a number [YY]; the year is [2000 + YY] when
    [YY < 50] and [1900 + YY] otherwise. *)
Theorem C4_registration_year : forall log caminho_pdf df self' r,
  extrair_emails_pdf (MkEmailProcessor DOMINIOS_CONHECIDOS log) caminho_pdf
    = Ok (df, self') ->
  In r df ->
  ano_coerente r.
Proof.
  intros log pdf df self' r H Hin. unfold extrair_emails_pdf in H.
  destruct pdf as [paginas|e]; cbn [bind] in H;
    [|destruct (is_Exception e); discriminate].
  destruct (paginas_loop (PState INDEFINIDO []
              (MkEmailProcessor DOMINIOS_CONHECIDOS log)) paginas)
    as [st|e] eqn:Hp; [|destruct (is_Exception e); discriminate].
  injection H as <- _.
  destruct (paginas_loop_ok _ _ _ Hp) as (textos & ->).
  rewrite paginas_loop_flat in Hp.
  destruct (linhas_loop_spec (doc_lines textos) INDEFINIDO [] log)
    as (st' & Hl & _ & _ & new & Hd & _ & Hall).
  rewrite Hl in Hp. apply (f_equal (fun x => match x with
                                             | Ok s => dados s
                                             | Raise _ => []
                                             end)) in Hp.
  cbv beta iota in Hp. rewrite <- Hp, Hd in Hin. cbn [app] in Hin.
  rewrite Forall_forall in Hall. auto.
Qed.

Lemma C4_witness :
  ano_coerente
    (Row (py "SL.A7.12/08") (py "ANA") [] [] false ELIMINADO false
         (Some 2008%Z)).
Proof.
  apply (C4_registration_year []
           (Ok [Ok (Some (py "ELIMINADOS")); Ok (Some (py "SL.A7.12/08 ANA"))])
           [Row (py "SL.A7.12/08") (py "ANA") [] [] false ELIMINADO false
                (Some 2008%Z)]
           (MkEmailProcessor DOMINIOS_CONHECIDOS [])).
  - vm_compute. reflexivity.
  - left. reflexivity.
Defined.

Lemma app_unit_neq : forall (A : Type) (l : list A) x, l ++ [x] <> l.
Proof.
  intros A l x H. apply (f_equal (@length A)) in H.
  rewrite length_app in H. simpl in H. lia.
Qed.

(** C6, as the code has it.  The body of the loop appends a row for a
    line exactly when the line holds a text of the shape [S], one of
    [P], [C], [L], a dot, one or more capital letters or digits, a dot,
    one or more digits, a slash, one or more digits; a line without such
    a text adds no row and is skipped. *)
Theorem C6_row_iff_identifier : forall sa rows log linha,
  exists st',
    linha_body (PState sa rows (MkEmailProcessor DOMINIOS_CONHECIDOS log))
      linha = Ok st' /\
    ((exists r, dados st' = rows ++ [r]) <->
     (exists w n, forma_id w /\ occurs_at w linha n)) /\
    (dados st' = rows <->
     ~ (exists w n, forma_id w /\ occurs_at w linha n)).
Proof.
  intros sa rows log linha.
  destruct (linha_body_spec sa rows log linha)
    as (st' & Hb & _ & _ & Hrows).
  exists st'. split; [exact Hb|].
  destruct (search RE_ID linha) as [m|] eqn:Eid.
  - destruct Hrows as (r & Hd & _).
    destruct (search_forma_some RE_ID forma_id) with (s := linha) (m := m)
      as (HF & Ho & _); auto.
    { intros i s st0 D. apply re_id_den in D.
      destruct D as (w & E & Hw & _). eauto. }
    { apply re_id_den_intro. }
    split; split.
    + intros _. eauto.
    + intros _. eauto.
    + intros E. rewrite Hd in E. apply app_unit_neq in E. contradiction.
    + intros Hn. exfalso. apply Hn. eauto.
  - assert (Hno : ~ (exists w n, forma_id w /\ occurs_at w linha n)).
    { intros (w & n & HF & Ho).
      apply (search_forma_none RE_ID forma_id re_id_den_intro linha Eid
               w n HF Ho). }
    split; split.
    + intros (r & E). rewrite Hrows in E. symmetry in E.
      apply app_unit_neq in E. contradiction.
    + intros H. contradiction.
    + intros _. exact Hno.
    + intros _. exact Hrows.
Qed.

(** C6, as it is stated, fails: this line holds an identifier in the
    words of the specification (the letters [AB], a dot, [X1], a dot,
    [23], a slash, [45]), and the parser builds no row for it. *)
Lemma C6_counterexample :
  (exists w n, forma_id_da_spec w /\ occurs_at w (py "AB.X1.23/45 ANA") n)
  /\ ids_extraidos [Some (py "AB.X1.23/45 ANA")] = Ok [].
Proof.
  split; [|vm_compute; reflexivity].
  exists (py "AB.X1.23/45"), 0. split.
  - exists (py "AB"), (py "X1"), (py "23"), "4", "5".
    repeat split; try discriminate; reflexivity.
  - exists [], (py " ANA"). split; reflexivity.
Qed.

Lemma skipn_past : forall (a b : str) c m,
  skipn (length a + 1 + m) (a ++ c :: b) = skipn m b.
Proof.
  intros a b c m. rewrite skipn_app.
  rewrite skipn_all2 by lia.
  replace (length a + 1 + m - length a) with (S m) by lia.
  reflexivity.
Qed.

Lemma forallb_skipn : forall (p : ascii -> bool) m l,
  forallb p l = true -> forallb p (skipn m l) = true.
Proof.
  intros p m l H. rewrite forallb_forall in *.
  intros x Hin. apply H. rewrite <- (firstn_skipn m l).
  apply in_or_app. right. exact Hin.
Qed.

(** Among the email-shaped texts that start where the pattern is tried,
    the greedy match is the longest. *)
Lemma match_at_email_longest : forall i s m,
  match_at RE_EMAIL i s = Some m ->
  forall e post, s = e ++ post -> forma_email e ->
                 length e <= length (m_text m).
Proof.
  intros i s m H e post E HF.
  unfold match_at, RE_EMAIL in H. cbn [run Cat Lit Plus pos rest grp] in H.
  apply rep_greedy_max in H.
  destruct H as (l & s1 & Es & Hl & _ & H & _).
  destruct s1 as [|c s1]; [discriminate|].
  destruct (chr_is "@" c) eqn:Hc; [|discriminate].
  apply chr_is_true in Hc. subst c.
  apply rep_greedy_max in H.
  destruct H as (d & s2 & -> & Hd & _ & H & Hmaxd).
  destruct s2 as [|c s2]; [discriminate|].
  destruct (chr_is "." c) eqn:Hc; [|discriminate].
  apply chr_is_true in Hc. subst c.
  apply rep_greedy_max in H.
  destruct H as (t & s3 & -> & Ht & Htn & H & Hmaxt).
  apply some_inj in H. subst m. cbn [m_text].
  rewrite Es.
  replace (l ++ "@" :: d ++ "." :: t ++ s3)
    with ((l ++ "@" :: d ++ "." :: t) ++ s3) by assoc_eq.
  rewrite firstn_exact.
  2:{ rewrite !length_app. cbn [length]. rewrite !length_app. cbn [length].
      lia. }
  destruct HF as (l2 & d2 & t2 & -> & _ & Hl2 & Hd2n & Hd2 & Ht2n & Ht2).
  rewrite Es in E.
  replace ((l2 ++ "@" :: d2 ++ "." :: t2) ++ post)
    with (l2 ++ "@" :: d2 ++ "." :: t2 ++ post) in E by assoc_eq.
  apply app_inj_pivot in E.
  destruct E as [[[Hin _]|[_ Hin]]|[<- E]];
    [exfalso; exact (domain_no_at l Hl Hin)
    |exfalso; exact (domain_no_at l2 Hl2 Hin)|].
  assert (Ld : length d2 <= length d).
  { destruct (Nat.le_gt_cases (length d2) (length d)) as [L|L]; [exact L|].
    exfalso.
    pose proof (Hmaxd d2 ("." :: t2 ++ post) E Hd2 L) as Hn.
    cbn in Hn.
    revert Hn. apply rep_greedy_complete; auto.
    - apply nonnil_length_pos. exact Ht2n.
    - discriminate. }
  destruct (Nat.le_gt_cases (length d2 + length t2) (length d + length t))
    as [L|L].
  { rewrite !length_app. simpl. rewrite !length_app. simpl. lia. }
  exfalso.
  assert (Hl2t : 1 <= length t) by exact Htn.
  apply (f_equal (skipn (length d + 1 + 0))) in E.
  rewrite skipn_past in E. cbn [skipn] in E.
  replace (length d + 1 + 0)
    with (length d2 + 1 + (length d - length d2)) in E by lia.
  rewrite skipn_past, skipn_app in E.
  replace (length d - length d2 - length t2) with 0 in E by lia.
  cbn [skipn] in E.
  pose proof (Hmaxt (skipn (length d - length d2) t2) post E
                (forallb_skipn _ _ _ Ht2)) as Hn.
  rewrite length_skipn in Hn.
  assert (Hlt : length t < length t2 - (length d - length d2)) by lia.
  specialize (Hn Hlt). discriminate.
Qed.

Lemma app_same_length : forall (A : Type) (a a' b b' : list A),
  a ++ b = a' ++ b' -> length a = length a' -> a = a' /\ b = b'.
Proof.
  intros A. induction a as [|x a IH]; intros [|x' a'] b b' E L;
    try discriminate; simpl in *; auto.
  injection E as -> E. injection L as L.
  destruct (IH _ _ _ E L) as [-> ->]. auto.
Qed.

Lemma search_email_longest : forall s me,
  search RE_EMAIL s = Some me ->
  forall e, forma_email e -> occurs_at e s (m_start me) ->
            length e <= length (m_text me).
Proof.
  intros s me H e HF (pre2 & post2 & E & L).
  unfold search in H. apply search_from_sound in H.
  destruct H as (pre & suf & Es & Hat & _). simpl in Hat.
  pose proof (match_at_sound _ _ _ _ Hat) as (w & s' & _ & _ & Hst & _).
  rewrite Hst in L. rewrite Es in E.
  destruct (app_same_length _ _ _ _ _ E (eq_sym L)) as [_ Esuf].
  apply (match_at_email_longest _ _ _ Hat e post2 Esuf HF).
Qed.

(** C8, as the code has it.  For a line that holds an identifier,
    [Email Original] is the email-shaped text that starts leftmost in
    the whole line, before or after the identifier, and the longest one
    that starts there; it is empty when the line holds no email-shaped
    text. *)
Theorem C8_email_leftmost_in_line : forall sa rows log linha,
  tem_id linha = true ->
  exists st' r,
    linha_body (PState sa rows (MkEmailProcessor DOMINIOS_CONHECIDOS log))
      linha = Ok st' /\
    dados st' = rows ++ [r] /\
    ((Email_Original r = [] /\
      forall e n, forma_email e -> ~ occurs_at e linha n)
     \/
     (exists n,
        forma_email (Email_Original r) /\
        occurs_at (Email_Original r) linha n /\
        forall e n', forma_email e -> occurs_at e linha n' ->
          n <= n' /\
          (n' = n -> length e <= length (Email_Original r)))).
Proof.
  intros sa rows log linha Hid. unfold tem_id in Hid.
  destruct (linha_body_spec sa rows log linha)
    as (st' & Hb & _ & _ & Hrows).
  destruct (search RE_ID linha) as [m|]; [|discriminate].
  destruct Hrows as (r & Hd & _ & _ & _ & He & _).
  exists st', r. split; [exact Hb|]. split; [exact Hd|].
  rewrite He.
  destruct (search RE_EMAIL linha) as [me|] eqn:Ee.
  - right. exists (m_start me).
    destruct (search_forma_some RE_EMAIL forma_email re_email_den
                re_email_den_intro linha me Ee) as (HF & Ho & _ & Hmin).
    split; [exact HF|]. split; [exact Ho|].
    intros e n' HFe Hoe. split; [eauto|].
    intros ->. apply (search_email_longest linha me Ee e HFe Hoe).
  - left. split; [reflexivity|].
    apply (search_forma_none RE_EMAIL forma_email re_email_den_intro
             linha Ee).
Qed.

Lemma C8_witness :
  exists st' r,
    linha_body (PState APTO [] (MkEmailProcessor DOMINIOS_CONHECIDOS []))
      (py "SP.AB123.45/21 JOAO joao@gmail.co") = Ok st' /\
    dados st' = [] ++ [r] /\
    ((Email_Original r = [] /\
      forall e n, forma_email e ->
                  ~ occurs_at e (py "SP.AB123.45/21 JOAO joao@gmail.co") n)
     \/
     (exists n,
        forma_email (Email_Original r) /\
        occurs_at (Email_Original r)
          (py "SP.AB123.45/21 JOAO joao@gmail.co") n /\
        forall e n', forma_email e ->
          occurs_at e (py "SP.AB123.45/21 JOAO joao@gmail.co") n' ->
          n <= n' /\
          (n' = n -> length e <= length (Email_Original r)))).
Proof.
  apply (C8_email_leftmost_in_line APTO [] []
           (py "SP.AB123.45/21 JOAO joao@gmail.co")).
  vm_compute. reflexivity.
Defined.

(** C8, as it is stated, fails: on this line an email-shaped text
    stands before the identifier and another after it; the row gets the
    one before, not the first one after the identifier. *)
Lemma C8_counterexample :
  emails_originais [Some (py "a@b.pt SP.A1.2/21 ANA c@d.pt")]
    = Ok [py "a@b.pt"]
  /\ email_apos_id (py "a@b.pt SP.A1.2/21 ANA c@d.pt") = py "c@d.pt".
Proof. split; vm_compute; reflexivity. Qed.

(* ------------------------------------------------------------------ *)
(** ** Failures *)

Lemma paginas_loop_app : forall p1 p2 st,
  paginas_loop st (p1 ++ p2) =
  (st1 <- paginas_loop st p1 ;; paginas_loop st1 p2).
Proof.
  induction p1 as [|p p1 IH]; intros p2 st; cbn [app paginas_loop bind].
  - reflexivity.
  - destruct p as [t|e]; cbn [bind]; [|reflexivity].
    destruct t as [[|c t]|]; auto.
    destruct (linhas_loop st (split_lines (c :: t))) as [st1|e];
      cbn [bind]; auto.
Qed.

Lemma validate_email_total : forall v,
  exists b, validate_email v = Ok b /\
            match v with
            | PStr _ => True
            | _ => b = false
            end.
Proof.
  intros [s| |z]; unfold validate_email; cbn; eauto.
Qed.

(** C7. A run fails with one wrapped error that carries the cause when
    opening the document or extracting the text of a page raises an
    error, an exception of a class that derives from [Exception]: the
    error of the run is of class [Exception] and its message is
    [Erro ao processar PDF: ] followed by the message of the cause; it
    is not wrapped a second time, and no table or report is returned.
    An exception of a class that derives from [BaseException] only
    passes through as it is.  A run fails with the error of an empty
    result, without a report, when the parse ends with no row; it gives
    a report otherwise.  [correct_email] and [validate_email] raise on
    no input: they return the empty string with [false], respectively
    [false], on what is not a string, and the former also on a blank
    string. *)
Theorem C7_failures : forall ano_agora agora log v,
  (forall cls msg,
      processar_pdf_para_emails ano_agora agora (Raise (Exn cls msg))
      = Raise (Exn (py "Exception") (py "Erro ao processar PDF: " ++ msg)) /\
      extrair_emails_pdf (MkEmailProcessor DOMINIOS_CONHECIDOS log)
        (Raise (Exn cls msg))
      = Raise (Exn (py "Exception") (py "Erro ao processar PDF: " ++ msg))) /\
  (forall textos cls msg paginas,
      processar_pdf_para_emails ano_agora agora
        (Ok (map Ok textos ++ Raise (Exn cls msg) :: paginas))
      = Raise (Exn (py "Exception") (py "Erro ao processar PDF: " ++ msg)) /\
      extrair_emails_pdf (MkEmailProcessor DOMINIOS_CONHECIDOS log)
        (Ok (map Ok textos ++ Raise (Exn cls msg) :: paginas))
      = Raise (Exn (py "Exception") (py "Erro ao processar PDF: " ++ msg))) /\
  (forall textos cls msg paginas,
      processar_pdf_para_emails ano_agora agora (Raise (BaseExn cls msg))
      = Raise (BaseExn cls msg) /\
      processar_pdf_para_emails ano_agora agora
        (Ok (map Ok textos ++ Raise (BaseExn cls msg) :: paginas))
      = Raise (BaseExn cls msg)) /\
  (forall textos,
      (filter tem_id (doc_lines textos) = [] /\
       processar_pdf_para_emails ano_agora agora (Ok (map Ok textos))
       = Raise (Exn (py "Exception")
                  (py "Nenhum dado extra" ++ "237"%char
                   :: py "do do PDF. Verifique se o formato est"
                   ++ "225"%char :: py " correto.")))
      \/
      (filter tem_id (doc_lines textos) <> [] /\
       exists relatorio,
         processar_pdf_para_emails ano_agora agora (Ok (map Ok textos))
         = Ok relatorio)) /\
  (exists c b self',
      correct_email (MkEmailProcessor DOMINIOS_CONHECIDOS log) v
      = Ok ((c, b), self') /\
      match v with
      | PStr s => match strip s with
                  | [] => c = [] /\ b = false
                  | _ => True
                  end
      | _ => c = [] /\ b = false
      end) /\
  (exists b, validate_email v = Ok b /\
             match v with
             | PStr _ => True
             | _ => b = false
             end).
Proof.
  intros ano_agora agora log v.
  assert (Hpre : forall l textos e paginas,
             paginas_loop
               (PState INDEFINIDO [] (MkEmailProcessor DOMINIOS_CONHECIDOS l))
               (map Ok textos ++ Raise e :: paginas) = Raise e).
  { intros l textos e paginas.
    rewrite paginas_loop_app, paginas_loop_flat.
    destruct (linhas_loop_spec (doc_lines textos) INDEFINIDO [] l)
      as (st' & Hl & _). rewrite Hl. reflexivity. }
  split; [|split; [|split; [|split; [|split]]]].
  - intros cls msg. split; reflexivity.
  - intros textos cls msg paginas.
    unfold processar_pdf_para_emails, extrair_emails_pdf, EmailProcessor_init.
    cbn [bind]. rewrite !Hpre. split; reflexivity.
  - intros textos cls msg paginas. split; [reflexivity|].
    unfold processar_pdf_para_emails, extrair_emails_pdf, EmailProcessor_init.
    cbn [bind]. rewrite Hpre. reflexivity.
  - intros textos.
    unfold processar_pdf_para_emails. rewrite extrair_flat.
    unfold EmailProcessor_init.
    destruct (linhas_loop_spec (doc_lines textos) INDEFINIDO [] [])
      as (st' & Hl & _ & _ & new & Hd & Hlen & _).
    rewrite Hl. cbn [bind app] in *. rewrite Hd.
    destruct new as [|r new]; cbn [is_empty_df].
    + left. split; [|reflexivity].
      destruct (filter tem_id (doc_lines textos)); [reflexivity|discriminate].
    + right. split; [|eauto].
      destruct (filter tem_id (doc_lines textos)); discriminate.
  - destruct (correct_email_total log v) as (c & b & entries & Hc).
    exists c, b, (MkEmailProcessor DOMINIOS_CONHECIDOS (log ++ entries)).
    split; [exact Hc|].
    destruct v as [s| |z].
    + destruct (strip s) eqn:Es; [|exact I].
      rewrite correct_email_blank in Hc by assumption.
      injection Hc as <- <- _. auto.
    + rewrite correct_email_nonstr in Hc by reflexivity.
      injection Hc as <- <- _. auto.
    + rewrite correct_email_nonstr in Hc by reflexivity.
      injection Hc as <- <- _. auto.
  - apply validate_email_total.
Qed.

(* ------------------------------------------------------------------ *)
(** ** The report *)







Lemma filter_filter_and : forall (A : Type) (f g : A -> bool) l,
  filter f (filter g l) = filter (fun x => g x && f x) l.
Proof.
  intros A f g. induction l as [|x l IH]; cbn [filter]; auto.
  destruct (g x); cbn [filter andb]; [|exact IH].
  destruct (f x); rewrite IH; reflexivity.
Qed.

(** The emails the loop computes for a status are the distinct emails
    of the selected rows. *)
Lemma emails_status_unique : forall corte df s,
  emails_status corte df s =
  unique (map Email_Corrigido (filter (selecionado corte s) df)).
Proof.
  intros corte df s. unfold emails_status.
  destruct (status_eqb s ELIMINADO) eqn:Es.
  - apply status_eqb_eq in Es. subst s.
    rewrite !filter_filter_and. f_equal. f_equal.
    apply filter_ext. intros r. unfold selecionado.
    destruct (Ano_Registo r) as [y|]; rewrite ?Z.geb_leb;
      try destruct (corte <=? y)%Z;
      destruct (status_eqb (Status r) ELIMINADO), (Tem_Email r);
      reflexivity.
  - f_equal. f_equal. apply filter_ext. intros r. unfold selecionado.
    destruct s; try discriminate; rewrite andb_true_r; reflexivity.
Qed.







(* ================================================================== *)
(** * Part IV. Further properties of the code *)
(* ================================================================== *)

(** ** [validate_email] *)

Lemma valido_den : forall i s st',
  den VALIDO (MState i s None) st' ->
  i = 0 /\
  exists l h t tail,
    s = l ++ "@" :: h ++ "." :: t ++ tail /\
    l <> [] /\ forallb is_local_chr l = true /\
    h <> [] /\ forallb is_host_chr h = true /\
    2 <= length t /\ forallb is_alpha_chr t = true /\
    (tail = [] \/ tail = ["010"]).
Proof.
  intros i s st' D. cbn [VALIDO Cat den Lit Plus] in D. den_break.
  split; [reflexivity|].
  do 4 eexists. split; [reflexivity|].
  repeat split; auto using length_pos_nonnil.
Qed.

Lemma valido_den_intro : forall l h t,
  l <> [] -> forallb is_local_chr l = true ->
  h <> [] -> forallb is_host_chr h = true ->
  2 <= length t -> forallb is_alpha_chr t = true ->
  exists st', den VALIDO (MState 0 (l ++ "@" :: h ++ "." :: t ++ []) None) st'.
Proof.
  intros l h t Hl Hfl Hh Hfh Ht Hft. unfold VALIDO. den_intro.
  - exact Ht.
  - left. reflexivity.
Qed.

Lemma validate_email_value : forall s,
  validate_email (PStr s) =
  Ok (match re_match VALIDO (normalizado s) with
      | Some _ => true
      | None => false
      end).
Proof. reflexivity. Qed.

Lemma normalizado_no_newline_end : forall s u,
  normalizado s = u ++ ["010"] -> False.
Proof.
  intros s u E.
  assert (Hne : strip s <> []).
  { apply normalizado_nonnil. rewrite E. destruct u; discriminate. }
  pose proof (normalizado_normal s Hne) as Hn. rewrite E in Hn.
  exact (normal_not_newline_end (u ++ ["010"]) u Hn eq_refl).
Qed.

Lemma validate_email_sound : forall s,
  validate_email (PStr s) = Ok true -> forma_valida (normalizado s).
Proof.
  intros s. rewrite validate_email_value. intros H.
  destruct (re_match VALIDO (normalizado s)) as [m|] eqn:E;
    [|discriminate].
  unfold re_match in E. apply match_at_sound in E.
  destruct E as (w & s' & Es & D & _).
  apply valido_den in D.
  destruct D as (_ & l & h & t & tail & E & Hl & Hfl & Hh & Hfh & Ht & Hft
                 & Htail).
  rewrite <- Es in E.
  destruct Htail as [-> | ->].
  - rewrite app_nil_r in E. exists l, h, t. auto 10.
  - exfalso. apply (normalizado_no_newline_end s (l ++ "@" :: h ++ "." :: t)).
    rewrite E. assoc_eq.
Qed.

Lemma validate_email_complete : forall s,
  forma_valida (normalizado s) -> validate_email (PStr s) = Ok true.
Proof.
  intros s (l & h & t & E & Hl & Hfl & Hh & Hfh & Ht & Hft).
  rewrite validate_email_value.
  destruct (valido_den_intro l h t Hl Hfl Hh Hfh Ht Hft) as (st' & D).
  rewrite app_nil_r, <- E in D.
  apply match_at_complete in D. unfold re_match.
  destruct (match_at VALIDO 0 (normalizado s)); [reflexivity|contradiction].
Qed.

(** X1. [validate_email] accepts a string exactly when its trimmed form
    without spaces is a local part of letters, digits and [._%+-], an
    [@], a host of letters, digits, dots and hyphens, a dot and at least
    two letters up to the end. *)
Theorem X1_validate_email_iff : forall s,
  validate_email (PStr s) = Ok true <-> forma_valida (normalizado s).
Proof.
  intros s. split.
  - apply validate_email_sound.
  - apply validate_email_complete.
Qed.

Lemma count_occ_forallb : forall (p : ascii -> bool) x l,
  forallb p l = true -> p x = false -> count_occ ascii_dec l x = 0.
Proof.
  intros p x l H Hx. apply count_occ_not_In. intros Hin.
  rewrite forallb_forall in H. apply H in Hin. congruence.
Qed.

Lemma forma_valida_one_at : forall e,
  forma_valida e -> count_occ ascii_dec e "@" = 1.
Proof.
  intros e (l & h & t & -> & _ & Hfl & _ & Hfh & _ & Hft).
  rewrite count_occ_app. cbn [count_occ].
  destruct (ascii_dec "@" "@") as [_|N]; [|contradiction].
  rewrite count_occ_app. cbn [count_occ].
  destruct (ascii_dec "." "@") as [N|_]; [discriminate|].
  rewrite (count_occ_forallb is_local_chr), (count_occ_forallb is_host_chr),
    (count_occ_forallb is_alpha_chr); auto.
Qed.

Lemma forma_valida_sem_brancos : forall e,
  forma_valida e -> sem_brancos e = true.
Proof.
  intros e (l & h & t & -> & _ & Hfl & _ & Hfh & _ & Hft).
  unfold sem_brancos. rewrite forallb_app. cbn [forallb].
  rewrite forallb_app. cbn [forallb].
  assert (A : forall p : ascii -> bool,
             (forall c, p c = true -> is_space c = false) ->
             forall w, forallb p w = true ->
                       forallb (fun c => negb (is_space c)) w = true).
  { intros p Hp w Hw. rewrite forallb_forall in *. intros c Hin.
    rewrite (Hp c (Hw c Hin)). reflexivity. }
  rewrite (A is_local_chr), (A is_host_chr), (A is_alpha_chr); auto;
    intros c; ascii_cases c; vm_compute; intros H; auto; discriminate.
Qed.

(** X2. An accepted email, trimmed and without its spaces, holds
    exactly one [@] and no blank character. *)
Theorem X2_valid_email_one_at : forall s,
  validate_email (PStr s) = Ok true ->
  count_occ ascii_dec (normalizado s) "@" = 1 /\
  sem_brancos (normalizado s) = true.
Proof.
  intros s H. apply validate_email_sound in H.
  split; [apply forma_valida_one_at|apply forma_valida_sem_brancos]; exact H.
Qed.

Lemma X2_witness :
  count_occ ascii_dec (normalizado (py " ana.silva@sapo.pt ")) "@" = 1 /\
  sem_brancos (normalizado (py " ana.silva@sapo.pt ")) = true.
Proof.
  apply (X2_valid_email_one_at (py " ana.silva@sapo.pt ")).
  vm_compute. reflexivity.
Defined.

(** ** [correct_email] and [validate_email] together *)

Lemma sem_brancos_normalizado : forall e,
  sem_brancos e = true -> normalizado e = e.
Proof.
  intros e H. unfold sem_brancos in H.
  assert (Hr : remove_spaces e = e).
  { unfold remove_spaces. induction e as [|c e IH]; [reflexivity|].
    cbn [forallb] in H. apply andb_prop in H. destruct H as [Hc H].
    apply negb_true_iff in Hc. cbn [filter].
    rewrite (not_space_kept _ Hc), IH; auto. }
  assert (Ht : trimmed e).
  { rewrite forallb_forall in H. split.
    - destruct e as [|c e]; [exact I|].
      apply negb_true_iff. apply H. left. reflexivity.
    - destruct (last_chr e) as [z|] eqn:E; [|exact I].
      apply negb_true_iff. apply H. apply last_chr_in. exact E. }
  unfold normalizado. rewrite (trimmed_strip _ Ht). exact Hr.
Qed.

Lemma forma_valida_validate : forall c,
  forma_valida c -> validate_email (PStr c) = Ok true.
Proof.
  intros c H. apply validate_email_complete.
  rewrite (sem_brancos_normalizado c (forma_valida_sem_brancos c H)).
  exact H.
Qed.

Lemma host_is_domain : forall h,
  forallb is_host_chr h = true -> forallb is_domain_chr h = true.
Proof.
  intros h H. rewrite forallb_forall in *. intros c Hin.
  specialize (H c Hin). revert H.
  ascii_cases c; vm_compute; intros H; auto; discriminate.
Qed.

(** What [correct_email] does with a string that is not blank, by the
    rule that applies. *)
Lemma correct_email_cases : forall log email,
  strip email <> [] ->
  normal (normalizado email) /\
  ((exists pre d x y,
       normalizado email = pre ++ "@" :: d ++ ["."; x; y] /\
       d <> [] /\ forallb is_domain_chr d = true /\
       lower_chr x = "c" /\ lower_chr y = "o" /\
       correct_email (MkEmailProcessor DOMINIOS_CONHECIDOS log) (PStr email)
       = Ok ((normalizado email ++ py "m", true),
             MkEmailProcessor DOMINIOS_CONHECIDOS
               (log ++ [Correction (normalizado email)
                          (normalizado email ++ py "m")])))
   \/
   (exists pre d suf ext,
       normalizado email = pre ++ "@" :: d ++ "." :: suf /\
       d <> [] /\ forallb is_domain_chr d = true /\ sufixo_c suf /\
       extensao_esperada d ext /\
       correct_email (MkEmailProcessor DOMINIOS_CONHECIDOS log) (PStr email)
       = Ok ((pre ++ "@" :: d ++ ext, true),
             MkEmailProcessor DOMINIOS_CONHECIDOS
               (log ++ [Correction (normalizado email)
                          (pre ++ "@" :: d ++ ext)])))
   \/
   (search PADRAO_1 (normalizado email) = None /\
    search PADRAO_2 (normalizado email) = None /\
    correct_email (MkEmailProcessor DOMINIOS_CONHECIDOS log) (PStr email)
    = Ok ((normalizado email, false),
          MkEmailProcessor DOMINIOS_CONHECIDOS log))).
Proof.
  intros log email Hne.
  pose proof (normalizado_normal email Hne) as Hn.
  split; [exact Hn|].
  destruct (search PADRAO_1 (normalizado email)) as [m1|] eqn:E1.
  { left. apply padrao1_search_shape in E1.
    destruct E1 as (pre & d & x & y & tail & E & Hd & Hf & Hx & Hy & Ht).
    assert (tail = []) as ->.
    { destruct Ht as [-> | ->]; [reflexivity|]. exfalso.
      apply (normalizado_no_newline_end email
               (pre ++ "@" :: d ++ ["."; x; y])).
      rewrite E. assoc_eq. }
    exists pre, d, x, y. repeat split; auto.
    apply (correct_email_rule1
             (MkEmailProcessor DOMINIOS_CONHECIDOS log) email pre d x y);
      auto. }
  destruct (search PADRAO_2 (normalizado email)) as [m2|] eqn:E2.
  { right. left. apply padrao2_search_shape in E2.
    destruct E2 as (pre & d & suf & tail & E & Hd & Hf & Hs & Ht & _).
    assert (tail = []) as ->.
    { destruct Ht as [-> | ->]; [reflexivity|]. exfalso.
      apply (normalizado_no_newline_end email
               (pre ++ "@" :: d ++ "." :: suf)).
      rewrite E. assoc_eq. }
    rewrite app_nil_r in E.
    destruct (correct_email_rule2 log email pre d suf E Hd Hf Hs)
      as (ext & Hext & Hres).
    exists pre, d, suf, ext. auto 10. }
  right. right. split; [reflexivity|]. split; [reflexivity|].
  rewrite (correct_email_unfold _ _ Hne). cbv zeta.
  rewrite E1, E2. reflexivity.
Qed.

Lemma correct_email_changed_cases : forall log s c b self',
  correct_email (MkEmailProcessor DOMINIOS_CONHECIDOS log) (PStr s)
    = Ok ((c, b), self') ->
  (b = true /\ length (normalizado s) < length c)
  \/ (b = false /\ c = normalizado s).
Proof.
  intros log s c b self' H.
  destruct (strip s) as [|c0 s0] eqn:Es.
  { rewrite correct_email_blank in H by assumption.
    injection H as <- <- _. right. unfold normalizado. rewrite Es. auto. }
  assert (Hne : strip s <> []) by (rewrite Es; discriminate).
  destruct (correct_email_cases log s Hne)
    as (_ & [(pre & d & x & y & _ & _ & _ & _ & _ & Hr)
            |[(pre & d & suf & ext & E & _ & _ & Hs & Hext & Hr)
             |(_ & _ & Hr)]]);
    rewrite Hr in H; injection H as <- <- _.
  - left. split; [reflexivity|]. rewrite length_app. simpl. lia.
  - left. split; [reflexivity|]. rewrite E.
    rewrite !length_app. cbn [length]. rewrite !length_app.
    destruct (extensao_esperada_values _ _ Hext) as [-> | ->];
      destruct Hs as [->|(z & -> & _)]; simpl; lia.
  - right. auto.
Qed.

(** X3. When [changed] is true the corrected string is longer than the
    trimmed input without its spaces, and when it is false the corrected
    string is that input: the flag is true exactly when the two
    differ. *)
Theorem X3_changed_iff_differs : forall log s c b self',
  correct_email (MkEmailProcessor DOMINIOS_CONHECIDOS log) (PStr s)
    = Ok ((c, b), self') ->
  (b = true -> length (normalizado s) < length c) /\
  (b = false -> c = normalizado s) /\
  (b = true <-> c <> normalizado s).
Proof.
  intros log s c b self' H.
  destruct (correct_email_changed_cases _ _ _ _ _ H) as [[-> L]|[-> E]].
  - split; [auto|]. split; [discriminate|].
    split; [|reflexivity]. intros _ Ec. rewrite Ec in L. lia.
  - split; [discriminate|]. split; [auto|].
    split; [discriminate|]. intros N. contradiction.
Qed.

Lemma X3_witness :
  (true = true ->
   length (normalizado (py "rui@clix.")) < length (py "rui@clix.pt")) /\
  (true = false -> py "rui@clix.pt" = normalizado (py "rui@clix.")) /\
  (true = true <-> py "rui@clix.pt" <> normalizado (py "rui@clix.")).
Proof.
  apply (X3_changed_iff_differs [] (py "rui@clix.") (py "rui@clix.pt") true
           (MkEmailProcessor DOMINIOS_CONHECIDOS
              [Correction (py "rui@clix.") (py "rui@clix.pt")])).
  vm_compute. reflexivity.
Defined.

(** The string [correct_email] returns is empty or in normal form. *)
Lemma correct_email_output_normal : forall log v c b self',
  correct_email (MkEmailProcessor DOMINIOS_CONHECIDOS log) v
    = Ok ((c, b), self') ->
  c = [] \/ normal c.
Proof.
  intros log v c b self' H.
  destruct (isinstance_str v) eqn:Hi.
  2:{ rewrite correct_email_nonstr in H by assumption.
      injection H as <- _ _. auto. }
  destruct v as [s| |]; try discriminate.
  destruct (strip s) as [|c0 s0] eqn:Es.
  { rewrite correct_email_blank in H by assumption.
    injection H as <- _ _. auto. }
  assert (Hne : strip s <> []) by (rewrite Es; discriminate).
  right.
  destruct (correct_email_cases log s Hne)
    as (Hn & [(pre & d & x & y & _ & _ & _ & _ & _ & Hr)
             |[(pre & d & suf & ext & E & _ & _ & Hs & Hext & Hr)
              |(_ & _ & Hr)]]);
    rewrite Hr in H; injection H as <- _ _.
  - apply (normal_replace_end (normalizado s) [] (py "m")).
    + destruct Hn as [Hn _]. exact Hn.
    + rewrite app_nil_r. exact Hn.
    + discriminate.
    + reflexivity.
  - replace (pre ++ "@" :: d ++ ext) with ((pre ++ "@" :: d) ++ ext)
      by assoc_eq.
    apply (normal_replace_end _ ("." :: suf)).
    + apply shape_nonnil.
    + replace ((pre ++ "@" :: d) ++ "." :: suf)
        with (pre ++ "@" :: d ++ "." :: suf) by assoc_eq.
      rewrite <- E. exact Hn.
    + destruct (extensao_esperada_values _ _ Hext) as [-> | ->];
        discriminate.
    + destruct (extensao_esperada_values _ _ Hext) as [-> | ->];
        reflexivity.
  - exact Hn.
Qed.

(** X4. Whatever string or other value [correct_email] is given, the
    string it returns has no space, no blank at either end, and is left
    as it is by a further trimming. *)
Theorem X4_corrected_is_normalised : forall log v c b self',
  correct_email (MkEmailProcessor DOMINIOS_CONHECIDOS log) v
    = Ok ((c, b), self') ->
  strip c = c /\ remove_spaces c = c /\ trimmed c.
Proof.
  intros log v c b self' H.
  destruct (correct_email_output_normal _ _ _ _ _ H)
    as [-> |(Hne & Ht & Hr)].
  - repeat split; reflexivity.
  - split; [apply trimmed_strip; exact Ht|]. split; assumption.
Qed.

Lemma X4_witness :
  strip (py "a.b@gmail.com") = py "a.b@gmail.com" /\
  remove_spaces (py "a.b@gmail.com") = py "a.b@gmail.com" /\
  trimmed (py "a.b@gmail.com").
Proof.
  apply (X4_corrected_is_normalised [] (PStr (py "  a.b @ gmail.c  "))
           (py "a.b@gmail.com") true
           (MkEmailProcessor DOMINIOS_CONHECIDOS
              [Correction (py "a.b@gmail.c") (py "a.b@gmail.com")])).
  vm_compute. reflexivity.
Defined.

Lemma alpha_rev2 : forall t,
  forallb is_alpha_chr t = true -> 2 <= length t ->
  exists b1 b2 r,
    rev t = b1 :: b2 :: r /\ is_alpha_chr b1 = true /\
    is_alpha_chr b2 = true /\ forallb is_alpha_chr r = true.
Proof.
  intros t H L.
  assert (Hr : forallb is_alpha_chr (rev t) = true).
  { rewrite forallb_forall in *. intros c Hin. apply H.
    apply in_rev. exact Hin. }
  assert (Lr : 2 <= length (rev t)) by (rewrite length_rev; exact L).
  destruct (rev t) as [|b1 [|b2 r]]; simpl in Lr; try lia.
  cbn [forallb] in Hr. apply andb_prop in Hr. destruct Hr as [H1 Hr].
  apply andb_prop in Hr. destruct Hr as [H2 Hr].
  exists b1, b2, r. auto.
Qed.

Lemma valida_rev : forall (l h t : str),
  rev (l ++ "@" :: h ++ "." :: t) = rev t ++ "." :: rev h ++ "@" :: rev l.
Proof.
  intros l h t.
  repeat (rewrite ?rev_app_distr; simpl). rewrite <- ?app_assoc.
  simpl. rewrite <- ?app_assoc. reflexivity.
Qed.

(** How a string of the accepted shape can end. *)
Lemma valida_ends : forall l h t u w,
  forallb is_alpha_chr t = true -> 2 <= length t ->
  l ++ "@" :: h ++ "." :: t = u ++ "." :: w ->
  length w <= 2 -> w = t.
Proof.
  intros l h t u w Ht Lt E Lw.
  apply (f_equal (@rev ascii)) in E. rewrite valida_rev in E.
  destruct (alpha_rev2 t Ht Lt) as (b1 & b2 & r & Er & H1 & H2 & Hr).
  rewrite Er in E.
  assert (Hdot : is_alpha_chr "." = false) by reflexivity.
  destruct w as [|x [|y [|z w]]]; simpl in Lw; try lia;
    repeat (rewrite ?rev_app_distr in E; simpl in E);
    rewrite <- ?app_assoc in E; simpl in E.
  - injection E as E _. subst b1. congruence.
  - injection E as _ E _. subst b2. congruence.
  - injection E as E1 E2 E. subst b1 b2.
    destruct r as [|b3 r].
    + apply (f_equal (@rev ascii)) in Er. rewrite rev_involutive in Er.
      rewrite Er. reflexivity.
    + simpl in E. injection E as E _. subst b3. cbn [forallb] in Hr.
      rewrite Hdot in Hr. discriminate.
Qed.

(** X5. An email that [validate_email] accepts is changed by
    [correct_email] only when it ends in [.co]: then an [m] is appended;
    otherwise it is returned as it is, trimmed and without spaces, with
    [changed = false] and nothing is logged. *)
Theorem X5_valid_email_changed_only_for_co : forall log s,
  validate_email (PStr s) = Ok true ->
  (termina_co (normalizado s) /\
   correct_email (MkEmailProcessor DOMINIOS_CONHECIDOS log) (PStr s)
   = Ok ((normalizado s ++ py "m", true),
         MkEmailProcessor DOMINIOS_CONHECIDOS
           (log ++ [Correction (normalizado s) (normalizado s ++ py "m")])))
  \/
  (~ termina_co (normalizado s) /\
   correct_email (MkEmailProcessor DOMINIOS_CONHECIDOS log) (PStr s)
   = Ok ((normalizado s, false), MkEmailProcessor DOMINIOS_CONHECIDOS log)).
Proof.
  intros log s Hv. apply validate_email_sound in Hv.
  destruct Hv as (l & h & t & E & Hl & Hfl & Hh & Hfh & Lt & Hft).
  assert (Hne : strip s <> []).
  { apply normalizado_nonnil. rewrite E. apply shape_nonnil. }
  destruct (correct_email_cases log s Hne)
    as (_ & [(pre & d & x & y & E1 & _ & _ & Hx & Hy & Hr)
            |[(pre & d & suf & ext & E2 & _ & _ & Hs & _ & _)
             |(N1 & _ & Hr)]]).
  - left. split; [|exact Hr].
    exists (pre ++ "@" :: d), x, y. split; [rewrite E1; assoc_eq|].
    cbn. rewrite Hx, Hy. reflexivity.
  - exfalso. rewrite E in E2.
    replace (pre ++ "@" :: d ++ "." :: suf)
      with ((pre ++ "@" :: d) ++ "." :: suf) in E2 by assoc_eq.
    assert (Lw : length suf <= 2)
      by (destruct Hs as [->|(z & -> & _)]; simpl; lia).
    pose proof (valida_ends _ _ _ _ _ Hft Lt E2 Lw) as Et.
    subst suf. destruct Hs as [->|(z & -> & _)]; simpl in Lt; lia.
  - right. split; [|exact Hr].
    intros (u & x & y & Eu & Hxy).
    rewrite E in Eu.
    assert (Et : [x; y] = t).
    { apply (valida_ends l h t u [x; y] Hft Lt Eu). simpl. lia. }
    subst t. injection Hxy as Hx Hy.
    apply (padrao1_search_intro l h x y Hh (host_is_domain _ Hfh) Hx Hy).
    rewrite <- E. exact N1.
Qed.

Lemma X5_witness :
  (termina_co (normalizado (py "ana@empresa.co")) /\
   correct_email (MkEmailProcessor DOMINIOS_CONHECIDOS []) (PStr (py "ana@empresa.co"))
   = Ok ((normalizado (py "ana@empresa.co") ++ py "m", true),
         MkEmailProcessor DOMINIOS_CONHECIDOS
           ([] ++ [Correction (normalizado (py "ana@empresa.co"))
                     (normalizado (py "ana@empresa.co") ++ py "m")])))
  \/
  (~ termina_co (normalizado (py "ana@empresa.co")) /\
   correct_email (MkEmailProcessor DOMINIOS_CONHECIDOS []) (PStr (py "ana@empresa.co"))
   = Ok ((normalizado (py "ana@empresa.co"), false),
         MkEmailProcessor DOMINIOS_CONHECIDOS [])).
Proof.
  apply (X5_valid_email_changed_only_for_co [] (py "ana@empresa.co")).
  vm_compute. reflexivity.
Defined.

(** X6. An address with a well-formed local part and host that was cut
    after the last dot, after [.c] or after [.co] is always repaired,
    and the repaired address is accepted by [validate_email]. *)
Theorem X6_repaired_address_is_valid : forall log email l h suf,
  normalizado email = l ++ "@" :: h ++ "." :: suf ->
  l <> [] -> forallb is_local_chr l = true ->
  h <> [] -> forallb is_host_chr h = true ->
  suf = [] \/ lower suf = py "c" \/ lower suf = py "co" ->
  exists c self',
    correct_email (MkEmailProcessor DOMINIOS_CONHECIDOS log) (PStr email)
    = Ok ((c, true), self') /\
    validate_email (PStr c) = Ok true.
Proof.
  intros log email l h suf E Hl Hfl Hh Hfh Hs.
  pose proof (host_is_domain _ Hfh) as Hfd.
  assert (Hc12 : sufixo_c suf \/ lower suf = py "co").
  { destruct Hs as [->|[Hs|Hs]]; [left; left; reflexivity| |right; exact Hs].
    left. right. destruct suf as [|x [|y suf]]; try discriminate.
    injection Hs as Hx. eauto. }
  destruct Hc12 as [Hs'|Hco].
  - destruct (correct_email_rule2 log email l h suf E Hh Hfd Hs')
      as (ext & Hext & Hr).
    eexists. eexists. split; [exact Hr|].
    apply forma_valida_validate.
    destruct (extensao_esperada_values _ _ Hext) as [-> | ->].
    + exists l, h, (py "com"). repeat split; auto. simpl. lia.
    + exists l, h, (py "pt"). repeat split; auto.
  - destruct suf as [|x [|y [|z suf]]]; try discriminate.
    injection Hco as Hx Hy.
    eexists. eexists. split.
    + apply (correct_email_rule1 _ email l h x y); assumption.
    + apply forma_valida_validate. rewrite E.
      exists l, h, [x; y; "m"]. split; [assoc_eq|].
      repeat split; auto; [simpl; lia|].
      destruct (lower_c _ Hx) as [-> | ->];
        destruct (lower_o _ Hy) as [-> | ->]; reflexivity.
Qed.

Lemma X6_witness :
  exists c self',
    correct_email (MkEmailProcessor DOMINIOS_CONHECIDOS [])
      (PStr (py "rui.melo@netcabo.")) = Ok ((c, true), self') /\
    validate_email (PStr c) = Ok true.
Proof.
  apply (X6_repaired_address_is_valid [] (py "rui.melo@netcabo.")
           (py "rui.melo") (py "netcabo") []).
  - reflexivity.
  - discriminate.
  - reflexivity.
  - discriminate.
  - reflexivity.
  - left. reflexivity.
Defined.

(** ** The rows of the table *)

(** The pair [correct_email] returns and the entry it logs are the same
    from any log. *)
Lemma correct_email_any_log : forall l1 e c b self1,
  correct_email (MkEmailProcessor DOMINIOS_CONHECIDOS l1) (PStr e)
    = Ok ((c, b), self1) ->
  forall l2,
    correct_email (MkEmailProcessor DOMINIOS_CONHECIDOS l2) (PStr e)
    = Ok ((c, b),
          MkEmailProcessor DOMINIOS_CONHECIDOS
            (l2 ++ if b then [Correction (normalizado e) c] else [])).
Proof.
  intros l1 e c b self1 H l2.
  destruct (strip e) as [|c0 s0] eqn:Es.
  { rewrite correct_email_blank in * by assumption.
    injection H as <- <- _. rewrite app_nil_r. reflexivity. }
  assert (Hne : strip e <> []) by (rewrite Es; discriminate).
  rewrite (correct_email_unfold (MkEmailProcessor DOMINIOS_CONHECIDOS l1)
             _ Hne) in H.
  rewrite (correct_email_unfold (MkEmailProcessor DOMINIOS_CONHECIDOS l2)
             _ Hne).
  cbv zeta in *. cbn [common_domains] in *.
  destruct (search PADRAO_1 (normalizado e)) as [m1|].
  { injection H as <- <- _. reflexivity. }
  destruct (search PADRAO_2 (normalizado e)) as [m2|].
  2:{ injection H as <- <- _. rewrite app_nil_r. reflexivity. }
  destruct (group1 (Some m2)) as [g|x]; cbn [bind] in *; [|discriminate].
  destruct (known_domain_loop DOMINIOS_CONHECIDOS (lower g) (normalizado e))
    as [[c' w]|x]; cbn [bind] in *; [|discriminate].
  cbv zeta in *. injection H as <- <- _. reflexivity.
Qed.

Lemma forma_email_sem_brancos : forall e,
  forma_email e -> sem_brancos e = true.
Proof.
  intros e (l & d & t & -> & _ & Hl & _ & Hd & _ & Ht).
  unfold sem_brancos. rewrite forallb_app. cbn [forallb].
  rewrite forallb_app. cbn [forallb].
  assert (A : forall p : ascii -> bool,
             (forall c, p c = true -> is_space c = false) ->
             forall w, forallb p w = true ->
                       forallb (fun c => negb (is_space c)) w = true).
  { intros p Hp w Hw. rewrite forallb_forall in *. intros c Hin.
    rewrite (Hp c (Hw c Hin)). reflexivity. }
  rewrite (A is_domain_chr domain_chr_not_space l Hl),
    (A is_domain_chr domain_chr_not_space d Hd), (A is_tld_chr); auto.
  intros c; ascii_cases c; vm_compute; intros H; auto; discriminate.
Qed.

Lemma email_da_linha_forma : forall linha,
  email_da_linha linha = [] \/ forma_email (email_da_linha linha).
Proof.
  intros linha. unfold email_da_linha.
  destruct (search RE_EMAIL linha) as [me|] eqn:E; [|left; reflexivity].
  right.
  destruct (search_forma_some RE_EMAIL forma_email re_email_den
              re_email_den_intro linha me E) as (HF & _). exact HF.
Qed.

Lemma email_da_linha_normal : forall linha,
  normalizado (email_da_linha linha) = email_da_linha linha.
Proof.
  intros linha. destruct (email_da_linha_forma linha) as [-> |HF].
  - reflexivity.
  - apply sem_brancos_normalizado, forma_email_sem_brancos. exact HF.
Qed.

Lemma lstrip_incl : forall s x, In x (lstrip s) -> In x s.
Proof.
  induction s as [|c s IH]; intros x H; simpl in *; auto.
  destruct (is_space c); [right; auto|exact H].
Qed.

Lemma strip_incl : forall s x, In x (strip s) -> In x s.
Proof.
  intros s x H. unfold strip, rstrip in H.
  apply in_rev in H. apply lstrip_incl in H. apply in_rev in H.
  apply lstrip_incl in H. exact H.
Qed.

Lemma nome_upper_not_space : forall c,
  is_nome_upper c = true -> is_space c = false /\ is_nome_chr c = true.
Proof.
  intros c. ascii_cases c; vm_compute; intros H; auto; discriminate.
Qed.

(** The group of the name pattern starts with a capital letter and holds
    only characters of the name class. *)
Lemma re_nome_group_shape : forall s m,
  re_match RE_NOME s = Some m ->
  exists c w, m_group m = Some (c :: w) /\ is_nome_upper c = true /\
              forallb is_nome_chr w = true.
Proof.
  intros s m H. unfold re_match in H. apply match_at_sound in H.
  destruct H as (w0 & s' & _ & D & _).
  unfold RE_NOME in D. cbn [den] in D.
  destruct D as (st1 & Dg & _ & E2).
  change (den (Grp (Seq (Cls is_nome_upper) (RepLazy 1 is_nome_chr)))
            (MState 0 (w0 ++ s') None) st1) in Dg.
  apply den_grp_text in Dg. destruct Dg as (w & g1 & Hw & Hg & D).
  cbn [den] in D. den_break.
  cbn [pos rest grp] in *.
  injection D as _ Hr _. subst x1.
  match goal with H : w0 ++ s' = _ :: _ ++ _ |- _ => rename H into E' end.
  rewrite Hw in E'.
  change (x2 :: x0 ++ s') with ((x2 :: x0) ++ s') in E'.
  apply app_inv_tail in E'. subst w.
  exists x2, x0. auto.
Qed.

Lemma lstrip_app_incl : forall c (l u : str),
  lstrip (l ++ [c]) = u ++ [c] -> forall y, In y u -> In y l.
Proof.
  intros c. induction l as [|a l IH]; intros u E y Hy.
  - cbn [app lstrip] in E. destruct (is_space c).
    + destruct u; discriminate.
    + destruct u as [|b u]; [destruct Hy|].
      destruct u; discriminate.
  - cbn [app lstrip] in E. destruct (is_space a).
    + right. exact (IH u E y Hy).
    + change (a :: l ++ [c]) with ((a :: l) ++ [c]) in E.
      apply app_inv_tail in E. subst u. exact Hy.
Qed.

(** Stripping a text that starts with a character that is not a blank
    keeps that character first. *)
Lemma strip_keeps_head : forall c w,
  is_space c = false ->
  exists w', strip (c :: w) = c :: w' /\ forall x, In x w' -> In x w.
Proof.
  intros c w Hc. unfold strip. rewrite (lstrip_fix c w Hc). unfold rstrip.
  replace (rev (c :: w)) with (rev w ++ [c]) by reflexivity.
  destruct (lstrip_app_keep (rev w) c Hc) as (u & Eu). rewrite Eu.
  rewrite rev_app_distr. exists (rev u). split; [reflexivity|].
  intros x Hin. apply in_rev in Hin. apply in_rev.
  exact (lstrip_app_incl c (rev w) u Eu x Hin).
Qed.

(** The name read from the text after the identifier. *)
Lemma nome_shape : forall resto,
  exists n,
    match re_match RE_NOME resto with
    | Some match_nome => g <- group1 (Some match_nome) ;; Ok (strip g)
    | None => Ok []
    end = Ok n /\ nome_bem_formado n.
Proof.
  intros resto.
  destruct (re_match RE_NOME resto) as [mn|] eqn:En.
  2:{ exists []. split; [reflexivity|]. left. reflexivity. }
  destruct (re_nome_group_shape _ _ En) as (c & w & Hg & Hc & Hw).
  unfold group1. rewrite Hg. cbn [bind].
  destruct (nome_upper_not_space c Hc) as [Hsp Hnc].
  destruct (strip_keeps_head c w Hsp) as (w' & E & Hin).
  exists (strip (c :: w)). split; [reflexivity|]. right.
  exists c, w'. split; [exact E|]. split; [exact Hc|].
  split; [|apply strip_trimmed].
  rewrite forallb_forall in *. intros x Hx. apply Hw, Hin, Hx.
Qed.

(** The row of a line that holds an identifier, in full. *)
Lemma linha_body_row : forall sa rows log linha,
  tem_id linha = true ->
  exists r,
    linha_body (PState sa rows (MkEmailProcessor DOMINIOS_CONHECIDOS log))
      linha
    = Ok (PState (secao_apos sa linha) (rows ++ [r])
            (MkEmailProcessor DOMINIOS_CONHECIDOS
               (log ++ if Email_Foi_Alterado r
                       then [correcao_da_linha r] else []))) /\
    ID_Dador r = id_da_linha linha /\
    Email_Original r = email_da_linha linha /\
    linha_coerente r /\
    ano_coerente r.
Proof.
  intros sa rows log linha Hid. unfold tem_id in Hid.
  destruct (search RE_ID linha) as [m|] eqn:Eid; [clear Hid|discriminate].
  destruct (linha_body_spec sa rows log linha)
    as ([sa1 rows1 ep1] & Hb & Hsa & _ & Hrows).
  rewrite Eid in Hrows. destruct Hrows as (r & Hd & Hidr & _ & _ & Heo & Hano).
  cbn [status_atual dados email_processor] in *. subst sa1 rows1.
  exists r. rewrite Hb.
  assert (Hido : ID_Dador r = id_da_linha linha).
  { unfold id_da_linha. rewrite Eid. exact Hidr. }
  fold (email_da_linha linha) in Heo.
  (* the columns of the row, read off the body of the loop *)
  unfold linha_body in Hb. cbv zeta in Hb.
  cbn [status_atual dados email_processor] in Hb. rewrite Eid in Hb.
  destruct (search_id_group _ _ Eid) as [Hg _].
  unfold group1 at 1 in Hb. rewrite Hg in Hb. cbn [bind] in Hb.
  fold (email_da_linha linha) in Hb.
  destruct (correct_email (MkEmailProcessor DOMINIOS_CONHECIDOS log)
              (PStr (email_da_linha linha)))
    as [[[c b] p']|e] eqn:Hc; cbn [bind] in Hb; [|discriminate].
  destruct (validate_email (PStr c)) as [tb|e] eqn:Hv;
    cbn [bind] in Hb; [|discriminate].
  destruct (nome_shape (strip (skipn (m_end m) linha))) as (n & En & Hn).
  rewrite En in Hb. cbn [bind] in Hb.
  match type of Hb with
  | (x <- ?a ;; _) = _ => destruct a as [ano|e]; cbn [bind] in Hb;
                          [|discriminate]
  end.
  assert (Er : r = Row (m_text m) n (email_da_linha linha) c b
                     (if contains (py "APTO") (upper linha) then APTO
                      else if contains (py "SUSPENSO") (upper linha)
                           then SUSPENSO
                      else if contains (py "ELIMINADO") (upper linha)
                           then ELIMINADO
                      else if contains (py "APTOS") (upper linha) then APTO
                      else if contains (py "SUSPENSOS") (upper linha)
                           then SUSPENSO
                      else if contains (py "ELIMINADOS") (upper linha)
                           then ELIMINADO else sa) tb ano).
  { assert (E : rows ++ [r] = rows ++ [Row (m_text m) n (email_da_linha linha)
                     c b
                     (if contains (py "APTO") (upper linha) then APTO
                      else if contains (py "SUSPENSO") (upper linha)
                           then SUSPENSO
                      else if contains (py "ELIMINADO") (upper linha)
                           then ELIMINADO
                      else if contains (py "APTOS") (upper linha) then APTO
                      else if contains (py "SUSPENSOS") (upper linha)
                           then SUSPENSO
                      else if contains (py "ELIMINADOS") (upper linha)
                           then ELIMINADO else sa) tb ano]) by congruence.
    apply app_inv_head in E. congruence. }
  assert (Ep : ep1 = p') by congruence.
  pose proof (correct_email_any_log _ _ _ _ _ Hc) as Hany.
  rewrite email_da_linha_normal in Hany.
  assert (Ecols : Email_Original r = email_da_linha linha /\
                  Email_Corrigido r = c /\ Email_Foi_Alterado r = b /\
                  Tem_Email r = tb /\ Nome r = n).
  { rewrite Er. cbn. auto. }
  destruct Ecols as (E1 & E2 & E3 & E4 & E5).
  split.
  { f_equal. f_equal. rewrite Ep. rewrite (Hany log) in Hc.
    injection Hc as <-. unfold correcao_da_linha. rewrite E1, E2, E3.
    reflexivity. }
  split; [exact Hido|]. split; [exact E1|]. split; [|exact Hano].
  unfold linha_coerente, correcao_da_linha. rewrite E1, E2, E3, E4, E5.
  split; [exact Hany|]. split; [exact Hv|].
  split; [apply email_da_linha_forma|exact Hn].
Qed.

(** A line without an identifier changes the section state only. *)
Lemma linha_body_skip : forall st linha,
  tem_id linha = false ->
  linha_body st linha
  = Ok (PState (secao_apos (status_atual st) linha) (dados st)
          (email_processor st)).
Proof.
  intros st linha H. unfold tem_id in H. unfold linha_body. cbv zeta.
  destruct (search RE_ID linha); [discriminate|].
  unfold secao_apos, header_keyword.
  destruct (contains (py "APTOS") (upper linha)); [reflexivity|].
  destruct (contains (py "SUSPENSOS") (upper linha)); [reflexivity|].
  destruct (contains (py "ELIMINADOS") (upper linha)); reflexivity.
Qed.

(** The rows a run of lines adds to the table and the entries it adds
    to the log. *)
Lemma linhas_loop_rows : forall linhas sa rows log,
  exists new,
    linhas_loop (PState sa rows (MkEmailProcessor DOMINIOS_CONHECIDOS log))
      linhas
    = Ok (PState (fold_left secao_apos linhas sa) (rows ++ new)
            (MkEmailProcessor DOMINIOS_CONHECIDOS
               (log ++ map correcao_da_linha
                         (filter Email_Foi_Alterado new)))) /\
    map ID_Dador new = map id_da_linha (filter tem_id linhas) /\
    map Email_Original new = map email_da_linha (filter tem_id linhas) /\
    Forall linha_coerente new /\
    Forall ano_coerente new.
Proof.
  induction linhas as [|linha linhas IH]; intros sa rows log.
  - exists []. cbn. rewrite !app_nil_r. auto.
  - cbn [linhas_loop filter fold_left].
    destruct (tem_id linha) eqn:Hid.
    + destruct (linha_body_row sa rows log linha Hid)
        as (r & Hb & Hi & He & Hc & Ha).
      rewrite Hb. cbn [bind].
      destruct (IH (secao_apos sa linha) (rows ++ [r])
                  (log ++ if Email_Foi_Alterado r
                          then [correcao_da_linha r] else []))
        as (new & Hl & Hids & Hes & Hcs & Has).
      exists (r :: new). rewrite Hl. split.
      * f_equal. f_equal.
        -- rewrite <- app_assoc. reflexivity.
        -- f_equal. rewrite <- app_assoc. f_equal. cbn [filter].
           destruct (Email_Foi_Alterado r); reflexivity.
      * cbn [map]. rewrite Hi, He, Hids, Hes. auto.
    + rewrite linha_body_skip by exact Hid. cbn [bind].
      cbn [status_atual dados email_processor]. apply IH.
Qed.

(** A successful parse read the text of every page. *)
Lemma extrair_ok_textos : forall self caminho_pdf df self',
  extrair_emails_pdf self caminho_pdf = Ok (df, self') ->
  exists textos, caminho_pdf = Ok (map Ok textos).
Proof.
  intros self caminho_pdf df self' H. unfold extrair_emails_pdf in H.
  destruct caminho_pdf as [paginas|e]; cbn [bind] in H;
    [|destruct (is_Exception e); discriminate].
  destruct (paginas_loop (PState INDEFINIDO [] self) paginas)
    as [st|e] eqn:Hp; [|destruct (is_Exception e); discriminate].
  destruct (paginas_loop_ok _ _ _ Hp) as (textos & ->). eauto.
Qed.

(** The table and the log of a parse, from the lines of the document. *)
Lemma extrair_rows : forall log caminho_pdf df self',
  extrair_emails_pdf (MkEmailProcessor DOMINIOS_CONHECIDOS log) caminho_pdf
    = Ok (df, self') ->
  exists textos,
    caminho_pdf = Ok (map Ok textos) /\
    self' = MkEmailProcessor DOMINIOS_CONHECIDOS
              (log ++ map correcao_da_linha (filter Email_Foi_Alterado df)) /\
    map ID_Dador df = map id_da_linha (filter tem_id (doc_lines textos)) /\
    map Email_Original df
      = map email_da_linha (filter tem_id (doc_lines textos)) /\
    Forall linha_coerente df /\
    Forall ano_coerente df.
Proof.
  intros log caminho_pdf df self' H.
  destruct (extrair_ok_textos _ _ _ _ H) as (textos & ->).
  exists textos. split; [reflexivity|].
  rewrite extrair_flat in H.
  destruct (linhas_loop_rows (doc_lines textos) INDEFINIDO [] log)
    as (new & Hl & Hids & Hes & Hcs & Has).
  rewrite Hl in H. cbn [dados email_processor app] in H.
  injection H as <- <-. auto.
Qed.

Lemma email_original_normal : forall e,
  e = [] \/ forma_email e -> normalizado e = e.
Proof.
  intros e [-> |HF]; [reflexivity|].
  apply sem_brancos_normalizado, forma_email_sem_brancos. exact HF.
Qed.

Lemma digit_val_range : forall c,
  is_digit c = true -> (0 <= digit_val c <= 9)%Z.
Proof.
  intros c. ascii_cases c; vm_compute; intros H;
    first [discriminate | split; discriminate].
Qed.

(** X7. After a parse, the log of the processor is the log it had
    before followed by one entry for each row whose email was altered,
    in the order of the rows, each entry holding the original and the
    corrected email of its row; the table of known domains is as
    before. *)
Theorem X7_log_lists_altered_rows : forall log caminho_pdf df self',
  extrair_emails_pdf (MkEmailProcessor DOMINIOS_CONHECIDOS log) caminho_pdf
    = Ok (df, self') ->
  corrections_log self'
    = log ++ map correcao_da_linha (filter Email_Foi_Alterado df) /\
  common_domains self' = DOMINIOS_CONHECIDOS /\
  length (corrections_log self')
    = length log + length (filter Email_Foi_Alterado df).
Proof.
  intros log caminho_pdf df self' H.
  destruct (extrair_rows _ _ _ _ H) as (textos & _ & -> & _).
  cbn [corrections_log common_domains].
  rewrite length_app, length_map. auto.
Qed.

Lemma X7_witness :
  corrections_log
    (MkEmailProcessor DOMINIOS_CONHECIDOS
       [Correction (py "ana@sapo.c") (py "ana@sapo.pt")])
    = [] ++ map correcao_da_linha
              (filter Email_Foi_Alterado
                 [Row (py "SP.A1.2/21") (py "ANA") (py "ana@sapo.c")
                      (py "ana@sapo.pt") true APTO true None]) /\
  common_domains
    (MkEmailProcessor DOMINIOS_CONHECIDOS
       [Correction (py "ana@sapo.c") (py "ana@sapo.pt")])
    = DOMINIOS_CONHECIDOS /\
  length (corrections_log
            (MkEmailProcessor DOMINIOS_CONHECIDOS
               [Correction (py "ana@sapo.c") (py "ana@sapo.pt")]))
    = length (@nil correction)
      + length (filter Email_Foi_Alterado
                  [Row (py "SP.A1.2/21") (py "ANA") (py "ana@sapo.c")
                       (py "ana@sapo.pt") true APTO true None]).
Proof.
  apply (X7_log_lists_altered_rows []
           (Ok [Ok (Some (py "Lista de APTOS"));
                Ok (Some (py "SP.A1.2/21 ANA ana@sapo.c"))])).
  vm_compute. reflexivity.
Defined.

(** X8. In every row of a parse the email columns agree: the email is
    marked as altered exactly when the corrected email differs from the
    original one, and it is then longer; the row is marked as having an
    email exactly when the corrected email has the shape
    [validate_email] accepts; and a row without an original email has an
    empty corrected email, is not marked as altered and has no email. *)
Theorem X8_email_columns_agree : forall log caminho_pdf df self' r,
  extrair_emails_pdf (MkEmailProcessor DOMINIOS_CONHECIDOS log) caminho_pdf
    = Ok (df, self') ->
  In r df ->
  (Email_Foi_Alterado r = false <-> Email_Corrigido r = Email_Original r) /\
  (Email_Foi_Alterado r = true ->
   length (Email_Original r) < length (Email_Corrigido r)) /\
  (Tem_Email r = true <-> forma_valida (Email_Corrigido r)) /\
  (Email_Original r = [] ->
   Email_Corrigido r = [] /\ Email_Foi_Alterado r = false /\
   Tem_Email r = false).
Proof.
  intros log caminho_pdf df self' r H Hin.
  destruct (extrair_rows _ _ _ _ H) as (textos & _ & _ & _ & _ & Hco & _).
  rewrite Forall_forall in Hco.
  destruct (Hco r Hin) as (Hc & Hv & Hf & _).
  pose proof (email_original_normal _ Hf) as Hn.
  specialize (Hc []). cbn [app] in Hc.
  pose proof (correct_email_changed_cases _ _ _ _ _ Hc) as Hcases.
  rewrite Hn in Hcases.
  assert (Hcn : normalizado (Email_Corrigido r) = Email_Corrigido r).
  { destruct (correct_email_output_normal _ _ _ _ _ Hc) as [-> |Hnorm].
    - reflexivity.
    - apply normal_fix. exact Hnorm. }
  split; [|split; [|split]].
  - destruct Hcases as [[Hb L]|[Hb E]]; split; intros A.
    + congruence.
    + rewrite A in L. lia.
    + exact E.
    + exact Hb.
  - intros Hb. destruct Hcases as [[_ L]|[Hb' _]]; [exact L|congruence].
  - split; intros A.
    + rewrite A in Hv. apply validate_email_sound in Hv.
      rewrite Hcn in Hv. exact Hv.
    + apply forma_valida_validate in A. congruence.
  - intros E. rewrite E in Hc.
    rewrite correct_email_blank in Hc by reflexivity.
    injection Hc as E1 E2. rewrite <- E1 in Hv.
    split; [auto|]. split; [auto|].
    change (validate_email (PStr [])) with (Ok false) in Hv. congruence.
Qed.

Lemma X8_witness :
  (true = false <-> py "ana@sapo.pt" = py "ana@sapo.c") /\
  (true = true -> length (py "ana@sapo.c") < length (py "ana@sapo.pt")) /\
  (true = true <-> forma_valida (py "ana@sapo.pt")) /\
  (py "ana@sapo.c" = [] ->
   py "ana@sapo.pt" = [] /\ true = false /\ true = false).
Proof.
  apply (X8_email_columns_agree []
           (Ok [Ok (Some (py "Lista de APTOS"));
                Ok (Some (py "SP.A1.2/21 ANA ana@sapo.c"))])
           [Row (py "SP.A1.2/21") (py "ANA") (py "ana@sapo.c")
                (py "ana@sapo.pt") true APTO true None]
           (MkEmailProcessor DOMINIOS_CONHECIDOS
              [Correction (py "ana@sapo.c") (py "ana@sapo.pt")])
           (Row (py "SP.A1.2/21") (py "ANA") (py "ana@sapo.c")
                (py "ana@sapo.pt") true APTO true None)).
  - vm_compute. reflexivity.
  - left. reflexivity.
Defined.

Lemma id_da_linha_forma : forall linha,
  tem_id linha = true -> forma_id (id_da_linha linha).
Proof.
  intros linha H. unfold tem_id in H. unfold id_da_linha.
  destruct (search RE_ID linha) as [m|] eqn:E; [|discriminate].
  destruct (search_id_group _ _ E) as [_ HF]. exact HF.
Qed.

(** X9. A document whose pages all give their text is parsed without an
    exception into one row for each line that holds an identifier, in
    reading order over all pages: the identifier column lists the
    leftmost identifier of each such line and the original-email column
    the leftmost email-shaped text of the line, or the empty string.
    Every identifier of the table has the shape of the identifier
    pattern and every original email is empty or email-shaped. *)
Theorem X9_rows_in_reading_order : forall log textos,
  exists df self',
    extrair_emails_pdf (MkEmailProcessor DOMINIOS_CONHECIDOS log)
      (Ok (map Ok textos)) = Ok (df, self') /\
    map ID_Dador df = map id_da_linha (filter tem_id (doc_lines textos)) /\
    map Email_Original df
      = map email_da_linha (filter tem_id (doc_lines textos)) /\
    length df = length (filter tem_id (doc_lines textos)) /\
    Forall forma_id (map ID_Dador df) /\
    Forall (fun e => e = [] \/ forma_email e) (map Email_Original df).
Proof.
  intros log textos. rewrite extrair_flat.
  destruct (linhas_loop_rows (doc_lines textos) INDEFINIDO [] log)
    as (new & Hl & Hids & Hes & _).
  rewrite Hl. cbn [dados email_processor app].
  eexists. eexists. split; [reflexivity|].
  split; [exact Hids|]. split; [exact Hes|].
  split; [rewrite <- (length_map ID_Dador), Hids, length_map; reflexivity|].
  rewrite Hids, Hes. split; apply Forall_map, Forall_forall; intros l Hin.
  - apply filter_In in Hin. apply id_da_linha_forma, Hin.
  - apply email_da_linha_forma.
Qed.

(** X10. The name of every row of a parse is empty or starts with a
    capital letter of the name pattern, holds only letters and blanks of
    that pattern and has no blank at either end. *)
Theorem X10_name_shape : forall log caminho_pdf df self' r,
  extrair_emails_pdf (MkEmailProcessor DOMINIOS_CONHECIDOS log) caminho_pdf
    = Ok (df, self') ->
  In r df ->
  nome_bem_formado (Nome r).
Proof.
  intros log caminho_pdf df self' r H Hin.
  destruct (extrair_rows _ _ _ _ H) as (textos & _ & _ & _ & _ & Hco & _).
  rewrite Forall_forall in Hco.
  destruct (Hco r Hin) as (_ & _ & _ & Hn). exact Hn.
Qed.

Lemma X10_witness :
  nome_bem_formado (py "RUI SILVA").
Proof.
  apply (X10_name_shape []
           (Ok [Ok (Some (py "ELIMINADOS" ++ "010"%char
                          :: py "SL.B2.7/49 RUI SILVA 01/02/2049 rui@x.pt"))])
           [Row (py "SL.B2.7/49") (py "RUI SILVA") (py "rui@x.pt")
                (py "rui@x.pt") false ELIMINADO true (Some 2049%Z)]
           (MkEmailProcessor DOMINIOS_CONHECIDOS [])
           (Row (py "SL.B2.7/49") (py "RUI SILVA") (py "rui@x.pt")
                (py "rui@x.pt") false ELIMINADO true (Some 2049%Z))).
  - vm_compute. reflexivity.
  - left. reflexivity.
Defined.

(** X11. A registration year in the table of a parse lies between 1950
    and 2049, and only rows of status [ELIMINADO] have one. *)
Theorem X11_year_range : forall log caminho_pdf df self' r y,
  extrair_emails_pdf (MkEmailProcessor DOMINIOS_CONHECIDOS log) caminho_pdf
    = Ok (df, self') ->
  In r df ->
  Ano_Registo r = Some y ->
  (1950 <= y <= 2049)%Z /\ Status r = ELIMINADO.
Proof.
  intros log caminho_pdf df self' r y H Hin Hy.
  destruct (extrair_rows _ _ _ _ H) as (textos & _ & _ & _ & _ & _ & Ha).
  rewrite Forall_forall in Ha.
  destruct (Ha r Hin) as (Hiff & Hval).
  split.
  - destruct (Hval y Hy) as (yy & (pre & a & b & _ & Da & Db & ->) & Hlo & Hhi).
    pose proof (digit_val_range a Da). pose proof (digit_val_range b Db).
    destruct (Z.lt_ge_cases (10 * digit_val a + digit_val b) 50) as [L|L].
    + rewrite (Hlo L). lia.
    + rewrite (Hhi L). lia.
  - apply Hiff. rewrite Hy. discriminate.
Qed.

Lemma X11_witness :
  (1950 <= 2049 <= 2049)%Z /\ ELIMINADO = ELIMINADO.
Proof.
  apply (X11_year_range []
           (Ok [Ok (Some (py "ELIMINADOS" ++ "010"%char
                          :: py "SL.B2.7/49 RUI SILVA 01/02/2049 rui@x.pt"))])
           [Row (py "SL.B2.7/49") (py "RUI SILVA") (py "rui@x.pt")
                (py "rui@x.pt") false ELIMINADO true (Some 2049%Z)]
           (MkEmailProcessor DOMINIOS_CONHECIDOS [])
           (Row (py "SL.B2.7/49") (py "RUI SILVA") (py "rui@x.pt")
                (py "rui@x.pt") false ELIMINADO true (Some 2049%Z))
           2049%Z).
  - vm_compute. reflexivity.
  - left. reflexivity.
  - reflexivity.
Defined.

(** ** Pages added to a document *)

(** X12. When the parse of a document succeeds, the parse of any
    leading part of its pages succeeds too, and the table and the log of
    the whole document extend those of the leading part: later pages
    only add rows and log entries after the earlier ones. *)
Theorem X12_later_pages_only_append : forall log paginas mais df self',
  extrair_emails_pdf (MkEmailProcessor DOMINIOS_CONHECIDOS log)
    (Ok (paginas ++ mais)) = Ok (df, self') ->
  exists df1 self1 df2 log2,
    extrair_emails_pdf (MkEmailProcessor DOMINIOS_CONHECIDOS log)
      (Ok paginas) = Ok (df1, self1) /\
    df = df1 ++ df2 /\
    corrections_log self' = corrections_log self1 ++ log2.
Proof.
  intros log paginas mais df self' H.
  unfold extrair_emails_pdf in *. cbn [bind] in *.
  rewrite paginas_loop_app in H.
  destruct (paginas_loop
              (PState INDEFINIDO [] (MkEmailProcessor DOMINIOS_CONHECIDOS log))
              paginas) as [st1|e] eqn:Hp1;
    [|cbn [bind] in H; destruct (is_Exception e); discriminate].
  cbn [bind] in H.
  destruct (paginas_loop st1 mais) as [st2|e] eqn:Hp2;
    [|destruct (is_Exception e); discriminate].
  injection H as <- <-.
  destruct (paginas_loop_ok _ _ _ Hp1) as (t1 & ->).
  destruct (paginas_loop_ok _ _ _ Hp2) as (t2 & ->).
  rewrite paginas_loop_flat in Hp1, Hp2.
  destruct (linhas_loop_rows (doc_lines t1) INDEFINIDO [] log)
    as (new1 & Hl1 & _).
  rewrite Hl1 in Hp1. cbn [app] in Hp1.
  assert (E1 : st1 = PState (fold_left secao_apos (doc_lines t1) INDEFINIDO)
                       new1
                       (MkEmailProcessor DOMINIOS_CONHECIDOS
                          (log ++ map correcao_da_linha
                                    (filter Email_Foi_Alterado new1))))
    by congruence.
  subst st1. clear Hp1.
  destruct (linhas_loop_rows (doc_lines t2)
              (fold_left secao_apos (doc_lines t1) INDEFINIDO) new1
              (log ++ map correcao_da_linha (filter Email_Foi_Alterado new1)))
    as (new2 & Hl2 & _).
  rewrite Hl2 in Hp2.
  assert (E2 : st2 = PState (fold_left secao_apos (doc_lines t2)
                               (fold_left secao_apos (doc_lines t1)
                                  INDEFINIDO))
                       (new1 ++ new2)
                       (MkEmailProcessor DOMINIOS_CONHECIDOS
                          ((log ++ map correcao_da_linha
                                     (filter Email_Foi_Alterado new1))
                           ++ map correcao_da_linha
                                (filter Email_Foi_Alterado new2))))
    by congruence.
  subst st2. clear Hp2.
  cbn [dados email_processor corrections_log app].
  exists new1, (MkEmailProcessor DOMINIOS_CONHECIDOS
                  (log ++ map correcao_da_linha
                            (filter Email_Foi_Alterado new1))),
    new2, (map correcao_da_linha (filter Email_Foi_Alterado new2)).
  cbn [corrections_log]. auto.
Qed.

Lemma X12_witness :
  exists df1 self1 df2 log2,
    extrair_emails_pdf (MkEmailProcessor DOMINIOS_CONHECIDOS [])
      (Ok [Ok (Some (py "Lista de APTOS"));
           Ok (Some (py "SP.A1.2/21 ANA ana@sapo.c"))]) = Ok (df1, self1) /\
    [Row (py "SP.A1.2/21") (py "ANA") (py "ana@sapo.c")
         (py "ana@sapo.pt") true APTO true None;
     Row (py "SC.B2.7/19") (py "RUI") (py "rui@clix.c")
         (py "rui@clix.pt") true APTO true None] = df1 ++ df2 /\
    corrections_log
      (MkEmailProcessor DOMINIOS_CONHECIDOS
         [Correction (py "ana@sapo.c") (py "ana@sapo.pt");
          Correction (py "rui@clix.c") (py "rui@clix.pt")])
    = corrections_log self1 ++ log2.
Proof.
  apply (X12_later_pages_only_append []
           [Ok (Some (py "Lista de APTOS"));
            Ok (Some (py "SP.A1.2/21 ANA ana@sapo.c"))]
           [Ok (Some (py "SC.B2.7/19 RUI rui@clix.c"))]).
  vm_compute. reflexivity.
Defined.

(** ** The report of a run *)

Lemma obs_gerar : forall (B : Type) (f : rline -> list B)
    ano_agora agora df ep,
  flat_map f (gerar_lista_emails ano_agora agora df ep) =
  flat_map f [Regua; Titulo; GeradoEm agora; Regua; Vazia]
  ++ flat_map f [Estatisticas; TotalValidos (length (filter Tem_Email df));
                 Corrigidos (length (filter Email_Foi_Alterado df));
                 Cobertura (length (filter Tem_Email df)) (length df); Vazia]
  ++ (flat_map f (secao (ano_de_corte ano_agora df) df APTO)
      ++ flat_map f (secao (ano_de_corte ano_agora df) df SUSPENSO)
      ++ flat_map f (secao (ano_de_corte ano_agora df) df ELIMINADO))
  ++ flat_map f
       (if Nat.ltb 0 (length (filter Email_Foi_Alterado df))
        then [Regua; RelatorioCorrecoes; Regua; Vazia]
             ++ map Correcao (corrections_log ep)
        else []).
Proof.
  intros B f ano_agora agora df ep. unfold gerar_lista_emails. cbv zeta.
  rewrite !flat_map_app. f_equal. f_equal. f_equal.
  cbn [flat_map]. rewrite !flat_map_app, app_nil_r. reflexivity.
Qed.

Lemma obs_secao : forall (B : Type) (f : rline -> list B) corte df s,
  flat_map f (secao corte df s) =
  flat_map f [Regua; Cabecalho s; Regua; Vazia]
  ++ flat_map f (if status_eqb s ELIMINADO
                 then [FiltroAplicado corte; FiltroNota corte; Vazia]
                 else [])
  ++ flat_map f (match emails_status corte df s with
                 | [] => [Nenhum]
                 | l => [Total (length l); Vazia; Emails (join (py "; ") l);
                         Vazia]
                 end)
  ++ flat_map f [Vazia].
Proof.
  intros B f corte df s. unfold secao. cbv zeta.
  rewrite !flat_map_app. f_equal. f_equal. f_equal.
  destruct (emails_status corte df s); reflexivity.
Qed.

Lemma correcoes_map : forall l, correcoes_do_relatorio (map Correcao l) = l.
Proof.
  induction l as [|c l IH]; [reflexivity|].
  cbn [map]. unfold correcoes_do_relatorio in *. cbn [flat_map app].
  rewrite IH. reflexivity.
Qed.

Lemma correcoes_gerar : forall ano_agora agora df ep,
  correcoes_do_relatorio (gerar_lista_emails ano_agora agora df ep) =
  if Nat.ltb 0 (length (filter Email_Foi_Alterado df))
  then corrections_log ep else [].
Proof.
  intros. unfold correcoes_do_relatorio. rewrite obs_gerar, !obs_secao.
  cbn [flat_map app].
  destruct (emails_status (ano_de_corte ano_agora df) df APTO);
    destruct (emails_status (ano_de_corte ano_agora df) df SUSPENSO);
    destruct (emails_status (ano_de_corte ano_agora df) df ELIMINADO);
    cbn [flat_map app status_eqb];
    (destruct (Nat.ltb 0 (length (filter Email_Foi_Alterado df)));
     [|reflexivity]);
    rewrite ?flat_map_app; cbn [flat_map app]; apply correcoes_map.
Qed.

Lemma obs_map_correcao : forall (B : Type) (f : rline -> list B) l,
  (forall c, f (Correcao c) = []) -> flat_map f (map Correcao l) = [].
Proof.
  intros B f l Hf. induction l as [|c l IH]; [reflexivity|].
  cbn [map flat_map]. rewrite Hf, IH. reflexivity.
Qed.

Lemma corrigidos_gerar : forall ano_agora agora df ep,
  corrigidos_do_relatorio (gerar_lista_emails ano_agora agora df ep) =
  [length (filter Email_Foi_Alterado df)].
Proof.
  intros. unfold corrigidos_do_relatorio. rewrite obs_gerar, !obs_secao.
  cbn [flat_map app].
  destruct (emails_status (ano_de_corte ano_agora df) df APTO);
    destruct (emails_status (ano_de_corte ano_agora df) df SUSPENSO);
    destruct (emails_status (ano_de_corte ano_agora df) df ELIMINADO);
    cbn [flat_map app status_eqb];
    (destruct (Nat.ltb 0 (length (filter Email_Foi_Alterado df)));
     [|reflexivity]);
    rewrite ?flat_map_app; cbn [flat_map app];
    rewrite obs_map_correcao by reflexivity; reflexivity.
Qed.

Lemma validos_gerar : forall ano_agora agora df ep,
  validos_do_relatorio (gerar_lista_emails ano_agora agora df ep) =
  [length (filter Tem_Email df)].
Proof.
  intros. unfold validos_do_relatorio. rewrite obs_gerar, !obs_secao.
  cbn [flat_map app].
  destruct (emails_status (ano_de_corte ano_agora df) df APTO);
    destruct (emails_status (ano_de_corte ano_agora df) df SUSPENSO);
    destruct (emails_status (ano_de_corte ano_agora df) df ELIMINADO);
    cbn [flat_map app status_eqb];
    (destruct (Nat.ltb 0 (length (filter Email_Foi_Alterado df)));
     [|reflexivity]);
    rewrite ?flat_map_app; cbn [flat_map app];
    rewrite obs_map_correcao by reflexivity; reflexivity.
Qed.

Lemma totais_gerar : forall ano_agora agora df ep,
  totais_do_relatorio (gerar_lista_emails ano_agora agora df ep) =
  flat_map (fun s => total_da_secao
                       (emails_status (ano_de_corte ano_agora df) df s))
    [APTO; SUSPENSO; ELIMINADO].
Proof.
  intros. unfold totais_do_relatorio. rewrite obs_gerar, !obs_secao.
  cbn [flat_map app].
  destruct (emails_status (ano_de_corte ano_agora df) df APTO);
    destruct (emails_status (ano_de_corte ano_agora df) df SUSPENSO);
    destruct (emails_status (ano_de_corte ano_agora df) df ELIMINADO);
    cbn [flat_map app status_eqb total_da_secao];
    (destruct (Nat.ltb 0 (length (filter Email_Foi_Alterado df)));
     [|reflexivity]);
    rewrite ?flat_map_app; cbn [flat_map app];
    rewrite obs_map_correcao by reflexivity; reflexivity.
Qed.

Lemma emails_gerar : forall ano_agora agora df ep,
  emails_do_relatorio (gerar_lista_emails ano_agora agora df ep) =
  flat_map (fun s => linha_de_emails
                       (emails_status (ano_de_corte ano_agora df) df s))
    [APTO; SUSPENSO; ELIMINADO].
Proof.
  intros. unfold emails_do_relatorio. rewrite obs_gerar, !obs_secao.
  cbn [flat_map app].
  destruct (emails_status (ano_de_corte ano_agora df) df APTO);
    destruct (emails_status (ano_de_corte ano_agora df) df SUSPENSO);
    destruct (emails_status (ano_de_corte ano_agora df) df ELIMINADO);
    cbn [flat_map app status_eqb linha_de_emails];
    (destruct (Nat.ltb 0 (length (filter Email_Foi_Alterado df)));
     [|reflexivity]);
    rewrite ?flat_map_app; cbn [flat_map app];
    rewrite obs_map_correcao by reflexivity; reflexivity.
Qed.

(** X13. In the report of a run, the correction trail lists one entry
    for each row of the parsed table whose email was altered, in the
    order of the rows and with the original and corrected email of the
    row, and the number the statistics give for the corrected emails is
    the number of entries of the trail. *)
Theorem X13_trail_matches_statistics :
  forall ano_agora agora caminho_pdf relatorio,
  processar_pdf_para_emails ano_agora agora caminho_pdf = Ok relatorio ->
  exists df self',
    extrair_emails_pdf EmailProcessor_init caminho_pdf = Ok (df, self') /\
    correcoes_do_relatorio relatorio
      = map correcao_da_linha (filter Email_Foi_Alterado df) /\
    corrigidos_do_relatorio relatorio
      = [length (correcoes_do_relatorio relatorio)].
Proof.
  intros ano_agora agora caminho_pdf relatorio H.
  unfold processar_pdf_para_emails in H. cbv zeta in H.
  destruct (extrair_emails_pdf EmailProcessor_init caminho_pdf)
    as [[df self']|e] eqn:He; cbn [bind] in H; [|discriminate].
  destruct (is_empty_df df); [discriminate|].
  injection H as <-. exists df, self'. split; [reflexivity|].
  unfold EmailProcessor_init in He.
  destruct (extrair_rows _ _ _ _ He) as (textos & _ & -> & _).
  cbn [app].
  rewrite correcoes_gerar, corrigidos_gerar. cbn [corrections_log].
  assert (E : (if Nat.ltb 0 (length (filter Email_Foi_Alterado df))
               then map correcao_da_linha (filter Email_Foi_Alterado df)
               else [])
              = map correcao_da_linha (filter Email_Foi_Alterado df)).
  { destruct (filter Email_Foi_Alterado df); reflexivity. }
  rewrite E, length_map. auto.
Qed.

Lemma X13_witness :
  exists df self',
    extrair_emails_pdf EmailProcessor_init
      (Ok [Ok (Some (py "Lista de APTOS"));
           Ok (Some (py "SP.A1.2/21 ANA ana@sapo.c"))]) = Ok (df, self') /\
    correcoes_do_relatorio
      (gerar_lista_emails 2026 (py "03/11/2026 10:00")
         [Row (py "SP.A1.2/21") (py "ANA") (py "ana@sapo.c")
              (py "ana@sapo.pt") true APTO true None]
         (MkEmailProcessor DOMINIOS_CONHECIDOS
            [Correction (py "ana@sapo.c") (py "ana@sapo.pt")]))
      = map correcao_da_linha (filter Email_Foi_Alterado df) /\
    corrigidos_do_relatorio
      (gerar_lista_emails 2026 (py "03/11/2026 10:00")
         [Row (py "SP.A1.2/21") (py "ANA") (py "ana@sapo.c")
              (py "ana@sapo.pt") true APTO true None]
         (MkEmailProcessor DOMINIOS_CONHECIDOS
            [Correction (py "ana@sapo.c") (py "ana@sapo.pt")]))
      = [length
           (correcoes_do_relatorio
              (gerar_lista_emails 2026 (py "03/11/2026 10:00")
                 [Row (py "SP.A1.2/21") (py "ANA") (py "ana@sapo.c")
                      (py "ana@sapo.pt") true APTO true None]
                 (MkEmailProcessor DOMINIOS_CONHECIDOS
                    [Correction (py "ana@sapo.c") (py "ana@sapo.pt")])))].
Proof.
  apply (X13_trail_matches_statistics 2026 (py "03/11/2026 10:00")
           (Ok [Ok (Some (py "Lista de APTOS"));
                Ok (Some (py "SP.A1.2/21 ANA ana@sapo.c"))])).
  vm_compute. reflexivity.
Defined.



Lemma unique_from_length : forall l seen,
  length (unique_from seen l) <= length l.
Proof.
  induction l as [|x l IH]; intros seen; cbn [unique_from length].
  - lia.
  - destruct (existsb (str_eqb x) seen); cbn [length].
    + specialize (IH seen). lia.
    + specialize (IH (x :: seen)). lia.
Qed.

Lemma selecionado_count : forall corte df,
  length (filter (selecionado corte APTO) df)
  + length (filter (selecionado corte SUSPENSO) df)
  + length (filter (selecionado corte ELIMINADO) df)
  <= length (filter Tem_Email df).
Proof.
  intros corte. induction df as [|r df IH]; [cbn; lia|].
  cbn [filter].
  destruct (selecionado corte APTO r) eqn:EA,
    (selecionado corte SUSPENSO r) eqn:ES,
    (selecionado corte ELIMINADO r) eqn:EE,
    (Tem_Email r) eqn:ET; cbn [length]; try lia;
    exfalso; unfold selecionado in EA, ES, EE; rewrite ET in *;
    destruct (Status r); cbn [status_eqb andb] in *; discriminate.
Qed.

Lemma total_da_secao_sum : forall l, list_sum (total_da_secao l) = length l.
Proof. intros [|x l]; cbn; lia. Qed.

(** X15. The numbers of a report are consistent: the counts of its three
    sections add up to no more than the number of valid emails its
    statistics give, which is no more than the number of rows of the
    table. *)
Theorem X15_section_totals_bounded : forall ano_agora agora df ep,
  exists n,
    validos_do_relatorio (gerar_lista_emails ano_agora agora df ep) = [n] /\
    list_sum (totais_do_relatorio (gerar_lista_emails ano_agora agora df ep))
      <= n /\
    n <= length df.
Proof.
  intros ano_agora agora df ep.
  exists (length (filter Tem_Email df)).
  split; [apply validos_gerar|]. split; [|apply filter_length_le].
  rewrite totais_gerar. cbn [flat_map]. rewrite app_nil_r.
  rewrite !list_sum_app, !total_da_secao_sum, !emails_status_unique.
  unfold unique.
  pose proof (selecionado_count (ano_de_corte ano_agora df) df) as Hs.
  pose proof (unique_from_length
                (map Email_Corrigido
                   (filter (selecionado (ano_de_corte ano_agora df) APTO) df))
                []) as H1.
  pose proof (unique_from_length
                (map Email_Corrigido
                   (filter (selecionado (ano_de_corte ano_agora df) SUSPENSO)
                      df)) []) as H2.
  pose proof (unique_from_length
                (map Email_Corrigido
                   (filter (selecionado (ano_de_corte ano_agora df) ELIMINADO)
                      df)) []) as H3.
  rewrite length_map in H1, H2, H3. lia.
Qed.

Lemma emails_status_com_secao : forall corte df s,
  s <> INDEFINIDO ->
  emails_status corte (com_secao df) s = emails_status corte df s.
Proof.
  intros corte df s Hs. rewrite !emails_status_unique. f_equal. f_equal.
  unfold com_secao. rewrite filter_filter_and. apply filter_ext.
  intros r. unfold selecionado.
  destruct (Status r), s; cbn [status_eqb negb andb]; try reflexivity;
    contradiction.
Qed.

Lemma dropna_com_secao : forall df,
  Forall ano_coerente df ->
  dropna (map Ano_Registo (com_secao df)) = dropna (map Ano_Registo df).
Proof.
  induction 1 as [|r df Hr Hdf IH]; [reflexivity|].
  unfold com_secao in *. cbn [filter].
  destruct (status_eqb (Status r) INDEFINIDO) eqn:E; cbn [negb map dropna].
  - apply status_eqb_eq in E. destruct Hr as [Hiff _].
    destruct (Ano_Registo r) as [y|] eqn:Ey.
    + assert (N : Some y <> None) by discriminate.
      apply Hiff in N. destruct N as [N _]. congruence.
    + exact IH.
  - destruct (Ano_Registo r); rewrite IH; reflexivity.
Qed.

(** X16. A row that belongs to no section, its status being
    [INDEFINIDO], is never listed: the email lines and the counts of the
    sections of the report on the table of a parse are those of the
    report on the table without such rows, whatever the statistics of
    the heading count. *)
Theorem X16_rows_outside_sections_not_listed :
  forall log caminho_pdf df self' ano_agora agora ep,
  extrair_emails_pdf (MkEmailProcessor DOMINIOS_CONHECIDOS log) caminho_pdf
    = Ok (df, self') ->
  emails_do_relatorio (gerar_lista_emails ano_agora agora df ep)
    = emails_do_relatorio
        (gerar_lista_emails ano_agora agora (com_secao df) ep) /\
  totais_do_relatorio (gerar_lista_emails ano_agora agora df ep)
    = totais_do_relatorio
        (gerar_lista_emails ano_agora agora (com_secao df) ep).
Proof.
  intros log caminho_pdf df self' ano_agora agora ep H.
  destruct (extrair_rows _ _ _ _ H) as (textos & _ & _ & _ & _ & _ & Ha).
  assert (Ec : ano_de_corte ano_agora (com_secao df)
               = ano_de_corte ano_agora df).
  { unfold ano_de_corte. rewrite (dropna_com_secao df Ha). reflexivity. }
  rewrite !emails_gerar, !totais_gerar, Ec. cbn [flat_map].
  rewrite !emails_status_com_secao by discriminate. auto.
Qed.

Lemma X16_witness :
  emails_do_relatorio
    (gerar_lista_emails 2026 (py "03/11/2026 10:00")
       [Row (py "SP.A1.2/21") (py "ANA") (py "ana@sapo.pt")
            (py "ana@sapo.pt") false INDEFINIDO true None]
       EmailProcessor_init)
    = emails_do_relatorio
        (gerar_lista_emails 2026 (py "03/11/2026 10:00")
           (com_secao
              [Row (py "SP.A1.2/21") (py "ANA") (py "ana@sapo.pt")
                   (py "ana@sapo.pt") false INDEFINIDO true None])
           EmailProcessor_init) /\
  totais_do_relatorio
    (gerar_lista_emails 2026 (py "03/11/2026 10:00")
       [Row (py "SP.A1.2/21") (py "ANA") (py "ana@sapo.pt")
            (py "ana@sapo.pt") false INDEFINIDO true None]
       EmailProcessor_init)
    = totais_do_relatorio
        (gerar_lista_emails 2026 (py "03/11/2026 10:00")
           (com_secao
              [Row (py "SP.A1.2/21") (py "ANA") (py "ana@sapo.pt")
                   (py "ana@sapo.pt") false INDEFINIDO true None])
           EmailProcessor_init).
Proof.
  apply (X16_rows_outside_sections_not_listed []
           (Ok [Ok (Some (py "SP.A1.2/21 ANA ana@sapo.pt"))])
           [Row (py "SP.A1.2/21") (py "ANA") (py "ana@sapo.pt")
                (py "ana@sapo.pt") false INDEFINIDO true None]
           (MkEmailProcessor DOMINIOS_CONHECIDOS [])).
  vm_compute. reflexivity.
Defined.
